(** * MainTalk: the authentication layer of the Talk desktop wrapper

    A shallow embedding of the login-flow URL codec
    ([authentication/login.service.js]), the login window
    ([authentication/login.window.js]), the credential store and strategy
    resolver ([custom/domainAuth.js]) and the deep-link listener of
    [main.js], together with the properties of the design document that
    can be stated over them.

    JavaScript strings are modelled as Rocq strings of 8-bit characters,
    read as the UTF-8 bytes of the JavaScript string.  Every delimiter the
    code searches for ([:], [&], [+], [%], the prefixes [nc://] and
    [login/]) is ASCII, so splitting and slicing commute with that
    reading. *)

From Stdlib Require Import ZArith NArith Lia List Bool.
From Stdlib Require Import Strings.String Strings.Ascii Numbers.DecimalString.
From stdpp Require Import base option strings gmap.
Import ListNotations.

Set Warnings "-register-all".
Local Open Scope string_scope.
Local Open Scope list_scope.

(* ===================================================================== *)
(** ** String primitives of the JavaScript runtime                        *)
(* ===================================================================== *)

Module JSString.

(** [s.startsWith(p)] *)
Definition startsWith (s p : string) : bool := String.prefix p s.

(** [s.substring(n)]: the suffix from index [n]. *)
Fixpoint substringFrom (n : nat) (s : string) : string :=
  match n, s with
  | O, _ => s
  | S n', String _ r => substringFrom n' r
  | S _, EmptyString => EmptyString
  end.

(** [s.substring(0, n)] *)
Fixpoint substringTo (n : nat) (s : string) : string :=
  match n, s with
  | S n', String c r => String c (substringTo n' r)
  | _, _ => EmptyString
  end.

(** [s.indexOf(c)] for a one-character needle; [None] is JavaScript's -1. *)
Fixpoint indexOf (c : ascii) (s : string) : option nat :=
  match s with
  | EmptyString => None
  | String d r =>
      if Ascii.eqb d c then Some O
      else match indexOf c r with
           | Some i => Some (S i)
           | None => None
           end
  end.

(** [s.split(c)] for a one-character separator: always at least one piece. *)
Fixpoint split (c : ascii) (s : string) : list string :=
  match s with
  | EmptyString => [EmptyString]
  | String d r =>
      if Ascii.eqb d c then EmptyString :: split c r
      else match split c r with
           | h :: t => String d h :: t
           | [] => [String d EmptyString]
           end
  end.

(** [s.replaceAll(a, b)] for one-character [a] and [b]. *)
Fixpoint replaceAll (a b : ascii) (s : string) : string :=
  match s with
  | EmptyString => EmptyString
  | String d r => String (if Ascii.eqb d a then b else d) (replaceAll a b r)
  end.

(** [s.replace(/c/g, '')]: every occurrence of [c] removed. *)
Fixpoint removeAll (a : ascii) (s : string) : string :=
  match s with
  | EmptyString => EmptyString
  | String d r => if Ascii.eqb d a then removeAll a r else String d (removeAll a r)
  end.

(** [s.replace(/%20/g, '+')]: leftmost, non-overlapping matches. *)
Fixpoint replacePct20 (s : string) : string :=
  match s with
  | String "%" (String "2" (String "0" r)) => String "+" (replacePct20 r)
  | String d r => String d (replacePct20 r)
  | EmptyString => EmptyString
  end.

(** [s.includes(c)] for a one-character needle. *)
Fixpoint includesChar (c : ascii) (s : string) : bool :=
  match s with
  | EmptyString => false
  | String d r => Ascii.eqb d c || includesChar c r
  end.

(** Every character of [s] passes the test [f]. *)
Fixpoint allChars (f : ascii -> bool) (s : string) : bool :=
  match s with
  | EmptyString => true
  | String c r => f c && allChars f r
  end.

(** Truthiness of a string: the empty string is the only falsy one. *)
Definition truthy (s : string) : bool :=
  match s with EmptyString => false | _ => true end.

(** [chars.charAt(i)]: the empty string when [i] is out of range. *)
Definition charAt (i : Z) (s : string) : string :=
  if (i <? 0)%Z then EmptyString
  else match String.get (Z.to_nat i) s with
       | Some c => String c EmptyString
       | None => EmptyString
       end.

End JSString.

(* ===================================================================== *)
(** ** Numbers of the JavaScript runtime                                  *)
(* ===================================================================== *)

(** The Number type is IEEE 754 binary64.  The code multiplies a value of
    [Math.random()] by a string length and prints integers; both are
    followed here with the rounding the runtime applies (to nearest, ties
    to even, 53 significant bits). *)
Module Double.
Local Open Scope Z_scope.

(** A finite, non-negative double: the number [mantissa * 2 ^ exponent]. *)
Record double : Type := { mantissa : Z; exponent : Z }.

(** The doubles from 0 (included) to 1 (excluded), each written with a
    negative exponent: what [Math.random()] may return. *)
Definition inUnit (d : double) : Prop :=
  0 <= mantissa d < 2 ^ 53
  /\ -1074 <= exponent d < 0
  /\ mantissa d < 2 ^ (- exponent d).

(** The natural number [n] rounded to 53 significant bits: the result
    [(m, s)] stands for [m * 2 ^ s]. *)
Definition round53 (n : Z) : Z * Z :=
  let s := Z.log2 n - 52 in
  if s <=? 0 then (n, 0)
  else
    let q := Z.shiftr n s in
    let rest := Z.land n (Z.ones s) in
    let half := Z.shiftl 1 (s - 1) in
    if (half <? rest) || ((half =? rest) && Z.odd q) then (q + 1, s) else (q, s).

(** [d * k] for a natural number [k] that is a double itself: the exact
    product [mantissa * k * 2 ^ exponent], rounded.  The exponent does not
    drop, so the rounding is the one of the normal range; the products
    taken below stay far from overflow. *)
Definition timesNat (d : double) (k : Z) : double :=
  let '(m, s) := round53 (mantissa d * k) in
  {| mantissa := m; exponent := exponent d + s |}.

(** [Math.floor(d)] *)
Definition floor (d : double) : Z := Z.shiftl (mantissa d) (exponent d).

(** The double nearest to the natural number [n]; it is a natural number
    itself. *)
Definition nearest (n : Z) : Z :=
  let '(m, s) := round53 n in Z.shiftl m s.

Definition decimal (n : Z) : string :=
  NilZero.string_of_int (Z.to_int n).

(** The search of Number::toString for the integer [v] of [N] decimal
    digits: the least number [k] of digits such that some [s] of [k]
    digits, followed by zeros, is read back as [v]; of two such [s] the
    one nearer to [v], and the even one on a tie.  The result is
    [(s, k, n)] with [s * 10 ^ (n - k)] the number printed. *)
Fixpoint shortest (fuel : nat) (v N k : Z) : Z * Z * Z :=
  match fuel with
  | O => (v, N, N)
  | S f =>
      let unit := 10 ^ (N - k) in
      let lo := v / unit * unit in
      let hi := lo + unit in
      let pick c := if c =? 10 ^ N then (1, 1, N + 1) else (c / unit, k, N) in
      let okLo := nearest lo =? v in
      let okHi := nearest hi =? v in
      if okLo && okHi then
        if v - lo <? hi - v then pick lo
        else if hi - v <? v - lo then pick hi
        else if Z.even (lo / unit) then pick lo else pick hi
      else if okLo then pick lo
      else if okHi then pick hi
      else shortest f v N (k + 1)
  end.

Fixpoint zeros (n : nat) : string :=
  match n with
  | O => EmptyString
  | S n' => String "0" (zeros n')
  end.

(** [String(x)] for the Number [x] that the integer [n] denotes (the
    double nearest to it): plain digits below [1e21], exponent notation
    from there on, [Infinity] beyond the largest double. *)
Definition toString (n : Z) : string :=
  if n =? 0 then "0"
  else
    let sign := if n <? 0 then "-" else EmptyString in
    let v := nearest (Z.abs n) in
    if 2 ^ 1024 <=? v then (sign ++ "Infinity")%string
    else
      let N := Z.of_nat (String.length (decimal v)) in
      let '(s, k, n') := shortest (Z.to_nat N) v N 1 in
      let digits := decimal s in
      if n' <=? 21 then (sign ++ digits ++ zeros (Z.to_nat (n' - k)))%string
      else
        match digits with
        | String d rest =>
            (sign ++ String d (if (k =? 1)%Z then EmptyString else String "." rest)
             ++ "e+" ++ decimal (n' - 1))%string
        | EmptyString => sign
        end.

End Double.

(* ===================================================================== *)
(** ** [encodeURIComponent] and [decodeURIComponent]                       *)
(* ===================================================================== *)

Module URI.

Definition isDigit (c : ascii) : bool :=
  let n := N_of_ascii c in ((48 <=? n) && (n <=? 57))%N.
Definition isUpper (c : ascii) : bool :=
  let n := N_of_ascii c in ((65 <=? n) && (n <=? 90))%N.
Definition isLower (c : ascii) : bool :=
  let n := N_of_ascii c in ((97 <=? n) && (n <=? 122))%N.
Definition isAlpha (c : ascii) : bool := isUpper c || isLower c.
Definition isAlnum (c : ascii) : bool := isAlpha c || isDigit c.

(** The characters [encodeURIComponent] leaves alone:
    letters, digits and [- _ . ! ~ * ' ( )]. *)
Definition unreserved (c : ascii) : bool :=
  isAlnum c || JSString.includesChar c "-_.!~*'()".

Definition hexDigit (n : N) : ascii :=
  if (n <? 10)%N then ascii_of_N (48 + n) else ascii_of_N (55 + n).

Definition hexValue (c : ascii) : option N :=
  let n := N_of_ascii c in
  if isDigit c then Some (n - 48)%N
  else if ((65 <=? n) && (n <=? 70))%N then Some (n - 55)%N
  else if ((97 <=? n) && (n <=? 102))%N then Some (n - 87)%N
  else None.

Definition escapeByte (c : ascii) : string :=
  let n := N_of_ascii c in
  String "%" (String (hexDigit (n / 16)) (String (hexDigit (n mod 16)) EmptyString)).

(** [encodeURIComponent(s)], on the UTF-8 bytes of [s]. *)
Fixpoint encodeURIComponent (s : string) : string :=
  match s with
  | EmptyString => EmptyString
  | String c r =>
      if unreserved c then String c (encodeURIComponent r)
      else (escapeByte c ++ encodeURIComponent r)%string
  end.

(** The escapes of a string: a character that stands for itself, or the
    byte of a [%XX] triple. *)
Inductive token : Type :=
| Raw (c : ascii)
| Pct (b : N).

(** A [%] that is not followed by two hexadecimal digits is a [URIError]. *)
Fixpoint tokens (s : string) : option (list token) :=
  match s with
  | EmptyString => Some []
  | String "%" (String h (String l r)) =>
      match hexValue h, hexValue l, tokens r with
      | Some a, Some b, Some ts => Some (Pct (16 * a + b) :: ts)
      | _, _, _ => None
      end
  | String "%" _ => None
  | String c r =>
      match tokens r with
      | Some ts => Some (Raw c :: ts)
      | None => None
      end
  end.

(** The lead byte of a multi-byte UTF-8 sequence: the number of
    continuation bytes and the range allowed for the first of them. *)
Definition utf8Lead (b : N) : option (nat * N * N) :=
  if ((194 <=? b) && (b <=? 223))%N then Some (1%nat, 128, 191)%N
  else if (b =? 224)%N then Some (2%nat, 160, 191)%N
  else if ((225 <=? b) && (b <=? 236))%N then Some (2%nat, 128, 191)%N
  else if (b =? 237)%N then Some (2%nat, 128, 159)%N
  else if ((238 <=? b) && (b <=? 239))%N then Some (2%nat, 128, 191)%N
  else if (b =? 240)%N then Some (3%nat, 144, 191)%N
  else if ((241 <=? b) && (b <=? 243))%N then Some (3%nat, 128, 191)%N
  else if (b =? 244)%N then Some (3%nat, 128, 143)%N
  else None.

(** Escaped bytes of 0x80 and above must spell a well-formed UTF-8
    sequence of escapes; anything else is a [URIError]. *)
Fixpoint decodeTokens (need : nat) (lo hi : N) (ts : list token) : option string :=
  match ts with
  | [] => match need with O => Some EmptyString | S _ => None end
  | Raw c :: r =>
      match need with
      | O => match decodeTokens O 128 191 r with
             | Some s => Some (String c s)
             | None => None
             end
      | S _ => None
      end
  | Pct b :: r =>
      match need with
      | O =>
          if (b <? 128)%N then
            match decodeTokens O 128 191 r with
            | Some s => Some (String (ascii_of_N b) s)
            | None => None
            end
          else
            match utf8Lead b with
            | Some (n, lo', hi') =>
                match decodeTokens n lo' hi' r with
                | Some s => Some (String (ascii_of_N b) s)
                | None => None
                end
            | None => None
            end
      | S need' =>
          if ((lo <=? b) && (b <=? hi))%N then
            match decodeTokens need' 128 191 r with
            | Some s => Some (String (ascii_of_N b) s)
            | None => None
            end
          else None
      end
  end.

(** [decodeURIComponent(s)]; [None] when it throws [URIError]. *)
Definition decodeURIComponent (s : string) : option string :=
  match tokens s with
  | Some ts => decodeTokens O 128 191 ts
  | None => None
  end.

End URI.

(* ===================================================================== *)
(** ** The [URL] constructor                                              *)
(* ===================================================================== *)

(** [new URL(s)] with no base, after the WHATWG URL standard's basic
    parser, to the extent the callers observe it: whether the constructor
    throws, and the [protocol] of the result.  The scheme states, the
    special-scheme authority, credentials, host and port states are
    followed, with the IPv4 and IPv6 parsers of the host parser.  A
    domain goes through without the IDNA step: for a host of ASCII
    characters with no label that starts with [xn--] that step only
    lowers the case, which changes neither the outcome nor the
    protocol. *)
Module WhatwgURL.
Import JSString URI.

Record url : Type := { protocol : string }.

Definition isC0OrSpace (c : ascii) : bool := (N_of_ascii c <=? 32)%N.

Definition isTabOrNewline (c : ascii) : bool :=
  let n := N_of_ascii c in ((n =? 9) || (n =? 10) || (n =? 13))%N.

Fixpoint stripLeading (s : string) : string :=
  match s with
  | String c r => if isC0OrSpace c then stripLeading r else s
  | EmptyString => EmptyString
  end.

Fixpoint stripTrailing (s : string) : string :=
  match s with
  | EmptyString => EmptyString
  | String c r =>
      match stripTrailing r with
      | EmptyString => if isC0OrSpace c then EmptyString else String c EmptyString
      | r' => String c r'
      end
  end.

Fixpoint removeTabNewline (s : string) : string :=
  match s with
  | EmptyString => EmptyString
  | String c r =>
      if isTabOrNewline c then removeTabNewline r else String c (removeTabNewline r)
  end.

Definition toLower (c : ascii) : ascii :=
  if isUpper c then ascii_of_N (N_of_ascii c + 32) else c.

(** Scheme state: letters, digits, [+], [-] and [.] up to the first [:].
    Anything else, or the end of the input, leaves no scheme, which
    without a base is a failure. *)
Fixpoint schemeState (s : string) : option (string * string) :=
  match s with
  | EmptyString => None
  | String c r =>
      if Ascii.eqb c ":" then Some (EmptyString, r)
      else if isAlnum c || includesChar c "+-." then
        match schemeState r with
        | Some (sch, rest) => Some (String (toLower c) sch, rest)
        | None => None
        end
      else None
  end.

(** Scheme start state: the first character must be an ASCII letter. *)
Definition parseScheme (s : string) : option (string * string) :=
  match s with
  | String c _ => if isAlpha c then schemeState s else None
  | EmptyString => None
  end.

Definition isSpecial (scheme : string) : bool :=
  existsb (String.eqb scheme) ["ftp"; "file"; "http"; "https"; "ws"; "wss"].

Fixpoint skipSlashes (s : string) : string :=
  match s with
  | String c r => if includesChar c "/\" then skipSlashes r else s
  | EmptyString => EmptyString
  end.

(** The part of [s] before the first character of [stops]. *)
Fixpoint takeUntil (stops : string) (s : string) : string :=
  match s with
  | EmptyString => EmptyString
  | String c r => if includesChar c stops then EmptyString else String c (takeUntil stops r)
  end.

(** The part after the last [@], and whether an [@] was seen. *)
Fixpoint afterLastAt (s : string) : string * bool :=
  match s with
  | EmptyString => (EmptyString, false)
  | String c r =>
      let '(t, seen) := afterLastAt r in
      if seen then (t, true)
      else if Ascii.eqb c "@" then (r, true)
      else (s, false)
  end.

(** Host and port of an authority without credentials: the port starts
    at the first [:] outside square brackets. *)
Fixpoint splitHostPort (inBrackets : bool) (s : string) : string * option string :=
  match s with
  | EmptyString => (EmptyString, None)
  | String c r =>
      if Ascii.eqb c ":" && negb inBrackets then (EmptyString, Some r)
      else
        let inB := if Ascii.eqb c "[" then true
                   else if Ascii.eqb c "]" then false else inBrackets in
        let '(h, p) := splitHostPort inB r in (String c h, p)
  end.

Fixpoint decimal (acc : N) (s : string) : N :=
  match s with
  | EmptyString => acc
  | String c r => decimal (10 * acc + (N_of_ascii c - 48)) r
  end.

Definition portOk (p : option string) : bool :=
  match p with
  | None => true
  | Some d => allChars isDigit d && (decimal 0 d <=? 65535)%N
  end.

Definition forbiddenHost (c : ascii) : bool :=
  let n := N_of_ascii c in
  ((n =? 0) || (n =? 9) || (n =? 10) || (n =? 13) || (n =? 32))%N
  || includesChar c "#/:<>?@[\]^|".

Definition forbiddenDomain (c : ascii) : bool :=
  let n := N_of_ascii c in
  forbiddenHost c || (n <=? 31)%N || Ascii.eqb c "%" || (n =? 127)%N.

(** The URL standard's percent-decode: a malformed escape stays as it is. *)
Fixpoint percentDecode (s : string) : string :=
  match s with
  | EmptyString => EmptyString
  | String "%" (String h (String l r) as r1) =>
      match hexValue h, hexValue l with
      | Some a, Some b => String (ascii_of_N (16 * a + b)) (percentDecode r)
      | _, _ => String "%" (percentDecode r1)
      end
  | String c r => String c (percentDecode r)
  end.

(** The text between [[] and a final []]. *)
Fixpoint closeBracket (s : string) : option string :=
  match s with
  | EmptyString => None
  | String c EmptyString => if Ascii.eqb c "]" then Some EmptyString else None
  | String c r =>
      match closeBracket r with
      | Some b => Some (String c b)
      | None => None
      end
  end.

Definition isHexDigit (c : ascii) : bool :=
  match hexValue c with Some _ => true | None => false end.

(** The value of a string of digits in radix [r]. *)
Fixpoint radixValue (r acc : N) (s : string) : N :=
  match s with
  | EmptyString => acc
  | String c t =>
      radixValue r (r * acc + match hexValue c with Some d => d | None => 0 end)%N t
  end.

Definition isOctalDigit (c : ascii) : bool :=
  let n := N_of_ascii c in ((48 <=? n) && (n <=? 55))%N.

(** The IPv4 number parser; [None] is failure. *)
Definition ipv4Number (input : string) : option N :=
  match input with
  | EmptyString => None
  | String "0" (String x r) =>
      if includesChar x "xX" then
        if allChars isHexDigit r then Some (radixValue 16 0 r) else None
      else if allChars isOctalDigit (String x r) then Some (radixValue 8 0 (String x r))
      else None
  | _ => if allChars isDigit input then Some (radixValue 10 0 input) else None
  end.

(** The parts of a host between its dots, without the empty part a
    final dot leaves, provided something comes before it. *)
Definition hostParts (input : string) : list string :=
  let parts := split "." input in
  match rev parts with
  | EmptyString :: (_ :: _) as before => rev before
  | _ => parts
  end.

(** The ends-in-a-number checker. *)
Definition endsInNumber (input : string) : bool :=
  match rev (split "." input) with
  | [EmptyString] => false
  | EmptyString :: last :: _ | last :: _ =>
      (truthy last && allChars isDigit last)
      || match ipv4Number last with Some _ => true | None => false end
  | [] => false
  end.

(** The numbers of the parts, when each of them is one. *)
Fixpoint ipv4Numbers (parts : list string) : option (list N) :=
  match parts with
  | [] => Some []
  | p :: r =>
      match ipv4Number p, ipv4Numbers r with
      | Some n, Some ns => Some (n :: ns)
      | _, _ => None
      end
  end.

(** The IPv4 parser, as far as it decides success. *)
Definition ipv4Ok (input : string) : bool :=
  let parts := hostParts input in
  if (4 <? List.length parts)%nat then false
  else
    match ipv4Numbers parts with
    | None => false
    | Some numbers =>
        match rev numbers with
        | [] => false
        | last :: others =>
            forallb (fun n => (n <=? 255)%N) others
            && (last <? 256 ^ N.of_nat (5 - List.length numbers))%N
        end
    end.

(** Up to [n] hexadecimal digits at the head of [s]: how many, and what
    follows them. *)
Fixpoint takeHex (n : nat) (s : string) : nat * string :=
  match n, s with
  | S n', String c r =>
      if isHexDigit c then let '(k, t) := takeHex n' r in (S k, t) else (O, s)
  | _, _ => (O, s)
  end.

(** One number of the dotted part of an IPv6 address: decimal digits,
    no leading zero, at most 255. *)
Definition ipv4Piece (p : string) : bool :=
  match p with
  | EmptyString => false
  | String "0" (String _ _) => false
  | _ => allChars isDigit p && (String.length p <=? 3)%nat && (radixValue 10 0 p <=? 255)%N
  end.

(** The dotted part that may end an IPv6 address: exactly four numbers. *)
Definition ipv4InIpv6 (s : string) : bool :=
  match split "." s with
  | [a; b; c; d] => ipv4Piece a && ipv4Piece b && ipv4Piece c && ipv4Piece d
  | _ => false
  end.

(** The main loop of the IPv6 parser on what is left of the input, with
    the index of the piece to fill and whether [::] was seen. *)
Fixpoint ipv6Loop (fuel : nat) (s : string) (pieceIndex : nat) (compress : bool) : bool :=
  match fuel with
  | O => false
  | S f =>
      match s with
      | EmptyString => compress || Nat.eqb pieceIndex 8
      | String c r =>
          if Nat.eqb pieceIndex 8 then false
          else if Ascii.eqb c ":" then
            if compress then false else ipv6Loop f r (S pieceIndex) true
          else
            let '(len, rest) := takeHex 4 s in
            match rest with
            | EmptyString => ipv6Loop f EmptyString (S pieceIndex) compress
            | String d r' =>
                if Ascii.eqb d "." then
                  negb (Nat.eqb len 0) && (pieceIndex <=? 6)%nat && ipv4InIpv6 s
                  && (compress || Nat.eqb (pieceIndex + 2) 8)
                else if Ascii.eqb d ":" then
                  negb (Nat.eqb len 0) && truthy r' && ipv6Loop f r' (S pieceIndex) compress
                else false
            end
      end
  end.

(** The IPv6 parser, as far as it decides success. *)
Definition ipv6Ok (s : string) : bool :=
  match s with
  | String ":" (String ":" r) => ipv6Loop (S (String.length r)) r 1 true
  | String ":" _ => false
  | _ => ipv6Loop (S (String.length s)) s 0 false
  end.

(** The host parser, as far as it decides success. *)
Definition hostOk (special : bool) (h : string) : bool :=
  match h with
  | String "[" r =>
      match closeBracket r with
      | Some b => ipv6Ok b
      | None => false
      end
  | _ =>
      if special then
        let d := percentDecode h in
        truthy d && allChars (fun c => negb (forbiddenDomain c)) d
        && (if endsInNumber d then ipv4Ok d else true)
      else allChars (fun c => negb (forbiddenHost c)) h
  end.

(** Authority, host and port states. *)
Definition authorityOk (special : bool) (s : string) : bool :=
  let auth := takeUntil (if special then "/\?#" else "/?#") s in
  let '(hp, seen) := afterLastAt auth in
  if seen && negb (truthy hp) then false
  else
    let '(h, p) := splitHostPort false hp in
    if truthy h then hostOk special h && portOk p
    else if special then false
    else match p with None => true | Some _ => false end.

Definition isDriveLetter (h : string) : bool :=
  match h with
  | String c (String d EmptyString) => isAlpha c && includesChar d ":|"
  | _ => false
  end.

(** File, file slash and file host states. *)
Definition fileOk (rest : string) : bool :=
  match rest with
  | String a (String b r) =>
      if includesChar a "/\" && includesChar b "/\" then
        let h := takeUntil "/\?#" r in
        if isDriveLetter h || negb (truthy h) then true else hostOk true h
      else true
  | _ => true
  end.

(** [new URL(input)]; [None] when the constructor throws [TypeError]. *)
Definition newURL (input : string) : option url :=
  let s := removeTabNewline (stripTrailing (stripLeading input)) in
  match parseScheme s with
  | None => None
  | Some (scheme, rest) =>
      let ok :=
        if String.eqb scheme "file" then fileOk rest
        else if isSpecial scheme then authorityOk true (skipSlashes rest)
        else match rest with
             | String "/" (String "/" r) => authorityOk false r
             | _ => true
             end in
      if ok then Some {| protocol := (scheme ++ ":")%string |} else None
  end.

End WhatwgURL.

(* ===================================================================== *)
(** ** authentication/login.service.js                                    *)
(* ===================================================================== *)

Module LoginService.
Import JSString URI WhatwgURL.

(** The [Credentials] typedef.  A field that is absent from the
    JavaScript object and a field holding the empty string are both
    falsy, and the code only ever tests the required fields for
    truthiness, so the empty string stands for both. *)
Record Credentials : Type := {
  server : string;
  user : string;
  password : string;
  code : option string;
  state : option string
}.

(** The errors the codec throws, one constructor per [throw]. *)
Inductive LoginUrlError : Type :=
| InvalidUrl
| InvalidProtocol
| MissingEndpoint
| InvalidEndpoint
| MissingParameters
| MissingParameter (name : string)
| InvalidServerUrl (serverValue : string).

Inductive result (A : Type) : Type :=
| Ok (a : A)
| Throw (e : LoginUrlError).
Arguments Ok {A} a.
Arguments Throw {A} e.

(** [try { decodeURIComponent(v) } catch { v }] *)
Definition decodeOrRaw (v : string) : string :=
  match decodeURIComponent v with
  | Some d => d
  | None => v
  end.

(** One turn of the [for (const pair of pairs)] loop.  [params] is the
    object the loop fills; only its keys [server], [user], [password],
    [code] and [state] are read afterwards.  (JavaScript drops the
    assignment of a string to the key [__proto__]; the map keeps it under
    that key, which nothing reads.) *)
Definition parsePair (params : gmap string string) (pair : string)
  : gmap string string :=
  if negb (truthy pair) then params
  else
    match indexOf ":" pair with
    | None => params
    | Some firstColonIndex =>
        let key := substringTo firstColonIndex pair in
        let value := substringFrom (S firstColonIndex) pair in
        if negb (truthy key) || negb (truthy value) then params
        else if String.eqb key "server" then <[key := value]> params
        else if String.eqb key "code" || String.eqb key "state" then
          <[key := decodeOrRaw value]> params
        else <[key := decodeOrRaw (replaceAll "+" " " value)]> params
    end.

Definition parseParams (paramsString : string) : gmap string string :=
  fold_left parsePair (split "&" paramsString) ∅.

(** [params.key] read for truthiness: [None] when the key is absent or
    holds the empty string. *)
Definition param (params : gmap string string) (key : string) : option string :=
  match params !! key with
  | Some v => if truthy v then Some v else None
  | None => None
  end.

(** The [try { new URL(...) ... } catch] block that closes the
    validation: both the constructor's error and the protocol error end
    in the same [Invalid server URL] throw. *)
Definition serverUrlOk (serverValue : string) : bool :=
  match newURL serverValue with
  | Some u => startsWith (protocol u) "http"
  | None => false
  end.

Definition parseLoginRedirectUrl (url : string) : result Credentials :=
  if negb (truthy url) then Throw InvalidUrl
  else if negb (startsWith url "nc://") then Throw InvalidProtocol
  else
    let withoutProtocol := substringFrom 5 url in
    if negb (truthy withoutProtocol) then Throw MissingEndpoint
    else if negb (startsWith withoutProtocol "login/") then Throw InvalidEndpoint
    else
      let paramsString := substringFrom 6 withoutProtocol in
      if negb (truthy paramsString) then Throw MissingParameters
      else
        let params := parseParams paramsString in
        match param params "server", param params "user", param params "password" with
        | None, _, _ => Throw (MissingParameter "server")
        | Some _, None, _ => Throw (MissingParameter "user")
        | Some _, Some _, None => Throw (MissingParameter "password")
        | Some s, Some u, Some p =>
            if serverUrlOk s then
              Ok {| server := s; user := u; password := p;
                    code := param params "code";
                    state := param params "state" |}
            else Throw (InvalidServerUrl s)
        end.

(** [encodeURIComponent(v).replace(/%20/g, '+')] *)
Definition encodeValue (v : string) : string :=
  replacePct20 (encodeURIComponent v).

(** [if (v) url += `&key:${encoded}`] *)
Definition optionalParam (key : string) (v : option string) : string :=
  match v with
  | Some x => if truthy x then ("&" ++ key ++ ":" ++ encodeValue x)%string else EmptyString
  | None => EmptyString
  end.

Definition buildLoginRedirectUrl (c : Credentials) : result string :=
  if negb (truthy (server c)) then Throw (MissingParameter "server")
  else if negb (truthy (user c)) then Throw (MissingParameter "user")
  else if negb (truthy (password c)) then Throw (MissingParameter "password")
  else
    match newURL (server c) with
    | None => Throw (InvalidServerUrl (server c))
    | Some _ =>
        Ok ("nc://login/server:" ++ encodeValue (server c)
            ++ "&user:" ++ encodeValue (user c)
            ++ "&password:" ++ encodeValue (password c)
            ++ optionalParam "code" (code c)
            ++ optionalParam "state" (state c))%string
    end.

Definition isValidLoginFlowUrl (url : string) : bool :=
  match parseLoginRedirectUrl url with
  | Ok _ => true
  | Throw _ => false
  end.

(** The [{ code, state }] object, each key present only when truthy. *)
Definition extractOAuthParams (url : string) : option string * option string :=
  match parseLoginRedirectUrl url with
  | Ok c => (code c, state c)
  | Throw _ => (None, None)
  end.

End LoginService.

(* ===================================================================== *)
(** ** custom/domainAuth.js                                               *)
(* ===================================================================== *)

(** JavaScript values, shared by the credential store and the token
    exchange. *)
Module JSValue.
Import JSString.

(** JavaScript values as they come out of [JSON.parse], plus
    [undefined].  An object is its list of properties in insertion
    order, with distinct keys; numbers matter to the code below
    through their truthiness and their printed form only, and are kept
    as integers.  An integer that is not a double stands for the double
    nearest to it, as [JSON.parse] reads it. *)
Inductive value : Type :=
| VUndefined
| VNull
| VBool (b : bool)
| VNum (n : Z)
| VStr (s : string)
| VArr (items : list value)
| VObj (fields : list (string * value)).

Definition truthyV (v : value) : bool :=
  match v with
  | VUndefined | VNull => false
  | VBool b => b
  | VNum n => negb (n =? 0)%Z
  | VStr s => truthy s
  | VArr _ | VObj _ => true
  end.

Fixpoint lookup (k : string) (fields : list (string * value)) : value :=
  match fields with
  | [] => VUndefined
  | (k', v) :: r => if String.eqb k' k then v else lookup k r
  end.

(** [v.k] for the property names the code reads ([credentials],
    [server], [user], [password], [serverUrl], [username], [token],
    [type], [access_token], [user_id]): none of them exists on a string,
    number, boolean or array.  Every read is guarded by a truthiness
    test of [v], so the [TypeError] of reading from [null] or
    [undefined] never arises; the optional chain [v?.k] yields
    [undefined] there. *)
Definition get (v : value) (k : string) : value :=
  match v with
  | VObj fields => lookup k fields
  | _ => VUndefined
  end.

(** [a || b] *)
Definition or (a b : value) : value := if truthyV a then a else b.

End JSValue.

Module DomainAuth.
Import JSString WhatwgURL JSValue.

Definition fixCredentialsFormat (creds : value) : value :=
  if negb (truthyV creds) || negb (truthyV (get creds "credentials")) then creds
  else
    let c := get creds "credentials" in
    if truthyV (get c "server") && truthyV (get c "user") && truthyV (get c "password") then
      VObj [("serverUrl", or (get creds "serverUrl") (get c "server"));
            ("credentials", VObj [("username", get c "user");
                                  ("password", get c "password")])]
    else creds.

(** What [credsPath(app)] holds: nothing, something that
    [readFileSync] or [JSON.parse] throws on, or the text of a JSON
    value. *)
Inductive credsFile : Type :=
| NoFile
| Unreadable
| Content (v : value).

Definition readSaved (f : credsFile) : value :=
  match f with
  | Content v => fixCredentialsFormat v
  | NoFile | Unreadable => VNull
  end.

(** What [detectAuthState] looks at: the answer of
    [isOnDomain(expectedDomain)], the credentials file and
    [BUILD_CONFIG?.domain]. *)
Record environment : Type := {
  onDomain : bool;
  savedFile : credsFile;
  buildDomain : value
}.

Record AuthState : Type := {
  inDomain : bool;
  hasCreds : bool;
  creds : value
}.

Definition detectAuthState (env : environment) : AuthState :=
  let saved := readSaved (savedFile env) in
  {| inDomain := onDomain env;
     hasCreds := truthyV saved;
     creds := or saved VNull |}.

Inductive strategyType : Type := saml | file | manual.

Record AuthStrategy : Type := {
  type : strategyType;
  reason : string;
  strategyCreds : value;
  serverUrl : value
}.

Definition determineAuthStrategy (env : environment) : AuthStrategy :=
  let state := detectAuthState env in
  if inDomain state then
    {| type := saml; reason := "domain_joined"; strategyCreds := VUndefined;
       serverUrl := or (buildDomain env) (get (creds state) "serverUrl") |}
  else if hasCreds state then
    {| type := file; reason := "credentials_file_found";
       strategyCreds := creds state;
       serverUrl := get (creds state) "serverUrl" |}
  else
    {| type := manual; reason := "no_auto_auth_available";
       strategyCreds := VUndefined; serverUrl := buildDomain env |}.

Definition joinComma (parts : list string) : string :=
  match parts with
  | [] => EmptyString
  | p :: r => fold_left (fun acc x => (acc ++ "," ++ x)%string) r p
  end.

(** [String(v)], the conversion [new URL(v)] applies to its argument. *)
Fixpoint toStringV (v : value) : string :=
  match v with
  | VUndefined => "undefined"
  | VNull => "null"
  | VBool b => if b then "true" else "false"
  | VNum n => Double.toString n
  | VStr s => s
  | VArr items =>
      joinComma (map (fun x => match x with
                               | VUndefined | VNull => EmptyString
                               | _ => toStringV x
                               end) items)
  | VObj _ => "[object Object]"
  end.

Definition strictEqStr (v : value) (s : string) : bool :=
  match v with
  | VStr t => String.eqb t s
  | _ => false
  end.

Definition validateCredentials (c : value) : bool :=
  if negb (truthyV c) || negb (truthyV (get c "serverUrl"))
     || negb (truthyV (get c "credentials")) then false
  else
    match newURL (toStringV (get c "serverUrl")) with
    | None => false
    | Some _ =>
        let auth := get c "credentials" in
        if truthyV (get auth "username") && truthyV (get auth "password") then true
        else if strictEqStr (get auth "type") "oauth" then
          truthyV (get auth "token") && truthyV (get auth "username")
        else false
    end.

End DomainAuth.

(* ===================================================================== *)
(** ** main.js: the process-wide deep-link listener                       *)
(* ===================================================================== *)

Module DeepLink.
Import JSString.

(** A waiter is the promise behind one registered resolver. *)
Definition waiter : Type := nat.

(** The module-level variables [mainWindow], [deepLinkUrl] and
    [deeplinkResolvers], with what left the module so far: the values
    the waiters' promises were resolved with ([None] is [null]) and the
    [deeplink-received] messages sent to the renderer, oldest first. *)
Record state : Type := {
  mainWindowReady : bool;
  deepLinkUrl : option string;
  deeplinkResolvers : list waiter;
  resolved : list (waiter * option string);
  sent : list string
}.

(** [while (deeplinkResolvers.length > 0) { shift()(url) }] *)
Fixpoint drain (url : string) (queue : list waiter)
    (log : list (waiter * option string)) : list (waiter * option string) :=
  match queue with
  | [] => log
  | resolve :: rest => drain url rest (log ++ [(resolve, Some url)])
  end.

Definition notifyDeepLink (url : string) (s : state) : state :=
  {| mainWindowReady := mainWindowReady s;
     deepLinkUrl := Some url;
     deeplinkResolvers := [];
     resolved := drain url (deeplinkResolvers s) (resolved s);
     sent := if mainWindowReady s then sent s ++ [url] else sent s |}.

(** The [oauth-wait-code] handler, called on behalf of waiter [w]: a
    cached link is returned at once and consumed, otherwise the
    resolver joins the queue. *)
Definition oauthWaitCode (w : waiter) (s : state) : state :=
  match deepLinkUrl s with
  | Some url =>
      if truthy url then
        {| mainWindowReady := mainWindowReady s;
           deepLinkUrl := None;
           deeplinkResolvers := deeplinkResolvers s;
           resolved := resolved s ++ [(w, Some url)];
           sent := sent s |}
      else
        {| mainWindowReady := mainWindowReady s;
           deepLinkUrl := deepLinkUrl s;
           deeplinkResolvers := deeplinkResolvers s ++ [w];
           resolved := resolved s;
           sent := sent s |}
  | None =>
      {| mainWindowReady := mainWindowReady s;
         deepLinkUrl := None;
         deeplinkResolvers := deeplinkResolvers s ++ [w];
         resolved := resolved s;
         sent := sent s |}
  end.

(** [indexOf] and [splice(idx, 1)]: the first occurrence goes. *)
Fixpoint removeFirst (w : waiter) (queue : list waiter) : list waiter :=
  match queue with
  | [] => []
  | x :: r => if Nat.eqb x w then r else x :: removeFirst w r
  end.

(** The timer of waiter [w] fires.  A resolver that ran has cleared its
    timer, so the timer only fires for a waiter still in the queue. *)
Definition waitTimeout (w : waiter) (s : state) : state :=
  if existsb (Nat.eqb w) (deeplinkResolvers s) then
    {| mainWindowReady := mainWindowReady s;
       deepLinkUrl := deepLinkUrl s;
       deeplinkResolvers := removeFirst w (deeplinkResolvers s);
       resolved := resolved s ++ [(w, None)];
       sent := sent s |}
  else s.

(** The value waiter [w]'s promise holds, if it is settled. *)
Definition outcomeOf (w : waiter) (s : state) : option (option string) :=
  match List.find (fun e => Nat.eqb (fst e) w) (resolved s) with
  | Some (_, v) => Some v
  | None => None
  end.

End DeepLink.

(* ===================================================================== *)
(** ** PKCE parameters (login.window.js, custom/autoOAuth.js)             *)
(* ===================================================================== *)

(** SHA-256 after FIPS 180-4, on 32-bit words kept in [Z]. *)
Module Sha256.
Local Open Scope Z_scope.

Definition w32 (x : Z) : Z := x mod 2 ^ 32.
Definition add (x y : Z) : Z := w32 (x + y).
Definition rotr (n x : Z) : Z := Z.lor (Z.shiftr x n) (w32 (Z.shiftl x (32 - n))).
Definition not32 (x : Z) : Z := Z.lxor x 4294967295.

Definition Ch (x y z : Z) : Z := Z.lxor (Z.land x y) (Z.land (not32 x) z).
Definition Maj (x y z : Z) : Z :=
  Z.lxor (Z.lxor (Z.land x y) (Z.land x z)) (Z.land y z).
Definition Sigma0 (x : Z) : Z := Z.lxor (Z.lxor (rotr 2 x) (rotr 13 x)) (rotr 22 x).
Definition Sigma1 (x : Z) : Z := Z.lxor (Z.lxor (rotr 6 x) (rotr 11 x)) (rotr 25 x).
Definition sigma0 (x : Z) : Z := Z.lxor (Z.lxor (rotr 7 x) (rotr 18 x)) (Z.shiftr x 3).
Definition sigma1 (x : Z) : Z := Z.lxor (Z.lxor (rotr 17 x) (rotr 19 x)) (Z.shiftr x 10).

(** The first sixty-four primes. *)
Definition primes : list Z :=
  [2; 3; 5; 7; 11; 13; 17; 19; 23; 29; 31; 37; 41; 43; 47; 53; 59; 61; 67; 71;
   73; 79; 83; 89; 97; 101; 103; 107; 109; 113; 127; 131; 137; 139; 149; 151;
   157; 163; 167; 173; 179; 181; 191; 193; 197; 199; 211; 223; 227; 229; 233;
   239; 241; 251; 257; 263; 269; 271; 277; 281; 283; 293; 307; 311].

(** The integer cube root of [n], found bit by bit from bit [bits - 1]
    down. *)
Fixpoint cubeRoot (bits : nat) (n r : Z) : Z :=
  match bits with
  | O => r
  | S b =>
      let c := r + 2 ^ Z.of_nat b in
      cubeRoot b n (if c * c * c <=? n then c else r)
  end.

(** The round constants: the first 32 bits of the fractional part of the
    cube root of each prime. *)
Definition K : list Z :=
  map (fun p => w32 (cubeRoot 40 (p * 2 ^ 96) 0)) primes.

(** The initial hash value: the same of the square roots of the first
    eight primes. *)
Definition H0 : list Z :=
  map (fun p => w32 (Z.sqrt (p * 2 ^ 64))) (firstn 8 primes).

(** Big-endian bytes of the low [8 * n] bits of [x]. *)
Fixpoint bytesBE (n : nat) (x : Z) : list Z :=
  match n with
  | O => []
  | S n' => Z.land (Z.shiftr x (8 * Z.of_nat n')) 255 :: bytesBE n' x
  end.

(** The message, a one bit, zeros up to 56 modulo 64 and the bit length. *)
Definition pad (msg : list Z) : list Z :=
  let len := Z.of_nat (List.length msg) in
  let zeros := Z.to_nat ((55 - len) mod 64) in
  msg ++ [128] ++ repeat 0 zeros ++ bytesBE 8 (8 * len).

Fixpoint wordsBE (fuel : nat) (bytes : list Z) : list Z :=
  match fuel, bytes with
  | S f, a :: b :: c :: d :: r =>
      (Z.shiftl a 24 + Z.shiftl b 16 + Z.shiftl c 8 + d) :: wordsBE f r
  | _, _ => []
  end.

(** The message schedule, newest word first. *)
Fixpoint schedule (n : nat) (w : list Z) : list Z :=
  match n with
  | O => w
  | S n' =>
      let x := add (add (sigma1 (nth 1 w 0)) (nth 6 w 0))
                   (add (sigma0 (nth 14 w 0)) (nth 15 w 0)) in
      schedule n' (x :: w)
  end.

Definition round (st : list Z) (kw : Z * Z) : list Z :=
  match st with
  | [a; b; c; d; e; f; g; h] =>
      let t1 := add (add (add h (Sigma1 e)) (add (Ch e f g) (fst kw))) (snd kw) in
      let t2 := add (Sigma0 a) (Maj a b c) in
      [add t1 t2; a; b; c; add d t1; e; f; g]
  | _ => st
  end.

Definition compress (h : list Z) (block : list Z) : list Z :=
  let w := rev (schedule 48 (rev block)) in
  let st := fold_left round (combine K w) h in
  map (fun p => add (fst p) (snd p)) (combine h st).

Fixpoint blocks (fuel : nat) (h : list Z) (words : list Z) : list Z :=
  match fuel with
  | O => h
  | S f =>
      match words with
      | [] => h
      | _ => blocks f (compress h (firstn 16 words)) (skipn 16 words)
      end
  end.

(** The 32 bytes of the digest. *)
Definition sha256 (msg : list Z) : list Z :=
  let padded := pad msg in
  let words := wordsBE (List.length padded) padded in
  flat_map (bytesBE 4) (blocks (List.length words) H0 words).

End Sha256.

Module Base64.
Import JSString.
Local Open Scope Z_scope.

Definition alphabet : string :=
  "ABCDEFGHIJKLMNOPQRSTUVWXYZabcdefghijklmnopqrstuvwxyz0123456789+/".

Definition digit (n : Z) : string := charAt (Z.land n 63) alphabet.

(** Three bytes to four digits; a last group of one or two bytes is
    padded with [=]. *)
Fixpoint encode (bytes : list Z) : string :=
  match bytes with
  | a :: b :: c :: r =>
      let n := Z.shiftl a 16 + Z.shiftl b 8 + c in
      (digit (Z.shiftr n 18) ++ digit (Z.shiftr n 12)
       ++ digit (Z.shiftr n 6) ++ digit n ++ encode r)%string
  | [a; b] =>
      let n := Z.shiftl a 16 + Z.shiftl b 8 in
      (digit (Z.shiftr n 18) ++ digit (Z.shiftr n 12) ++ digit (Z.shiftr n 6) ++ "=")%string
  | [a] =>
      let n := Z.shiftl a 16 in
      (digit (Z.shiftr n 18) ++ digit (Z.shiftr n 12) ++ "==")%string
  | [] => EmptyString
  end.

End Base64.

Module Pkce.
Import JSString.

Definition chars : string :=
  "ABCDEFGHIJKLMNOPQRSTUVWXYZabcdefghijklmnopqrstuvwxyz0123456789-._~".

(** The class [[A-Za-z0-9-._~]], stated apart from [chars]. *)
Definition inAlphabet (c : ascii) : bool :=
  URI.isAlnum c || includesChar c "-._~".

(** The source of randomness: [random i] is the double the [i]-th call
    of [Math.random()] returns. *)
Definition source : Type := nat -> Double.double.

(** [Math.floor(Math.random() * chars.length)] for the draw [r]. *)
Definition randomIndex (r : Double.double) : Z :=
  Double.floor (Double.timesNat r (Z.of_nat (String.length chars))).

(** The loop of [generateRandomString]: [n] turns left, [k] calls of
    [Math.random()] made so far. *)
Fixpoint generateLoop (random : source) (n k : nat) (result : string) : string * nat :=
  match n with
  | O => (result, k)
  | S n' =>
      generateLoop random n' (S k) (result ++ charAt (randomIndex (random k)) chars)%string
  end.

Definition generateRandomString (random : source) (length k : nat) : string * nat :=
  generateLoop random length k EmptyString.

Definition bytesOf (s : string) : list Z :=
  map (fun c => Z.of_N (N_of_ascii c)) (list_ascii_of_string s).

(** [crypto.createHash('sha256').update(v).digest('base64')] *)
Definition sha256Base64 (v : string) : string :=
  Base64.encode (Sha256.sha256 (bytesOf v)).

(** [.replace(/\+/g, '-').replace(/\//g, '_').replace(/=/g, '')] *)
Definition urlSafe (b64 : string) : string :=
  removeAll "=" (replaceAll "/" "_" (replaceAll "+" "-" b64)).

Definition generateCodeChallenge (codeVerifier : string) : string :=
  urlSafe (sha256Base64 codeVerifier).

Record PkceState : Type := {
  codeVerifier : string;
  codeChallenge : string;
  state : string
}.

(** The three [const]s at the head of [openLoginWebView], drawing from
    [random] starting at call [k]. *)
Definition generate (random : source) (k : nat) : PkceState * nat :=
  let '(verifier, k1) := generateRandomString random 128 k in
  let challenge := generateCodeChallenge verifier in
  let '(st, k2) := generateRandomString random 32 k1 in
  ({| codeVerifier := verifier; codeChallenge := challenge; state := st |}, k2).

End Pkce.

(* ===================================================================== *)
(** ** authentication/login.window.js: one login window                   *)
(* ===================================================================== *)

Module LoginWindow.
Import JSString URI LoginService JSValue.

(** The [Error] objects the window resolves its promise with. *)
Inductive failure : Type :=
| Cancelled                                  (* OAuth authorization was cancelled *)
| ExchangeFailed                             (* Failed to exchange authorization code for token *)
| AuthorizationFailed (e : LoginUrlError)    (* OAuth authorization failed: ... *)
| CallbackFailed (e : LoginUrlError)         (* OAuth callback failed: ... *)
| DeepLinkFailed (e : LoginUrlError).        (* Deep link parsing failed: ... *)

(** What [resolve] is called with: a parsed [Credentials] object, the
    object built from a token response, or an [Error]. *)
Inductive resolution : Type :=
| Parsed (c : Credentials)
| FromToken (server : string) (user password tokenData : value)
| Failed (e : failure).

(** The variables of one [openLoginWebView] call that decide its
    result: the arguments, the PKCE [state], the latch, the promise
    ([settled]) and whether the window is gone.  [exchanging] records
    that a call of [exchangeAuthorizationCode] has not returned yet. *)
Record session : Type := {
  serverUrl : string;
  state : string;
  codeExchanged : bool;
  exchanging : bool;
  settled : option resolution;
  destroyed : bool
}.

Definition open (serverUrl state : string) : session :=
  {| serverUrl := serverUrl; state := state; codeExchanged := false;
     exchanging := false; settled := None; destroyed := false |}.

(** [resolve(r)]: a promise keeps the first value it is given. *)
Definition resolve (r : resolution) (s : session) : session :=
  match settled s with
  | Some _ => s
  | None =>
      {| serverUrl := serverUrl s; state := state s;
         codeExchanged := codeExchanged s; exchanging := exchanging s;
         settled := Some r; destroyed := destroyed s |}
  end.

(** The [close] listener of the window. *)
Definition onClose (s : session) : session :=
  if codeExchanged s then s else resolve (Failed Cancelled) s.

(** The window goes away: its [close] listener runs first.  On a window
    that is already destroyed [window.close()] throws; every call site
    has called [resolve] just before, so the [catch] that may receive
    the exception finds the promise settled and changes nothing. *)
Definition close (s : session) : session :=
  if destroyed s then s
  else
    let s' := onClose s in
    {| serverUrl := serverUrl s'; state := state s';
       codeExchanged := codeExchanged s'; exchanging := exchanging s';
       settled := settled s'; destroyed := true |}.

Definition startExchange (s : session) : session :=
  {| serverUrl := serverUrl s; state := state s;
     codeExchanged := true; exchanging := true;
     settled := settled s; destroyed := destroyed s |}.

(** [oauthParams.code && oauthParams.state === state] *)
Definition codeForSession (url : string) (s : session) : bool :=
  match extractOAuthParams url with
  | (Some _, Some st) => String.eqb st (state s)
  | _ => false
  end.

Definition willRedirect (url : string) (s : session) : session :=
  if startsWith url "nc://login" then
    match parseLoginRedirectUrl url with
    | Throw e => close (resolve (Failed (AuthorizationFailed e)) s)
    | Ok credentials =>
        if codeForSession url s then
          if codeExchanged s then s else startExchange s
        else close (resolve (Parsed credentials) s)
    end
  else s.

Definition willNavigate (navigationUrl : string) (s : session) : session :=
  if startsWith navigationUrl "nc://login" then
    match parseLoginRedirectUrl navigationUrl with
    | Throw e => close (resolve (Failed (CallbackFailed e)) s)
    | Ok credentials =>
        if codeForSession navigationUrl s && negb (codeExchanged s) then startExchange s
        else close (resolve (Parsed credentials) s)
    end
  else s.

(** [exchangeAuthorizationCode] returns [tokenData]: the JSON of a 2xx
    response, or [null]. *)
Definition exchangeDone (tokenData : value) (s : session) : session :=
  if exchanging s then
    let s1 :=
      {| serverUrl := serverUrl s; state := state s;
         codeExchanged := codeExchanged s; exchanging := false;
         settled := settled s; destroyed := destroyed s |} in
    if truthyV tokenData then
      close (resolve (FromToken (serverUrl s)
                        (or (get tokenData "user_id") (VStr "oauth_user"))
                        (get tokenData "access_token") tokenData) s1)
    else close (resolve (Failed ExchangeFailed) s1)
  else s.

(** What the injected script of the fallback reports. *)
Record userInfo : Type := {
  userName : string;
  hasSuccessIndicator : bool;
  hasUserElement : bool
}.

(** How the injected script ended: [executeJavaScript] threw, the script
    caught an error of its own and reported it, or it reported what it
    found. *)
Inductive scriptOutcome : Type :=
| ScriptThrew
| ScriptError
| ScriptInfo (info : userInfo).

(** What the fallback sees: the script's outcome, the current URL of the
    page and [Date.now()] in decimal. *)
Record page : Type := {
  scriptResult : scriptOutcome;
  currentUrl : string;
  now : string
}.

Definition parsedOrNone (url : string) : option Credentials :=
  match parseLoginRedirectUrl url with
  | Ok c => Some c
  | Throw _ => None
  end.

(** [userInfo && !userInfo.error
     && (userInfo.hasSuccessIndicator || userInfo.hasUserElement)] *)
Definition successShown (r : scriptOutcome) : option userInfo :=
  match r with
  | ScriptInfo info =>
      if hasSuccessIndicator info || hasUserElement info then Some info else None
  | ScriptThrew | ScriptError => None
  end.

(** [handleGrantPageCompletionFallback]: the credentials of a
    [success: true] result.  On a destroyed window the script cannot run,
    and every exception ends in [success: false]. *)
Definition handleGrantPageCompletionFallback (pg : page) (s : session)
  : option Credentials :=
  if destroyed s then None
  else
    match scriptResult pg with
    | ScriptThrew => None
    | r =>
        match successShown r with
        | Some info =>
            parsedOrNone ("nc://login/server:" ++ encodeURIComponent (serverUrl s)
                          ++ "&user:" ++ encodeURIComponent (userName info)
                          ++ "&password:fallback_token_" ++ now pg
                          ++ "&state:" ++ state s)%string
        | None =>
            if String.eqb (currentUrl pg) (serverUrl s)
               || String.eqb (currentUrl pg) (serverUrl s ++ "/")%string then
              parsedOrNone ("nc://login/server:" ++ encodeURIComponent (serverUrl s)
                            ++ "&user:nextcloud_user&password:main_page_token_" ++ now pg
                            ++ "&state:" ++ state s)%string
            else None
        end
    end.

(** A fallback check that one of the timers or page-load handlers
    started comes back. *)
Definition fallbackDone (pg : page) (s : session) : session :=
  match handleGrantPageCompletionFallback pg s with
  | Some credentials => close (resolve (Parsed credentials) s)
  | None => s
  end.

(** What can happen to a login window. *)
Inductive event : Type :=
| WillRedirect (url : string)
| WillNavigate (url : string)
| ExchangeDone (tokenData : value)
| FallbackDone (pg : page)
| UserClose.

Definition step (s : session) (e : event) : session :=
  match e with
  | WillRedirect url => willRedirect url s
  | WillNavigate url => willNavigate url s
  | ExchangeDone tokenData => exchangeDone tokenData s
  | FallbackDone pg => fallbackDone pg s
  | UserClose => close s
  end.

Definition run (s : session) (es : list event) : session := fold_left step es s.

End LoginWindow.

(* ===================================================================== *)
(** ** main.js: the [authentication:openLoginWebView] handler             *)
(* ===================================================================== *)

Module LoginAttempt.
Import JSString LoginService LoginWindow.

(** One call of the handler: the login window it opened, the promise it
    returned ([outcome]), whether the wait for a deep link is over, and
    whether [loginPromise.then(resolve)] is in place. *)
Record attempt : Type := {
  window : session;
  outcome : option resolution;
  deepLinkWaitOver : bool;
  following : bool
}.

Definition start (serverUrl state : string) : attempt :=
  {| window := open serverUrl state; outcome := None;
     deepLinkWaitOver := false; following := false |}.

Definition resolveOuter (r : resolution) (a : attempt) : attempt :=
  match outcome a with
  | Some _ => a
  | None =>
      {| window := window a; outcome := Some r;
         deepLinkWaitOver := deepLinkWaitOver a; following := following a |}
  end.

(** [loginPromise.then(resolve)]: the outer promise takes the window's
    result as soon as there is one. *)
Definition propagate (a : attempt) : attempt :=
  if following a then
    match settled (window a) with
    | Some r => resolveOuter r a
    | None => a
    end
  else a.

Definition follow (a : attempt) : attempt :=
  propagate {| window := window a; outcome := outcome a;
               deepLinkWaitOver := true; following := true |}.

(** The resolver pushed on [deeplinkResolvers] is called with [url]. *)
Definition deepLinkArrived (url : string) (a : attempt) : attempt :=
  if deepLinkWaitOver a then a
  else if truthy url then
    let a1 := {| window := window a; outcome := outcome a;
                 deepLinkWaitOver := true; following := following a |} in
    match parseLoginRedirectUrl url with
    | Ok credentials => resolveOuter (Parsed credentials) a1
    | Throw e => resolveOuter (Failed (DeepLinkFailed e)) a1
    end
  else follow a.

(** The 40 second timer ends the wait with [null]. *)
Definition deepLinkTimer (a : attempt) : attempt :=
  if deepLinkWaitOver a then a else follow a.

(** The 45 second timer; ending the wait for a deep link clears it. *)
Definition flowTimeout (a : attempt) : attempt :=
  if deepLinkWaitOver a then a
  else propagate {| window := window a; outcome := outcome a;
                    deepLinkWaitOver := false; following := true |}.

Inductive event : Type :=
| DeepLinkArrived (url : string)
| DeepLinkTimer
| FlowTimeout
| Window (e : LoginWindow.event).

Definition step (a : attempt) (e : event) : attempt :=
  match e with
  | DeepLinkArrived url => deepLinkArrived url a
  | DeepLinkTimer => deepLinkTimer a
  | FlowTimeout => flowTimeout a
  | Window we =>
      propagate {| window := LoginWindow.step (window a) we; outcome := outcome a;
                   deepLinkWaitOver := deepLinkWaitOver a; following := following a |}
  end.

Definition run (a : attempt) (es : list event) : attempt := fold_left step es a.

End LoginAttempt.

(* ===================================================================== *)
(** ** authentication/login.service.js: the remaining functions           *)
(* ===================================================================== *)

Module OAuthCredentials.
Import JSString LoginService JSValue.

(** Seven-bit characters. *)
Definition isAscii (c : ascii) : bool := (N_of_ascii c <? 128)%N.

(** [testLoginFlowUrl]: the fields of a [success: true] result
    ([credentials], [rebuiltUrl], [isValid], [oauthParams]), or [None] for
    [success: false]. *)
Definition testLoginFlowUrl (testUrl : string)
  : option (Credentials * string * bool * (option string * option string)) :=
  match parseLoginRedirectUrl testUrl with
  | Throw _ => None
  | Ok credentials =>
      match buildLoginRedirectUrl credentials with
      | Throw _ => None
      | Ok rebuiltUrl =>
          Some (credentials, rebuiltUrl, isValidLoginFlowUrl testUrl,
                extractOAuthParams testUrl)
      end
  end.

(** The helpers below receive arbitrary JavaScript values from their
    callers, and build plain objects. *)


(** A thrown [Error], or the object returned. *)
Inductive outcome : Type :=
| Returned (v : value)
| Thrown (message : string).


(** [createOAuthCodeCredentials(serverUrl, authCode, state, userId)]; an
    [undefined] fourth argument takes the default ['oauth_user']. *)
Definition createOAuthCodeCredentials (serverUrl authCode state userId : value)
  : outcome :=
  let userId := match userId with VUndefined => VStr "oauth_user" | _ => userId end in
  if negb (truthyV serverUrl) || negb (truthyV authCode) then
    Thrown "serverUrl and authCode are required"
  else
    Returned (VObj [("server", serverUrl); ("user", userId);
                    ("password", VStr "oauth_code_flow");
                    ("code", authCode); ("state", state)]).

(** [!!(credentials && credentials.code)] *)
Definition hasOAuthCode (credentials : value) : bool :=
  truthyV credentials && truthyV (get credentials "code").

(** [v !== 'oauth_code_flow'] *)
Definition notPlaceholder (v : value) : bool :=
  match v with
  | VStr s => negb (String.eqb s "oauth_code_flow")
  | _ => true
  end.

Definition hasOAuthToken (credentials : value) : bool :=
  truthyV credentials
  && truthyV (get credentials "password")
  && notPlaceholder (get credentials "password")
  && negb (truthyV (get credentials "code")).


End OAuthCredentials.

(* ===================================================================== *)
(** ** custom/oauth.config.js                                             *)
(* ===================================================================== *)

Module OAuthConfig.
Import JSString.

(** [s.length]: UTF-16 code units, counted on the UTF-8 bytes.  A
    continuation byte counts for nothing, the lead byte of a four-byte
    sequence for two. *)
Fixpoint jsLength (s : string) : nat :=
  match s with
  | EmptyString => O
  | String c r =>
      let n := N_of_ascii c in
      (if ((128 <=? n) && (n <? 192))%N then 0
       else if (240 <=? n)%N then 2 else 1) + jsLength r
  end.

Definition client_id : string :=
  "yqKrXUKAaN1UYMU5SoNvKeLA7F4SfVzRbTJjiOz2bQAegHzw3cijM0xhD53CgGUv".
Definition client_secret : string :=
  "IYfilZl3VL7Dn7X1uYOkQZMpWH7nMlEOkkwiWDN06QulC4nqnHAoydFUi9h0CaVW".
Definition scope : string := "openid profile email talk".

(** [BUILD_CONFIG?.oauth], whose fields are strings when present. *)
Record overrides : Type := {
  oauth_client_id : option string;
  oauth_client_secret : option string;
  oauth_scope : option string
}.

Record config : Type := {
  cfg_client_id : string;
  cfg_client_secret : string;
  cfg_scope : string;
  token_endpoint : string
}.

(** [override || builtin] *)
Definition orDefault (override : option string) (builtin : string) : string :=
  match override with
  | Some v => if truthy v then v else builtin
  | None => builtin
  end.

Definition getConfig (BUILD_CONFIG : overrides) : config :=
  {| cfg_client_id := orDefault (oauth_client_id BUILD_CONFIG) client_id;
     cfg_client_secret := orDefault (oauth_client_secret BUILD_CONFIG) client_secret;
     cfg_scope := orDefault (oauth_scope BUILD_CONFIG) scope;
     token_endpoint := "/index.php/apps/oauth2/api/v1/token" |}.

Definition validateConfig (c : config) : bool :=
  truthy (cfg_client_id c) && truthy (cfg_client_secret c)
  && (10 <? jsLength (cfg_client_id c))%nat
  && (10 <? jsLength (cfg_client_secret c))%nat.

(** [AutoOAuthManager.validateConfig] of custom/autoOAuth.js, as a
    truth value. *)
Definition managerValidateConfig (c : config) : bool :=
  truthy (cfg_client_id c) && truthy (cfg_client_secret c).

End OAuthConfig.

(* ===================================================================== *)
(** ** custom/domainAuth.js: the store, the probe and automatic login     *)
(* ===================================================================== *)

Module CredentialStore.
Import JSString WhatwgURL JSValue DomainAuth.

(** [JSON.parse(JSON.stringify(v))]: a property holding [undefined] is
    dropped, [undefined] in an array becomes [null]. *)
Fixpoint stringifyParse (v : value) : value :=
  match v with
  | VArr items =>
      VArr (map (fun x => match x with
                          | VUndefined => VNull
                          | _ => stringifyParse x
                          end) items)
  | VObj fields =>
      VObj ((fix props (fs : list (string * value)) : list (string * value) :=
               match fs with
               | [] => []
               | (k, VUndefined) :: r => props r
               | (k, x) :: r => (k, stringifyParse x) :: props r
               end) fields)
  | _ => v
  end.

(** [writeSaved]: the file takes the text of [obj], unless the write
    throws ([diskOk] false), which is logged and leaves the file alone. *)
Definition writeSaved (diskOk : bool) (obj : value) (f : credsFile) : credsFile :=
  if diskOk then Content (stringifyParse obj) else f.

(** [removeSaved]: an existing file is unlinked, unless that throws. *)
Definition removeSaved (diskOk : bool) (f : credsFile) : credsFile :=
  match f with
  | NoFile => NoFile
  | _ => if diskOk then NoFile else f
  end.

(** The two fields of the [appData] object the login handler touches. *)
Record appData : Type := {
  appServerUrl : value;
  appCredentials : value
}.

(** [handleAuthenticationLogin(newAppData, app, appData)] at time [now]:
    the updated [appData] and the file.  It returns [{success: true}]. *)
Definition handleAuthenticationLogin (diskOk : bool) (now : Z)
    (newAppData : value) (a : appData) (f : credsFile) : appData * credsFile :=
  let a1 := if truthyV (get newAppData "serverUrl")
            then {| appServerUrl := get newAppData "serverUrl";
                    appCredentials := appCredentials a |}
            else a in
  let a2 := if truthyV (get newAppData "credentials")
            then {| appServerUrl := appServerUrl a1;
                    appCredentials := get newAppData "credentials" |}
            else a1 in
  (a2, writeSaved diskOk
         (VObj [("serverUrl", appServerUrl a2);
                ("credentials", or (appCredentials a2) (VObj [("type", VStr "manual")]));
                ("timestamp", VNum now)]) f).

Definition handleAuthenticationLogout (diskOk : bool) (f : credsFile) : credsFile :=
  removeSaved diskOk f.

(** A result of [performAutoLogin]. *)
Inductive autoLogin : Type :=
| AutoSuccess (serverUrl credentials : value)
| AutoFailure (reason : string).

(** [performAutoLogin(authStrategy, enableWebRequestInterceptor)].  The
    interceptor is the caller's: [interceptor serverUrl credentials] is
    [None] when it returns and the message of what it throws otherwise. *)
Definition performAutoLogin (authStrategy : AuthStrategy)
    (interceptor : value -> value -> option string) : autoLogin :=
  match type authStrategy with
  | file =>
      if truthyV (strategyCreds authStrategy) then
        let serverUrl := get (strategyCreds authStrategy) "serverUrl" in
        let credentials := get (strategyCreds authStrategy) "credentials" in
        match interceptor serverUrl credentials with
        | None => AutoSuccess serverUrl credentials
        | Some message => AutoFailure message
        end
      else AutoFailure "no_auto_login_available"
  | _ => AutoFailure "no_auto_login_available"
  end.

Section Probe.

(** [String.prototype.trim] and [String.prototype.toUpperCase], which
    follow the Unicode tables. *)
Variable trim : string -> string.
Variable toUpperCase : string -> string.

(** What the probe asks the machine: [process.platform], the output of
    [whoami] ([None] when [execFileSync] throws) and
    [process.env.COMPUTERNAME]. *)
Record machine : Type := {
  platform : string;
  whoami : option string;
  computerNameEnv : option string
}.

(** [id.match(/^([^\\]+)\\[^\\]+$/)]: the first group of a match. *)
Definition matchAccount (id : string) : option string :=
  match indexOf "\" id with
  | None => None
  | Some i =>
      let domain := substringTo i id in
      let account := substringFrom (S i) id in
      if truthy domain && truthy account && negb (includesChar "\" account)
      then Some domain else None
  end.

Definition isOnDomain (m : machine) (expectedDomain : value) : bool :=
  if negb (String.eqb (platform m) "win32") then false
  else
    match whoami m with
    | None => false
    | Some out =>
        match matchAccount (trim out) with
        | None => false
        | Some group =>
            let domain := toUpperCase group in
            let computerName :=
              toUpperCase (match computerNameEnv m with
                           | Some n => if truthy n then n else EmptyString
                           | None => EmptyString
                           end) in
            if truthy domain && truthy computerName
               && negb (String.eqb domain computerName) then
              if negb (truthyV expectedDomain) then true
              else String.eqb domain (toUpperCase (toStringV expectedDomain))
            else false
        end
    end.

End Probe.

(** Both functions on seven-bit text, where they need no table. *)
Definition isBlank (c : ascii) : bool :=
  let n := N_of_ascii c in ((9 <=? n) && (n <=? 13) || (n =? 32))%N.

Fixpoint trimStartAscii (s : string) : string :=
  match s with
  | String c r => if isBlank c then trimStartAscii r else s
  | EmptyString => EmptyString
  end.

Fixpoint trimEndAscii (s : string) : string :=
  match s with
  | EmptyString => EmptyString
  | String c r =>
      match trimEndAscii r with
      | EmptyString => if isBlank c then EmptyString else String c EmptyString
      | r' => String c r'
      end
  end.

Definition trimAscii (s : string) : string := trimEndAscii (trimStartAscii s).

Fixpoint toUpperCaseAscii (s : string) : string :=
  match s with
  | EmptyString => EmptyString
  | String c r =>
      String (if URI.isLower c then ascii_of_N (N_of_ascii c - 32) else c)
             (toUpperCaseAscii r)
  end.

End CredentialStore.

(* ===================================================================== *)
(** ** custom/cascadeAuth.js                                              *)
(* ===================================================================== *)

Module CascadeAuth.
Import JSString JSValue DomainAuth OAuthConfig.

Inductive cascade : Type :=
| CascadeSuccess (kind : string) (serverUrl credentials : value)
| CascadeFailure (reason : string).

(** [tryOAuthAuto]: after the configuration check the method calls
    [this.domainAuth.getOAuthToken], which custom/domainAuth.js does not
    export, so the call throws a [TypeError] that the method's [catch]
    turns into a failure. *)
Definition tryOAuthAuto (BUILD_CONFIG : overrides) (creds : value) : cascade :=
  if negb (validateConfig (getConfig BUILD_CONFIG)) then
    CascadeFailure "invalid_oauth_config"
  else CascadeFailure "this.domainAuth.getOAuthToken is not a function".

Definition tryFileCredentials (creds : value) : cascade :=
  CascadeSuccess "file_credentials" (get creds "serverUrl") (get creds "credentials").

Definition performCascadeAuth (env : environment) (BUILD_CONFIG : overrides) : cascade :=
  let authStrategy := determineAuthStrategy env in
  match type authStrategy with
  | file =>
      if validateCredentials (strategyCreds authStrategy) then
        match tryOAuthAuto BUILD_CONFIG (strategyCreds authStrategy) with
        | CascadeSuccess kind serverUrl credentials =>
            CascadeSuccess kind serverUrl credentials
        | CascadeFailure _ => tryFileCredentials (strategyCreds authStrategy)
        end
      else CascadeFailure "no_auto_credentials"
  | _ => CascadeFailure "no_auto_credentials"
  end.

End CascadeAuth.

(* ===================================================================== *)
(** ** main.js: command line, listener events and the IPC registry        *)
(* ===================================================================== *)

Module MainProcess.
Import JSString JSValue DeepLink.

(** The [for (const a of argv)] loop of [findDeepLinkInArgv]. *)
Fixpoint firstDeepLink (items : list value) : option string :=
  match items with
  | [] => None
  | VStr a :: rest => if startsWith a "nc://" then Some a else firstDeepLink rest
  | _ :: rest => firstDeepLink rest
  end.

(** [findDeepLinkInArgv(argv)]; [None] is [null]. *)
Definition findDeepLinkInArgv (argv : value) : option string :=
  match argv with
  | VArr items => firstDeepLink items
  | _ => None
  end.

(** The deep-link part of the [second-instance] listener. *)
Definition secondInstance (argv : value) (s : state) : state :=
  match findDeepLinkInArgv argv with
  | Some url => if truthy url then notifyDeepLink url s else s
  | None => s
  end.

(** What happens to the listener. *)
Inductive event : Type :=
| Notify (url : string)
| Wait (w : waiter)
| Timeout (w : waiter).

Definition step (s : state) (e : event) : state :=
  match e with
  | Notify url => notifyDeepLink url s
  | Wait w => oauthWaitCode w s
  | Timeout w => waitTimeout w s
  end.

Definition run (s : state) (es : list event) : state := fold_left step es s.

(** Every call of [oauth-wait-code] makes a promise of its own: the
    waiter of a [Wait] is one the listener has not seen. *)
Fixpoint freshWaits (s : state) (es : list event) : Prop :=
  match es with
  | [] => True
  | e :: rest =>
      match e with
      | Wait w => ~ In w (deeplinkResolvers s) /\ ~ In w (map fst (resolved s))
      | _ => True
      end /\ freshWaits (step s e) rest
  end.

(** The registry behind [safeHandle] and [safeOn]: the set
    [_registeredIpc], the handlers [ipcMain.handle] holds and the
    listeners given to [ipcMain.on], oldest first.  A handler or listener
    is named by a number. *)
Record registry : Type := {
  registeredIpc : gset string;
  handlers : gmap string nat;
  listeners : list (string * nat)
}.

Definition noRegistry : registry :=
  {| registeredIpc := ∅; handlers := ∅; listeners := [] |}.

(** [ipcMain.handle(ch, fn)]: Electron throws ([None]) when the channel
    has a handler already. *)
Definition ipcMainHandle (ch : string) (fn : nat) (h : gmap string nat)
  : option (gmap string nat) :=
  match h !! ch with
  | Some _ => None
  | None => Some (<[ch := fn]> h)
  end.

(** [safeHandle(ch, fn)]; [None] when the call throws. *)
Definition safeHandle (ch : string) (fn : nat) (r : registry) : option registry :=
  if decide (ch ∈ registeredIpc r) then Some r
  else match ipcMainHandle ch fn (handlers r) with
       | Some h => Some {| registeredIpc := {[ch]} ∪ registeredIpc r;
                           handlers := h;
                           listeners := listeners r |}
       | None => None
       end.

(** [safeOn(ch, fn)]: [ipcMain.on] takes any number of listeners. *)
Definition safeOn (ch : string) (fn : nat) (r : registry) : option registry :=
  if decide (ch ∈ registeredIpc r) then Some r
  else Some {| registeredIpc := {[ch]} ∪ registeredIpc r;
               handlers := handlers r;
               listeners := listeners r ++ [(ch, fn)] |}.

(** One line of the IPC section of main.js. *)
Inductive call : Type :=
| Handle (ch : string) (fn : nat)
| On (ch : string) (fn : nat).

Definition channelOf (c : call) : string :=
  match c with Handle ch _ | On ch _ => ch end.

(** The lines run in turn; a throw ends the module. *)
Definition register (r : option registry) (c : call) : option registry :=
  match r with
  | None => None
  | Some r =>
      match c with
      | Handle ch fn => safeHandle ch fn r
      | On ch fn => safeOn ch fn r
      end
  end.

Definition registerAll (calls : list call) : option registry :=
  fold_left register calls (Some noRegistry).

(** The first of [calls] that names channel [ch]. *)
Definition firstFor (ch : string) (calls : list call) : option call :=
  List.find (fun c => String.eqb (channelOf c) ch) calls.

End MainProcess.

(* ===================================================================== *)
(** ** authentication/login.window.js: the page automation                *)
(* ===================================================================== *)

Module PageAutomation.
Import JSString DomainAuth.

(** [s.includes(needle)] *)
Fixpoint includes (needle s : string) : bool :=
  String.prefix needle s
  || match s with
     | EmptyString => false
     | String _ r => includes needle r
     end.

Definition isFinalGrantPage (url : string) : bool :=
  includes "/login/flow/grant" url
  && negb (includes "selectUserBackEnd" url)
  && negb (includes "/login?" url).

(** The flags of one [openLoginWebView] call that steer the automation. *)
Record flags : Type := {
  oauthApprovalAttempted : bool;
  loginMethodSelected : bool;
  loginFormFilled : bool;
  grantPageHandled : bool;
  formFillAttempts : nat
}.

Definition initial : flags :=
  {| oauthApprovalAttempted := false; loginMethodSelected := false;
     loginFormFilled := false; grantPageHandled := false; formFillAttempts := 0 |}.

Definition MAX_FORM_FILL_ATTEMPTS : nat := 3.

(** What a handler sets off, in the order in which the handlers decide
    it; this is not the order in which the scripts run.
    [GrantAutomation] stands for the arming of its timer, at the moment
    [grantPageHandled] is set: the scripts themselves start 2000 ms later
    (1000 ms in [grantTimeout]).  [SuccessCheck] is called at once in
    [did-finish-load] and from a timer of 3000 ms in [did-navigate].  How
    often each is set off does not depend on these delays. *)
Inductive action : Type :=
| AutoApprove          (* tryAutoApproveOAuth *)
| SelectMethod         (* handleLoginMethodSelection *)
| FillForm             (* tryAutoFillLoginForm *)
| GrantAutomation      (* the timer of the grant-page automation is armed *)
| SuccessCheck.        (* handleGrantPageCompletionFallback on a landing page *)

(** [handleLoginMethodSelection]: what is clicked for a strategy. *)
Inductive selection : Type := DirectLogin | ADFS | NoSelection.

Definition handleLoginMethodSelection (authStrategy : option strategyType) : selection :=
  match authStrategy with
  | Some file => DirectLogin
  | Some saml => ADFS
  | _ => NoSelection
  end.

(** The [did-finish-load] listener on [currentUrl].  [fillSucceeded] is
    the [success] of the form script, read only when the form is filled;
    [codeExchanged] is the latch at that moment. *)
Definition didFinishLoad (serverUrl : string) (authStrategy : option strategyType)
    (currentUrl : string) (fillSucceeded codeExchanged : bool) (f : flags)
  : flags * list action :=
  if includes "/login/flow" currentUrl && includes "clientIdentifier=" currentUrl
     && negb (oauthApprovalAttempted f) then
    ({| oauthApprovalAttempted := true; loginMethodSelected := loginMethodSelected f;
        loginFormFilled := loginFormFilled f; grantPageHandled := grantPageHandled f;
        formFillAttempts := formFillAttempts f |}, [AutoApprove])
  else if includes "/apps/user_saml/saml/selectUserBackEnd" currentUrl
          && negb (loginMethodSelected f) then
    ({| oauthApprovalAttempted := oauthApprovalAttempted f; loginMethodSelected := true;
        loginFormFilled := loginFormFilled f; grantPageHandled := grantPageHandled f;
        formFillAttempts := formFillAttempts f |}, [SelectMethod])
  else if includes "/login" currentUrl && includes "direct=1" currentUrl
          && negb (includes "selectUserBackEnd" currentUrl)
          && negb (includes "/login/flow" currentUrl)
          && match authStrategy with Some file => true | _ => false end
          && (formFillAttempts f <? MAX_FORM_FILL_ATTEMPTS)%nat then
    ({| oauthApprovalAttempted := oauthApprovalAttempted f;
        loginMethodSelected := loginMethodSelected f;
        loginFormFilled := loginFormFilled f || fillSucceeded;
        grantPageHandled := grantPageHandled f;
        formFillAttempts := S (formFillAttempts f) |}, [FillForm])
  else if isFinalGrantPage currentUrl && negb (grantPageHandled f) then
    ({| oauthApprovalAttempted := oauthApprovalAttempted f;
        loginMethodSelected := loginMethodSelected f;
        loginFormFilled := loginFormFilled f; grantPageHandled := true;
        formFillAttempts := formFillAttempts f |}, [GrantAutomation])
  else if (String.eqb currentUrl serverUrl || String.eqb currentUrl (serverUrl ++ "/"))
          && grantPageHandled f && negb codeExchanged then
    (f, [SuccessCheck])
  else (f, []).

(** [url.includes('/apps/') || ... ] of the [did-navigate] listener. *)
Definition looksLikeSuccess (serverUrl url : string) : bool :=
  includes "/apps/" url || includes "/index.php" url
  || String.eqb url serverUrl || String.eqb url (serverUrl ++ "/")
  || includes "login_success=1" url || includes "auth_complete=1" url.

(** The [did-navigate] listener: its two [if]s in turn. *)
Definition didNavigate (serverUrl url : string) (codeExchanged : bool) (f : flags)
  : flags * list action :=
  let '(f1, first) :=
    if isFinalGrantPage url && negb (grantPageHandled f) then
      ({| oauthApprovalAttempted := oauthApprovalAttempted f;
          loginMethodSelected := loginMethodSelected f;
          loginFormFilled := loginFormFilled f; grantPageHandled := true;
          formFillAttempts := formFillAttempts f |}, [GrantAutomation])
    else (f, []) in
  if grantPageHandled f1 && negb codeExchanged && looksLikeSuccess serverUrl url
  then (f1, first ++ [SuccessCheck])
  else (f1, first).

(** The 20 second [grantTimeout]. *)
Definition grantTimeout (currentUrl : string) (codeExchanged : bool) (f : flags)
  : flags * list action :=
  if isFinalGrantPage currentUrl && negb (grantPageHandled f) && negb codeExchanged then
    ({| oauthApprovalAttempted := oauthApprovalAttempted f;
        loginMethodSelected := loginMethodSelected f;
        loginFormFilled := loginFormFilled f; grantPageHandled := true;
        formFillAttempts := formFillAttempts f |}, [GrantAutomation])
  else (f, []).

(** What the window sees, with the latch as it stands then. *)
Inductive event : Type :=
| DidFinishLoad (currentUrl : string) (fillSucceeded codeExchanged : bool)
| DidNavigate (url : string) (codeExchanged : bool)
| GrantTimeout (currentUrl : string) (codeExchanged : bool).

Definition handle (serverUrl : string) (authStrategy : option strategyType)
    (f : flags) (e : event) : flags * list action :=
  match e with
  | DidFinishLoad url fillSucceeded latch =>
      didFinishLoad serverUrl authStrategy url fillSucceeded latch f
  | DidNavigate url latch => didNavigate serverUrl url latch f
  | GrantTimeout url latch => grantTimeout url latch f
  end.

(** The flags after a run of events, and everything set off on the way. *)
Fixpoint run (serverUrl : string) (authStrategy : option strategyType)
    (f : flags) (es : list event) : flags * list action :=
  match es with
  | [] => (f, [])
  | e :: rest =>
      let '(f1, acts) := handle serverUrl authStrategy f e in
      let '(f2, more) := run serverUrl authStrategy f1 rest in
      (f2, acts ++ more)
  end.

Definition isAction (a b : action) : bool :=
  match a, b with
  | AutoApprove, AutoApprove | SelectMethod, SelectMethod | FillForm, FillForm
  | GrantAutomation, GrantAutomation | SuccessCheck, SuccessCheck => true
  | _, _ => false
  end.

(** How often [a] was set off. *)
Definition times (a : action) (acts : list action) : nat :=
  List.length (List.filter (isAction a) acts).

End PageAutomation.

(* ===================================================================== *)
(** ** Sample data                                                        *)
(* ===================================================================== *)

Module Samples.
Import LoginService JSValue.

(** The record of the design document's scenario A. *)
Definition exampleCredentials : Credentials :=
  {| server := "https://cloud.example.com"; user := "alice";
     password := "secret pw"; code := None; state := None |}.

(** The callback URL of scenario A. *)
Definition scenarioA : string :=
  "nc://login/server:https%3A%2F%2Fcloud.example.com&user:alice&password:secret+pw".

(** A file the application writes itself: [handleAuthenticationLogin]
    with no server URL and no credentials at hand. *)
Definition manualRecord : value :=
  VObj [("credentials", VObj [("type", VStr "manual")]);
        ("timestamp", VNum 1700000000000)].

End Samples.

(* ===================================================================== *)
(** ** Notions used in the statements                                     *)
(* ===================================================================== *)

Module Notions.
Import JSString LoginService.

(** A character that is neither of the two delimiters of the callback
    URL's parameter list. *)
Definition plain (c : ascii) : bool :=
  negb (Ascii.eqb c ":") && negb (Ascii.eqb c "&").

(** A pair that does not write the [server] key. *)
Definition keepsServer (pair : string) : Prop :=
  forall m : gmap string string, parsePair m pair !! "server" = m !! "server".

End Notions.

(* ===================================================================== *)
(** * Properties                                                          *)
(* ===================================================================== *)

Import JSString URI WhatwgURL LoginService JSValue DomainAuth Samples Notions.

(** ** Strings *)

Lemma append_cons (c : ascii) (a b : string) :
  (String c a ++ b = String c (a ++ b))%string.
Proof. reflexivity. Qed.

Lemma append_nil (b : string) : (EmptyString ++ b = b)%string.
Proof. reflexivity. Qed.

Lemma append_assoc (a b c : string) : ((a ++ b) ++ c = a ++ (b ++ c))%string.
Proof.
  induction a as [|d a IH]; [reflexivity|].
  change (String d ((a ++ b) ++ c) = String d (a ++ (b ++ c))). rewrite IH. reflexivity.
Qed.

Lemma append_empty (a : string) : (a ++ EmptyString = a)%string.
Proof.
  induction a as [|d a IH]; [reflexivity|].
  change (String d (a ++ EmptyString) = String d a). rewrite IH. reflexivity.
Qed.

(** Push a literal prefix through [++]. *)
Ltac push_literal := repeat (rewrite append_cons || rewrite append_nil).

Lemma length_append (a b : string) :
  String.length (a ++ b) = (String.length a + String.length b)%nat.
Proof.
  induction a as [|c a IH]; [reflexivity|].
  change (S (String.length (a ++ b)) = S (String.length a + String.length b)).
  rewrite IH. reflexivity.
Qed.

Lemma allChars_append (f : ascii -> bool) (a b : string) :
  allChars f (a ++ b) = allChars f a && allChars f b.
Proof.
  induction a as [|c a IH]; [reflexivity|].
  change (f c && allChars f (a ++ b) = f c && allChars f a && allChars f b).
  rewrite IH. apply andb_assoc.
Qed.

Lemma includes_append (c : ascii) (a b : string) :
  includesChar c (a ++ b) = includesChar c a || includesChar c b.
Proof.
  induction a as [|d a IH]; [reflexivity|].
  change (includesChar c (String d (a ++ b))
          = (Ascii.eqb d c || includesChar c a) || includesChar c b).
  cbn [includesChar]. rewrite IH. apply orb_assoc.
Qed.

(** [split] on a piece without separator followed by the separator. *)
Lemma split_cons (c : ascii) (a b : string) :
  includesChar c a = false ->
  split c (a ++ String c b) = a :: split c b.
Proof.
  induction a as [|d a IH]; intros H.
  - change (EmptyString ++ String c b)%string with (String c b).
    cbn [split]. rewrite Ascii.eqb_refl. reflexivity.
  - cbn [includesChar] in H. apply orb_false_elim in H as [Hd Ha].
    change (String d a ++ String c b)%string with (String d (a ++ String c b)).
    cbn [split]. rewrite Hd, (IH Ha). reflexivity.
Qed.

Lemma split_last (c : ascii) (a : string) :
  includesChar c a = false -> split c a = [a].
Proof.
  induction a as [|d a IH]; intros H; [reflexivity|].
  cbn [includesChar] in H. apply orb_false_elim in H as [Hd Ha].
  cbn [split]. rewrite Hd, (IH Ha). reflexivity.
Qed.

Lemma split_field (k v rest : string) :
  includesChar "&" k = false -> includesChar "&" v = false ->
  split "&" (k ++ (v ++ String "&" rest)) = (k ++ v)%string :: split "&" rest.
Proof.
  intros Hk Hv. rewrite <- append_assoc. apply split_cons.
  rewrite includes_append, Hk, Hv. reflexivity.
Qed.

Lemma includes_replaceAll_same (a b : ascii) (s : string) :
  a <> b -> includesChar a (replaceAll a b s) = false.
Proof.
  intros Hab. induction s as [|c s IH]; cbn; [reflexivity|].
  rewrite IH, orb_false_r.
  destruct (Ascii.eqb_spec c a) as [->|Hc]; apply Ascii.eqb_neq; congruence.
Qed.

Lemma includes_replaceAll_other (c a b : ascii) (s : string) :
  c <> b -> includesChar c s = false -> includesChar c (replaceAll a b s) = false.
Proof.
  intros Hcb. induction s as [|d s IH]; cbn; [reflexivity|].
  intros H. apply orb_false_elim in H as [Hd Hs].
  rewrite (IH Hs), orb_false_r.
  destruct (Ascii.eqb d a); [apply Ascii.eqb_neq; congruence | exact Hd].
Qed.

Lemma includes_removeAll_same (a : ascii) (s : string) :
  includesChar a (removeAll a s) = false.
Proof.
  induction s as [|c s IH]; cbn; [reflexivity|].
  destruct (Ascii.eqb c a) eqn:E; [exact IH|].
  cbn. rewrite E, IH. reflexivity.
Qed.

Lemma includes_removeAll_other (c a : ascii) (s : string) :
  includesChar c s = false -> includesChar c (removeAll a s) = false.
Proof.
  induction s as [|d s IH]; cbn; [reflexivity|].
  intros H. apply orb_false_elim in H as [Hd Hs].
  destruct (Ascii.eqb d a); [exact (IH Hs)|].
  cbn. rewrite Hd, (IH Hs). reflexivity.
Qed.

(** ** The runtime functions on sample inputs *)

Example sha256_abc :
  Pkce.sha256Base64 "abc" = "ungWv48Bz+pBQUDeXa4iI7ADYaOWF3qctBD/YfIAFa0=".
Proof. vm_compute. reflexivity. Qed.

(** The verifier and challenge of RFC 7636, appendix B. *)
Example challenge_rfc7636 :
  Pkce.generateCodeChallenge "dBjftJeZ4CVP-mB92K27uhbUJU1p1r_wW1gFWFOEjXk"
  = "E9Melhoa2OwvFrEMTJguCHaoeK1t8URWbuGJSstw-cM".
Proof. vm_compute. reflexivity. Qed.

Example encode_server :
  encodeValue "https://cloud.example.com" = "https%3A%2F%2Fcloud.example.com"
  /\ encodeValue "secret pw" = "secret+pw".
Proof. split; reflexivity. Qed.

Example decode_samples :
  decodeURIComponent "secret%20pw" = Some "secret pw"
  /\ decodeURIComponent "100%" = None
  /\ decodeURIComponent "%C3" = None
  /\ decodeURIComponent "%E2%82%AC" = Some (String (ascii_of_N 226)
        (String (ascii_of_N 130) (String (ascii_of_N 172) EmptyString))).
Proof. repeat split; reflexivity. Qed.

Example newURL_samples :
  newURL "https://cloud.example.com" = Some {| protocol := "https:" |}
  /\ newURL "HTTP://Cloud.Example.com:8443/index.php" = Some {| protocol := "http:" |}
  /\ newURL "https%3A%2F%2Fcloud.example.com" = None
  /\ newURL "cloud.example.com" = None
  /\ newURL "http://" = None
  /\ newURL "mailto:alice@example.com" = Some {| protocol := "mailto:" |}.
Proof. repeat split; reflexivity. Qed.

(** ** The callback URL codec *)

(** The general shape of what [parseLoginRedirectUrl] refuses: a URL that
    does not start with [nc://], or does not go on with [login/], or whose
    parameters lack a non-empty [server], [user] or [password], or whose
    [server] value fails [serverUrlOk]. *)
Lemma parse_rejects (url : string) :
  startsWith url "nc://" = false
  \/ startsWith (substringFrom 5 url) "login/" = false
  \/ (exists k, In k ["server"; "user"; "password"]
                /\ param (parseParams (substringFrom 11 url)) k = None)
  \/ (exists s, param (parseParams (substringFrom 11 url)) "server" = Some s
                /\ serverUrlOk s = false) ->
  exists e, parseLoginRedirectUrl url = Throw e.
Proof.
  assert (Hsub : substringFrom 6 (substringFrom 5 url) = substringFrom 11 url).
  { do 12 (destruct url as [|? url]; try reflexivity). }
  unfold parseLoginRedirectUrl. rewrite Hsub.
  intros H.
  destruct (truthy url); cbn [negb]; [|eauto].
  destruct (startsWith url "nc://") eqn:E1; cbn [negb]; [|eauto].
  destruct (truthy (substringFrom 5 url)); cbn [negb]; [|eauto].
  destruct (startsWith (substringFrom 5 url) "login/") eqn:E2; cbn [negb]; [|eauto].
  destruct (truthy (substringFrom 11 url)); cbn [negb]; [|eauto].
  destruct (param _ "server") as [s|] eqn:Es; [|eauto].
  destruct (param _ "user") as [u|] eqn:Eu; [|eauto].
  destruct (param _ "password") as [p|] eqn:Ep; [|eauto].
  destruct (serverUrlOk s) eqn:Eok; [|eauto].
  exfalso.
  destruct H as [H|[H|[(k & Hk & Hn)|(s' & Hs & Hn)]]]; try congruence.
  cbn [In] in Hk. destruct Hk as [<-|[<-|[<-|[]]]]; congruence.
Qed.

(** C2, amended: with the server value written raw, as the parser keeps
    it, the callback of scenario A decodes to exactly
    [{server: https://cloud.example.com, user: alice, password: secret pw}]. *)
Theorem scenarioA_raw_server_decodes :
  parseLoginRedirectUrl
    "nc://login/server:https://cloud.example.com&user:alice&password:secret+pw"
  = Ok exampleCredentials.
Proof. vm_compute. reflexivity. Qed.

(** C2, as stated: decoding scenario A does not return the record
    [{server: https://cloud.example.com, user: alice, password: secret pw}];
    it throws on the server value. *)
Lemma scenarioA_is_rejected :
  parseLoginRedirectUrl scenarioA <> Ok exampleCredentials
  /\ parseLoginRedirectUrl scenarioA
     = Throw (InvalidServerUrl "https%3A%2F%2Fcloud.example.com").
Proof.
  assert (H : parseLoginRedirectUrl scenarioA
              = Throw (InvalidServerUrl "https%3A%2F%2Fcloud.example.com"))
    by (vm_compute; reflexivity).
  split; [rewrite H; discriminate | exact H].
Qed.

(** C6: a callback whose server value is [httpx://h], which is a URL but
    not an http or https one, is decoded to a [Credentials] record: the
    protocol test only looks at the first four letters. *)
Theorem httpx_server_is_accepted :
  newURL "httpx://h" = Some {| protocol := "httpx:" |}
  /\ parseLoginRedirectUrl "nc://login/server:httpx://h&user:u&password:p"
     = Ok {| server := "httpx://h"; user := "u"; password := "p";
             code := None; state := None |}.
Proof. split; vm_compute; reflexivity. Qed.

(** C1: the round trip [parseLoginRedirectUrl (buildLoginRedirectUrl c)]
    does not give [c] back for the well-formed, ASCII-only record with
    server [https://cloud.example.com], user [alice] and password
    [secret pw]: the builder percent-encodes the server value, the parser
    keeps it raw and then rejects it as a server URL. *)
Theorem roundtrip_rejected_at_example :
  buildLoginRedirectUrl exampleCredentials = Ok scenarioA
  /\ parseLoginRedirectUrl scenarioA
     = Throw (InvalidServerUrl "https%3A%2F%2Fcloud.example.com").
Proof. split; vm_compute; reflexivity. Qed.

(** ** Every URL the builder produces is rejected by the parser *)

Lemma unreserved_plain (c : ascii) : unreserved c = true -> plain c = true.
Proof. destruct c as [[] [] [] [] [] [] [] []]; vm_compute; congruence. Qed.

Lemma escapeByte_plain (c : ascii) : allChars plain (escapeByte c) = true.
Proof. destruct c as [[] [] [] [] [] [] [] []]; vm_compute; reflexivity. Qed.

Lemma encodeURIComponent_plain (s : string) :
  allChars plain (encodeURIComponent s) = true.
Proof.
  induction s as [|c s IH]; [reflexivity|]. cbn [encodeURIComponent].
  destruct (unreserved c) eqn:E.
  - cbn [allChars]. rewrite (unreserved_plain c E), IH. reflexivity.
  - rewrite allChars_append, escapeByte_plain, IH. reflexivity.
Qed.

Lemma replacePct20_plain_len (n : nat) (s : string) :
  (String.length s <= n)%nat ->
  allChars plain s = true -> allChars plain (replacePct20 s) = true.
Proof.
  revert s. induction n as [|n IH]; intros s Hn Hs.
  - destruct s; [reflexivity | cbn in Hn; lia].
  - destruct s as [|c s]; [reflexivity|].
    cbn [allChars] in Hs. apply andb_true_iff in Hs as [Hc Hs].
    assert (Hdef : allChars plain (String c (replacePct20 s)) = true).
    { cbn [allChars]. rewrite Hc. apply IH; [cbn in Hn; lia | exact Hs]. }
    destruct (Ascii.eqb_spec c "%") as [->|Hne].
    + destruct s as [|d s]; [exact Hdef|].
      destruct (Ascii.eqb_spec d "2") as [->|Hd].
      * destruct s as [|e s]; [exact Hdef|].
        destruct (Ascii.eqb_spec e "0") as [->|He].
        -- cbn [replacePct20 allChars]. cbn [allChars] in Hs.
           apply andb_true_iff in Hs as [_ Hs]. apply andb_true_iff in Hs as [_ Hs].
           apply IH; [cbn in Hn; lia | exact Hs].
        -- replace (replacePct20 (String "%" (String "2" (String e s))))
             with (String "%" (replacePct20 (String "2" (String e s)))); [exact Hdef|].
           destruct e as [[] [] [] [] [] [] [] []]; try reflexivity. congruence.
      * replace (replacePct20 (String "%" (String d s)))
          with (String "%" (replacePct20 (String d s))); [exact Hdef|].
        destruct d as [[] [] [] [] [] [] [] []]; try reflexivity. congruence.
    + replace (replacePct20 (String c s)) with (String c (replacePct20 s)); [exact Hdef|].
      destruct c as [[] [] [] [] [] [] [] []]; try reflexivity. congruence.
Qed.

Lemma encodeValue_plain (v : string) : allChars plain (encodeValue v) = true.
Proof.
  unfold encodeValue. apply (replacePct20_plain_len _ _ (le_n _)).
  apply encodeURIComponent_plain.
Qed.

Lemma plain_no_amp (s : string) :
  allChars plain s = true -> includesChar "&" s = false.
Proof.
  induction s as [|c s IH]; [reflexivity|]. cbn [allChars includesChar].
  intros H. apply andb_true_iff in H as [Hc Hs]. rewrite (IH Hs), orb_false_r.
  unfold plain in Hc. apply andb_true_iff in Hc as [_ Hc].
  apply negb_true_iff. exact Hc.
Qed.

Lemma plain_no_colon (s : string) :
  allChars plain s = true -> includesChar ":" s = false.
Proof.
  induction s as [|c s IH]; [reflexivity|]. cbn [allChars includesChar].
  intros H. apply andb_true_iff in H as [Hc Hs]. rewrite (IH Hs), orb_false_r.
  unfold plain in Hc. apply andb_true_iff in Hc as [Hc _].
  apply negb_true_iff. exact Hc.
Qed.

Lemma encodeURIComponent_truthy (v : string) :
  truthy v = true -> truthy (encodeURIComponent v) = true.
Proof.
  destruct v as [|c v]; [discriminate|]. intros _. cbn [encodeURIComponent].
  destruct (unreserved c); reflexivity.
Qed.

Lemma replacePct20_truthy (v : string) :
  truthy v = true -> truthy (replacePct20 v) = true.
Proof.
  destruct v as [|c v]; [discriminate|]. intros _.
  destruct c as [[] [] [] [] [] [] [] []]; try reflexivity.
  destruct v as [|d v]; [reflexivity|].
  destruct d as [[] [] [] [] [] [] [] []]; try reflexivity.
  destruct v as [|e v]; [reflexivity|].
  destruct e as [[] [] [] [] [] [] [] []]; reflexivity.
Qed.

Lemma encodeValue_truthy (v : string) :
  truthy v = true -> truthy (encodeValue v) = true.
Proof. intros H. apply replacePct20_truthy, encodeURIComponent_truthy, H. Qed.

(** No scheme without a colon. *)
Lemma schemeState_no_colon (s : string) :
  includesChar ":" s = false -> schemeState s = None.
Proof.
  induction s as [|c s IH]; [reflexivity|]. cbn [includesChar schemeState].
  intros H. apply orb_false_elim in H as [Hc Hs]. rewrite Hc, (IH Hs).
  destruct (_ || _); reflexivity.
Qed.

Lemma stripLeading_no_colon (s : string) :
  includesChar ":" s = false -> includesChar ":" (stripLeading s) = false.
Proof.
  induction s as [|c s IH]; [reflexivity|]. cbn [stripLeading].
  intros H. destruct (isC0OrSpace c); [|exact H].
  cbn [includesChar] in H. apply orb_false_elim in H as [_ Hs]. exact (IH Hs).
Qed.

Lemma stripTrailing_no_colon (s : string) :
  includesChar ":" s = false -> includesChar ":" (stripTrailing s) = false.
Proof.
  induction s as [|c s IH]; [reflexivity|]. cbn [stripTrailing includesChar].
  intros H. apply orb_false_elim in H as [Hc Hs]. specialize (IH Hs).
  destruct (stripTrailing s) as [|d r].
  - destruct (isC0OrSpace c); [reflexivity|]. cbn [includesChar]. rewrite Hc. reflexivity.
  - cbn [includesChar] in *. rewrite Hc, IH. reflexivity.
Qed.

Lemma removeTabNewline_no_colon (s : string) :
  includesChar ":" s = false -> includesChar ":" (removeTabNewline s) = false.
Proof.
  induction s as [|c s IH]; [reflexivity|]. cbn [removeTabNewline includesChar].
  intros H. apply orb_false_elim in H as [Hc Hs].
  destruct (isTabOrNewline c); [exact (IH Hs)|].
  cbn [includesChar]. rewrite Hc, (IH Hs). reflexivity.
Qed.

(** [new URL] throws on a string without a colon. *)
Lemma newURL_no_colon (s : string) :
  includesChar ":" s = false -> newURL s = None.
Proof.
  intros H. unfold newURL, parseScheme.
  pose proof (removeTabNewline_no_colon _
                (stripTrailing_no_colon _ (stripLeading_no_colon _ H))) as H'.
  rewrite (schemeState_no_colon _ H').
  destruct (removeTabNewline _) as [|c r]; [reflexivity|].
  destruct (isAlpha c); reflexivity.
Qed.

Lemma serverUrlOk_encoded (v : string) : serverUrlOk (encodeValue v) = false.
Proof.
  unfold serverUrlOk.
  rewrite (newURL_no_colon _ (plain_no_colon _ (encodeValue_plain v))). reflexivity.
Qed.

Lemma keepsServer_fold (pairs : list string) (m : gmap string string) :
  Forall keepsServer pairs ->
  fold_left parsePair pairs m !! "server" = m !! "server".
Proof.
  intros H. revert m. induction H as [|pair pairs Hp _ IH]; intros m; [reflexivity|].
  cbn [fold_left]. rewrite IH. apply Hp.
Qed.

Ltac keeps_server :=
  let m := fresh "m" in
  intros m; unfold parsePair; push_literal;
  cbn -[lookup insert decodeOrRaw replaceAll];
  match goal with
  | |- context [truthy ?v] =>
      destruct (truthy v); cbn -[lookup insert decodeOrRaw replaceAll];
      [apply lookup_insert_ne; discriminate | reflexivity]
  end.

Lemma keepsServer_user (v : string) : keepsServer ("user:" ++ v).
Proof. keeps_server. Qed.

Lemma keepsServer_password (v : string) : keepsServer ("password:" ++ v).
Proof. keeps_server. Qed.

Lemma keepsServer_code (v : string) : keepsServer ("code:" ++ v).
Proof. keeps_server. Qed.

Lemma keepsServer_state (v : string) : keepsServer ("state:" ++ v).
Proof. keeps_server. Qed.

Lemma parsePair_server (m : gmap string string) (v : string) :
  truthy v = true -> parsePair m ("server:" ++ v) = <["server" := v]> m.
Proof.
  intros H. unfold parsePair. push_literal.
  cbn -[lookup insert decodeOrRaw replaceAll]. rewrite H. reflexivity.
Qed.

Lemma optionalParam_shape (k : string) (v : option string) :
  optionalParam k v = EmptyString
  \/ exists x, optionalParam k v = String "&" (k ++ String ":" (encodeValue x)).
Proof.
  unfold optionalParam. destruct v as [x|]; [|left; reflexivity].
  destruct (truthy x); [right; exists x; reflexivity | left; reflexivity].
Qed.

(** The pairs after [server]: [user], [password] and the optional ones. *)
Lemma later_pairs_keep_server (c : Credentials) :
  Forall keepsServer
    (split "&" ("user:" ++ (encodeValue (user c)
                  ++ ("&password:" ++ (encodeValue (password c)
                        ++ (optionalParam "code" (code c)
                              ++ optionalParam "state" (LoginService.state c))))))).
Proof.
  pose proof (plain_no_amp _ (encodeValue_plain (user c))) as Hu.
  pose proof (plain_no_amp _ (encodeValue_plain (password c))) as Hp.
  set (Eu := encodeValue (user c)) in *. set (Ep := encodeValue (password c)) in *.
  set (tail := (optionalParam "code" (code c)
                ++ optionalParam "state" (LoginService.state c))%string).
  change ("&password:" ++ (Ep ++ tail))%string
    with (String "&" ("password:" ++ (Ep ++ tail))).
  rewrite split_field by (reflexivity || exact Hu).
  constructor; [apply keepsServer_user|].
  assert (Hpw : includesChar "&" ("password:" ++ Ep) = false)
    by (rewrite includes_append, Hp; reflexivity).
  rewrite <- (append_assoc "password:" Ep tail). subst tail.
  destruct (optionalParam_shape "code" (code c)) as [->|(x & ->)];
    destruct (optionalParam_shape "state" (LoginService.state c)) as [->|(y & ->)].
  - rewrite append_nil, append_empty, split_last by exact Hpw.
    constructor; [apply keepsServer_password | constructor].
  - rewrite append_nil, split_cons by exact Hpw.
    constructor; [apply keepsServer_password|].
    rewrite split_last.
    + constructor; [apply (keepsServer_state (encodeValue y)) | constructor].
    + change (includesChar "&" ("state:" ++ encodeValue y) = false).
      rewrite includes_append, (plain_no_amp _ (encodeValue_plain y)). reflexivity.
  - rewrite append_empty, split_cons by exact Hpw.
    constructor; [apply keepsServer_password|].
    rewrite split_last.
    + constructor; [apply (keepsServer_code (encodeValue x)) | constructor].
    + change (includesChar "&" ("code:" ++ encodeValue x) = false).
      rewrite includes_append, (plain_no_amp _ (encodeValue_plain x)). reflexivity.
  - rewrite (append_cons "&"), split_cons by exact Hpw.
    constructor; [apply keepsServer_password|].
    rewrite split_cons.
    + constructor; [apply (keepsServer_code (encodeValue x))|].
      rewrite split_last.
      * constructor; [apply (keepsServer_state (encodeValue y)) | constructor].
      * change (includesChar "&" ("state:" ++ encodeValue y) = false).
        rewrite includes_append, (plain_no_amp _ (encodeValue_plain y)). reflexivity.
    + change (includesChar "&" ("code:" ++ encodeValue x) = false).
      rewrite includes_append, (plain_no_amp _ (encodeValue_plain x)). reflexivity.
Qed.

Lemma built_params_server (c : Credentials) :
  truthy (server c) = true ->
  param (parseParams
           ("server:" ++ (encodeValue (server c)
              ++ ("&user:" ++ (encodeValue (user c)
                    ++ ("&password:" ++ (encodeValue (password c)
                          ++ (optionalParam "code" (code c)
                                ++ optionalParam "state" (LoginService.state c)))))))))
        "server"
  = Some (encodeValue (server c)).
Proof.
  intros Hs. unfold parseParams, param.
  change ("&user:" ++ ?X)%string with (String "&" ("user:" ++ X)).
  rewrite split_field
    by (reflexivity || apply plain_no_amp, encodeValue_plain).
  cbn [fold_left].
  rewrite (keepsServer_fold _ _ (later_pairs_keep_server c)).
  rewrite parsePair_server by (apply encodeValue_truthy, Hs).
  rewrite lookup_insert_eq, (encodeValue_truthy _ Hs). reflexivity.
Qed.

(** Whatever record the builder accepts, the parser rejects the URL built
    from it: the round trip fails everywhere, not only at the example. *)
Theorem build_output_is_rejected (c : Credentials) (u : string) :
  buildLoginRedirectUrl c = Ok u ->
  exists e, parseLoginRedirectUrl u = Throw e.
Proof.
  unfold buildLoginRedirectUrl.
  destruct (truthy (server c)) eqn:Ts; cbn [negb]; [|discriminate].
  destruct (truthy (user c)); cbn [negb]; [|discriminate].
  destruct (truthy (password c)); cbn [negb]; [|discriminate].
  destruct (newURL (server c)); [|discriminate].
  intros [= <-].
  unfold parseLoginRedirectUrl.
  match goal with
  | |- context [truthy ("nc://login/server:" ++ ?Y)] =>
      change (truthy ("nc://login/server:" ++ Y)) with true;
      change (startsWith ("nc://login/server:" ++ Y) "nc://") with true;
      change (substringFrom 5 ("nc://login/server:" ++ Y))
        with ("login/server:" ++ Y)%string;
      change (truthy ("login/server:" ++ Y)) with true;
      change (startsWith ("login/server:" ++ Y) "login/") with true;
      change (substringFrom 6 ("login/server:" ++ Y)) with ("server:" ++ Y)%string;
      change (truthy ("server:" ++ Y)) with true
  end.
  cbn [negb]. rewrite (built_params_server c Ts).
  destruct (param _ "user"); [|eauto].
  destruct (param _ "password"); [|eauto].
  rewrite serverUrlOk_encoded. eauto.
Qed.


(** ** The credential store and the strategy resolver *)

Lemma fixCredentialsFormat_truthy (v : value) :
  truthyV (fixCredentialsFormat v) = truthyV v.
Proof.
  unfold fixCredentialsFormat.
  destruct (negb (truthyV v) || negb (truthyV (get v "credentials"))) eqn:E;
    [reflexivity|].
  apply orb_false_elim in E as [E _]. apply negb_false_iff in E.
  destruct (_ && _); [rewrite E|]; reflexivity.
Qed.

(** C3, as stated: on a host that is not domain-joined, a saved record
    that fails shape validation still yields the saved-credentials
    strategy. *)
Lemma strategy_without_validation :
  let env := {| onDomain := false; savedFile := Content manualRecord;
                buildDomain := VUndefined |} in
  validateCredentials (readSaved (savedFile env)) = false
  /\ type (determineAuthStrategy env) = file
  /\ type (determineAuthStrategy env) <> manual.
Proof. cbv zeta. repeat split; vm_compute; congruence. Qed.

Lemma determineAuthStrategy_cases (env : environment) :
  determineAuthStrategy env =
    if onDomain env then
      {| type := saml; reason := "domain_joined"; strategyCreds := VUndefined;
         serverUrl := or (buildDomain env)
                         (get (or (readSaved (savedFile env)) VNull) "serverUrl") |}
    else
      match savedFile env with
      | Content v =>
          if truthyV v then
            {| type := file; reason := "credentials_file_found";
               strategyCreds := fixCredentialsFormat v;
               serverUrl := get (fixCredentialsFormat v) "serverUrl" |}
          else
            {| type := manual; reason := "no_auto_auth_available";
               strategyCreds := VUndefined; serverUrl := buildDomain env |}
      | NoFile | Unreadable =>
          {| type := manual; reason := "no_auto_auth_available";
             strategyCreds := VUndefined; serverUrl := buildDomain env |}
      end.
Proof.
  unfold determineAuthStrategy, detectAuthState. cbn [inDomain hasCreds creds].
  destruct (onDomain env); [reflexivity|].
  destruct (savedFile env) as [| |v]; cbn [readSaved truthyV]; try reflexivity.
  rewrite fixCredentialsFormat_truthy.
  destruct (truthyV v) eqn:Ev; [|reflexivity].
  unfold or. rewrite fixCredentialsFormat_truthy, Ev. reflexivity.
Qed.

(** C3, amended: a domain-joined host gets the domain-federated strategy
    whatever is saved; a host that is not joined gets the
    saved-credentials strategy exactly when the credentials file exists
    and parses to a truthy JSON value, which the strategy carries after
    format migration, and the manual strategy in all remaining cases.  No
    shape validation takes part. *)
Theorem strategy_resolution_order (env : environment) :
  (onDomain env = true -> type (determineAuthStrategy env) = saml)
  /\ (onDomain env = false ->
      (type (determineAuthStrategy env) = file
       <-> exists v, savedFile env = Content v /\ truthyV v = true)
      /\ (forall v, savedFile env = Content v -> truthyV v = true ->
             strategyCreds (determineAuthStrategy env) = fixCredentialsFormat v)
      /\ (type (determineAuthStrategy env) = manual
          <-> ~ exists v, savedFile env = Content v /\ truthyV v = true)).
Proof.
  rewrite determineAuthStrategy_cases. split; intros Hd; rewrite Hd; [reflexivity|].
  destruct (savedFile env) as [| |v]; cbn [type strategyCreds].
  - split; [|split].
    + split; [discriminate | intros (v & Hv & _); discriminate Hv].
    + intros v Hv. discriminate Hv.
    + split; [intros _ (v & Hv & _); discriminate Hv | reflexivity].
  - split; [|split].
    + split; [discriminate | intros (v & Hv & _); discriminate Hv].
    + intros v Hv. discriminate Hv.
    + split; [intros _ (v & Hv & _); discriminate Hv | reflexivity].
  - destruct (truthyV v) eqn:Ev; cbn [type strategyCreds]; (split; [|split]).
    + split; [eauto | reflexivity].
    + intros w [= <-] _. reflexivity.
    + split; [discriminate | intros H; exfalso; apply H; eauto].
    + split; [discriminate | intros (w & [= <-] & Hw); congruence].
    + intros w [= <-] Hw. congruence.
    + split; [intros _ (w & [= <-] & Hw); congruence | reflexivity].
Qed.

Lemma strategy_resolution_order_witness :
  type (determineAuthStrategy
          {| onDomain := true; savedFile := Content manualRecord;
             buildDomain := VStr "https://cloud.example.com" |}) = saml
  /\ type (determineAuthStrategy
             {| onDomain := false; savedFile := Content manualRecord;
                buildDomain := VStr "https://cloud.example.com" |}) = file
  /\ type (determineAuthStrategy
             {| onDomain := false; savedFile := NoFile;
                buildDomain := VStr "https://cloud.example.com" |}) = manual.
Proof.
  split; [|split].
  - exact (proj1 (strategy_resolution_order
                    {| onDomain := true; savedFile := Content manualRecord;
                       buildDomain := VStr "https://cloud.example.com" |}) eq_refl).
  - destruct (proj2 (strategy_resolution_order
                       {| onDomain := false; savedFile := Content manualRecord;
                          buildDomain := VStr "https://cloud.example.com" |}) eq_refl)
      as ([_ H] & _ & _).
    apply H. exists manualRecord. split; reflexivity.
  - destruct (proj2 (strategy_resolution_order
                       {| onDomain := false; savedFile := NoFile;
                          buildDomain := VStr "https://cloud.example.com" |}) eq_refl)
      as (_ & _ & [_ H]).
    apply H. intros (v & Hv & _). discriminate Hv.
Defined.

(** A record that validates is truthy, so with the file in place and the
    host off the domain it does select the saved-credentials strategy. *)
Lemma valid_record_selects_file (env : environment) (v : value) :
  onDomain env = false ->
  savedFile env = Content v ->
  validateCredentials (fixCredentialsFormat v) = true ->
  type (determineAuthStrategy env) = file.
Proof.
  intros Hd Hf Hv. rewrite determineAuthStrategy_cases, Hd, Hf.
  destruct (truthyV v) eqn:Ev; [reflexivity|].
  rewrite <- fixCredentialsFormat_truthy in Ev.
  unfold validateCredentials in Hv. rewrite Ev in Hv. discriminate.
Qed.

(** C9, as stated: a file in the old format whose password is empty is
    read as it is, not migrated; and the record that a login writes,
    with a [serverUrl] and a timestamp of its own besides the
    credentials of the login flow, is not read unchanged: it comes back
    with its own [serverUrl], not the old [server], and without the
    timestamp. *)
Lemma old_format_not_always_migrated :
  let halfEmpty :=
    VObj [("credentials", VObj [("server", VStr "https://cloud.example.com");
                                ("user", VStr "alice"); ("password", VStr "")])] in
  let written :=
    VObj [("serverUrl", VStr "https://talk.example.com");
          ("credentials", VObj [("server", VStr "https://cloud.example.com");
                                ("user", VStr "alice"); ("password", VStr "secret")]);
          ("timestamp", VNum 1700000000000)] in
  readSaved (Content halfEmpty) = halfEmpty
  /\ readSaved (Content written)
     = VObj [("serverUrl", VStr "https://talk.example.com");
             ("credentials", VObj [("username", VStr "alice");
                                   ("password", VStr "secret")])]
  /\ readSaved (Content written) <> written.
Proof. cbv zeta. repeat split; try (vm_compute; reflexivity). vm_compute. discriminate. Qed.

(** C9, amended: a file whose [credentials] object holds truthy
    (non-empty) [server], [user] and [password] is read as
    [{serverUrl, credentials: {username: user, password}}] and nothing
    else, where [serverUrl] is the file's own when it has a truthy one and
    the old [server] otherwise; every other key of the file is dropped.
    Any other content that parses is read unchanged: an old-format file
    with an empty field among them, and every record whose [credentials]
    lack one of the three. *)
Theorem readSaved_migrates_old_format (v : value) :
  let c := get v "credentials" in
  (truthyV (get c "server") && truthyV (get c "user") && truthyV (get c "password") = true ->
   readSaved (Content v)
   = VObj [("serverUrl", if truthyV (get v "serverUrl") then get v "serverUrl"
                         else get c "server");
           ("credentials", VObj [("username", get c "user");
                                 ("password", get c "password")])])
  /\ (truthyV (get c "server") && truthyV (get c "user") && truthyV (get c "password") = false ->
      readSaved (Content v) = v).
Proof.
  cbv zeta. cbn [readSaved]. unfold fixCredentialsFormat, or. split; intros H.
  - rewrite H.
    apply andb_true_iff in H as [H _]. apply andb_true_iff in H as [Hs _].
    assert (Hc : truthyV (get v "credentials") = true).
    { destruct (get v "credentials"); try discriminate Hs; reflexivity. }
    assert (Hv : truthyV v = true).
    { destruct v; try discriminate Hc; reflexivity. }
    rewrite Hv, Hc. reflexivity.
  - rewrite H. destruct (negb (truthyV v) || negb (truthyV (get v "credentials")));
      reflexivity.
Qed.

Lemma readSaved_migrates_old_format_witness :
  readSaved (Content (VObj [("credentials",
      VObj [("server", VStr "https://cloud.example.com");
            ("user", VStr "alice"); ("password", VStr "secret")])]))
  = VObj [("serverUrl", VStr "https://cloud.example.com");
          ("credentials", VObj [("username", VStr "alice");
                                ("password", VStr "secret")])]
  /\ readSaved (Content (VObj [("serverUrl", VStr "https://cloud.example.com");
        ("credentials", VObj [("username", VStr "alice");
                              ("password", VStr "secret")]);
        ("timestamp", VNum 1700000000000)]))
     = VObj [("serverUrl", VStr "https://cloud.example.com");
        ("credentials", VObj [("username", VStr "alice");
                              ("password", VStr "secret")]);
        ("timestamp", VNum 1700000000000)].
Proof.
  split.
  - exact (proj1 (readSaved_migrates_old_format
             (VObj [("credentials",
                VObj [("server", VStr "https://cloud.example.com");
                      ("user", VStr "alice"); ("password", VStr "secret")])])) eq_refl).
  - exact (proj2 (readSaved_migrates_old_format
             (VObj [("serverUrl", VStr "https://cloud.example.com");
                ("credentials", VObj [("username", VStr "alice");
                                      ("password", VStr "secret")]);
                ("timestamp", VNum 1700000000000)])) eq_refl).
Defined.

(** C10: migrating twice is migrating once, for every value. *)
Theorem fixCredentialsFormat_idempotent (x : value) :
  fixCredentialsFormat (fixCredentialsFormat x) = fixCredentialsFormat x.
Proof.
  unfold fixCredentialsFormat at 2 3.
  destruct (negb (truthyV x) || negb (truthyV (get x "credentials"))) eqn:E.
  - unfold fixCredentialsFormat. rewrite E. reflexivity.
  - destruct (_ && _) eqn:M.
    + reflexivity.
    + unfold fixCredentialsFormat. rewrite E, M. reflexivity.
Qed.

(** ** The deep-link listener *)

Import DeepLink.

Lemma drain_spec (url : string) (queue : list waiter) (log : list (waiter * option string)) :
  drain url queue log = log ++ map (fun w => (w, Some url)) queue.
Proof.
  revert log. induction queue as [|w queue IH]; intros log; cbn [drain map].
  - symmetry. apply app_nil_r.
  - rewrite IH, <- app_assoc. reflexivity.
Qed.

(** Calls of [oauth-wait-code] made while no link is cached queue their
    waiters in call order. *)
Lemma waiters_queue_in_order (ws : list waiter) (s : state) :
  deepLinkUrl s = None ->
  fold_left (fun st x => oauthWaitCode x st) ws s
  = {| mainWindowReady := mainWindowReady s; deepLinkUrl := None;
       deeplinkResolvers := deeplinkResolvers s ++ ws;
       resolved := resolved s; sent := sent s |}.
Proof.
  revert s. induction ws as [|w ws IH]; intros s Hs.
  - cbn [fold_left]. rewrite app_nil_r. destruct s; cbn in *; subst; reflexivity.
  - cbn [fold_left]. rewrite IH.
    + unfold oauthWaitCode. rewrite Hs.
      cbn [mainWindowReady deeplinkResolvers resolved sent].
      rewrite <- app_assoc. reflexivity.
    + unfold oauthWaitCode. rewrite Hs. reflexivity.
Qed.

Lemma last_cons (u : string) (more : list string) (d : string) :
  List.last (u :: more) d = List.last more u.
Proof.
  revert u d. induction more as [|x more IH]; intros u d; [reflexivity|].
  change (List.last (u :: x :: more) d) with (List.last (x :: more) d).
  rewrite (IH x d), (IH x u). reflexivity.
Qed.

(** Links that arrive while nobody waits resolve nobody; the last one is
    the one that stays cached. *)
Lemma links_replace_each_other (more : list string) (url : string) (s : state) :
  deeplinkResolvers s = [] -> deepLinkUrl s = Some url ->
  let s' := fold_left (fun st u => notifyDeepLink u st) more s in
  resolved s' = resolved s /\ deeplinkResolvers s' = []
  /\ deepLinkUrl s' = Some (List.last more url).
Proof.
  revert url s. induction more as [|u more IH]; intros url s Hq Hu; cbv zeta.
  - cbn. auto.
  - cbn [fold_left].
    destruct (IH u (notifyDeepLink u s) eq_refl eq_refl) as (H1 & H2 & H3).
    rewrite H1, H2, H3. unfold notifyDeepLink at 1. cbn [resolved]. rewrite Hq.
    cbn [drain]. rewrite last_cons. repeat split.
Qed.

(** C4, as stated: two callers wait; one link arrives.  It does not
    satisfy exactly one of them: both are resolved with it and none is
    left waiting, and a third caller who comes later is handed the same
    link once more.  And a link that arrives while nobody waits is not
    always kept for the next waiter: a second link replaces it, the next
    caller gets the second one and the first is lost. *)
Lemma one_link_is_not_for_one_waiter :
  let idle := {| mainWindowReady := true; deepLinkUrl := None;
                 deeplinkResolvers := []; resolved := []; sent := [] |} in
  let link := "nc://login/server:https://c&user:u&password:p" in
  let other := "nc://login/server:https://c&user:v&password:q" in
  let waiting := oauthWaitCode 2%nat (oauthWaitCode 1%nat idle) in
  deeplinkResolvers waiting = [1; 2]%nat
  /\ outcomeOf 1%nat (notifyDeepLink link waiting) = Some (Some link)
  /\ outcomeOf 2%nat (notifyDeepLink link waiting) = Some (Some link)
  /\ deeplinkResolvers (notifyDeepLink link waiting) = []
  /\ outcomeOf 3%nat (oauthWaitCode 3%nat (notifyDeepLink link waiting)) = Some (Some link)
  /\ outcomeOf 1%nat (oauthWaitCode 1%nat (notifyDeepLink other (notifyDeepLink link idle)))
     = Some (Some other)
  /\ deeplinkResolvers
       (oauthWaitCode 2%nat
          (oauthWaitCode 1%nat (notifyDeepLink other (notifyDeepLink link idle))))
     = [2%nat].
Proof. cbv zeta. repeat split; vm_compute; reflexivity. Qed.

(** C4, amended: [oauth-wait-code] calls made while no link is cached
    queue their waiters in call order.  A deep link (a non-empty URL)
    resolves every queued waiter with it, in that order, leaves none
    queued, and is cached, whether anybody waited or not.  Links that
    arrive after it, while nobody waits, resolve nobody and replace it in
    the cache.  The next [oauth-wait-code] call is handed the link that
    arrived last, at once, and empties the cache: the call after it
    waits. *)
Theorem notifyDeepLink_delivery (s : state) (ws : list waiter) (url : string)
    (more : list string) (w w' : waiter) :
  deepLinkUrl s = None ->
  truthy url = true ->
  Forall (fun u => truthy u = true) more ->
  let registered := fold_left (fun st x => oauthWaitCode x st) ws s in
  let delivered := notifyDeepLink url registered in
  let later := fold_left (fun st u => notifyDeepLink u st) more delivered in
  let served := oauthWaitCode w later in
  deeplinkResolvers registered = deeplinkResolvers s ++ ws
  /\ resolved registered = resolved s
  /\ resolved delivered
     = resolved s ++ map (fun x => (x, Some url)) (deeplinkResolvers s ++ ws)
  /\ deeplinkResolvers delivered = []
  /\ deepLinkUrl delivered = Some url
  /\ resolved later = resolved delivered
  /\ deepLinkUrl later = Some (List.last more url)
  /\ resolved served = resolved delivered ++ [(w, Some (List.last more url))]
  /\ deeplinkResolvers served = []
  /\ deepLinkUrl served = None
  /\ deeplinkResolvers (oauthWaitCode w' served) = [w']
  /\ resolved (oauthWaitCode w' served) = resolved served.
Proof.
  intros Hs Hurl Hmore. cbv zeta.
  rewrite (waiters_queue_in_order ws s Hs).
  cbn [deeplinkResolvers resolved].
  set (registered := {| mainWindowReady := mainWindowReady s; deepLinkUrl := None;
                        deeplinkResolvers := deeplinkResolvers s ++ ws;
                        resolved := resolved s; sent := sent s |}).
  destruct (links_replace_each_other more url (notifyDeepLink url registered)
              eq_refl eq_refl) as (L1 & L2 & L3).
  assert (Hlast : truthy (List.last more url) = true).
  { clear - Hurl Hmore. revert url Hurl.
    induction Hmore as [|u more Hu _ IH]; intros url Hurl; [exact Hurl|].
    rewrite last_cons. apply (IH u Hu). }
  set (later := fold_left (fun st u => notifyDeepLink u st) more
                  (notifyDeepLink url registered)) in *.
  assert (Hserved : oauthWaitCode w later
                    = {| mainWindowReady := mainWindowReady later; deepLinkUrl := None;
                         deeplinkResolvers := [];
                         resolved := resolved later ++ [(w, Some (List.last more url))];
                         sent := sent later |}).
  { unfold oauthWaitCode. rewrite L3, Hlast, L2. reflexivity. }
  rewrite Hserved.
  unfold oauthWaitCode at 1 2. cbn [deepLinkUrl deeplinkResolvers resolved app].
  rewrite L1.
  unfold notifyDeepLink, registered. cbn [deeplinkResolvers resolved deepLinkUrl].
  rewrite drain_spec.
  repeat split; assumption || reflexivity.
Qed.

Lemma notifyDeepLink_delivery_witness :
  let link := "nc://login/server:https://c&user:u&password:p" in
  let other := "nc://login/server:https://c&user:v&password:q" in
  let s := {| mainWindowReady := false; deepLinkUrl := None;
              deeplinkResolvers := [5]%nat; resolved := []; sent := [] |} in
  let registered := fold_left (fun st x => oauthWaitCode x st) [1; 2]%nat s in
  let later := notifyDeepLink other (notifyDeepLink link registered) in
  deeplinkResolvers registered = [5; 1; 2]%nat
  /\ resolved (notifyDeepLink link registered)
     = [(5, Some link); (1, Some link); (2, Some link)]%nat
  /\ resolved (oauthWaitCode 3%nat later)
     = [(5, Some link); (1, Some link); (2, Some link); (3, Some other)]%nat.
Proof.
  cbv zeta.
  pose proof (notifyDeepLink_delivery
                {| mainWindowReady := false; deepLinkUrl := None;
                   deeplinkResolvers := [5]%nat; resolved := []; sent := [] |}
                [1; 2]%nat "nc://login/server:https://c&user:u&password:p"
                ["nc://login/server:https://c&user:v&password:q"] 3%nat 4%nat
                eq_refl eq_refl
                ltac:(repeat constructor)) as H.
  cbv zeta in H. destruct H as (H1 & _ & H3 & _ & _ & _ & _ & H8 & _).
  cbn [fold_left] in *.
  split; [exact H1|]. split; [exact H3|]. rewrite H8, H3. reflexivity.
Defined.

(** ** PKCE parameters *)

Import Pkce.

Section DoubleFacts.
Local Open Scope Z_scope.

(** Rounding to 53 bits moves a number by at most half a unit of the last
    place. *)
Lemma round53_upper (n : Z) :
  0 <= n ->
  0 <= snd (Double.round53 n)
  /\ 0 <= fst (Double.round53 n)
  /\ 2 * (fst (Double.round53 n) * 2 ^ snd (Double.round53 n))
     <= 2 * n + 2 ^ snd (Double.round53 n)
  /\ (snd (Double.round53 n) = 0 \/ snd (Double.round53 n) = Z.log2 n - 52).
Proof.
  intros Hn. unfold Double.round53.
  destruct (Z.log2 n - 52 <=? 0) eqn:Es.
  - cbn [fst snd]. rewrite Z.mul_1_r. lia.
  - apply Z.leb_gt in Es. set (s := Z.log2 n - 52) in *.
    assert (Hp : 0 < 2 ^ s) by (apply Z.pow_pos_nonneg; lia).
    rewrite Z.shiftr_div_pow2, Z.land_ones, Z.shiftl_1_l by lia.
    assert (Hh : 2 * 2 ^ (s - 1) = 2 ^ s).
    { rewrite <- Z.pow_succ_r by lia. f_equal. lia. }
    pose proof (Z.div_mod n (2 ^ s) ltac:(lia)) as Hdm.
    pose proof (Z.mod_pos_bound n (2 ^ s) Hp) as Hm.
    assert (Hq : 0 <= n / 2 ^ s) by (apply Z.div_pos; lia).
    destruct ((2 ^ (s - 1) <? n mod 2 ^ s)
              || ((2 ^ (s - 1) =? n mod 2 ^ s) && Z.odd (n / 2 ^ s))) eqn:Eu;
      cbn [fst snd].
    + assert (Hge : 2 ^ (s - 1) <= n mod 2 ^ s).
      { apply orb_true_iff in Eu as [Eu|Eu].
        - apply Z.ltb_lt in Eu. lia.
        - apply andb_true_iff in Eu as [Eu _]. apply Z.eqb_eq in Eu. lia. }
      repeat split; try lia; nia.
    + repeat split; try lia; nia.
Qed.

(** The rounded product of a double below one and a length [k] stays
    below [k], although it may exceed the exact product. *)
Lemma floor_times_bound (d : Double.double) (k : Z) :
  Double.inUnit d -> 64 <= k < 2 ^ 10 ->
  0 <= Double.floor (Double.timesNat d k) < k.
Proof.
  intros (Hm & He & Hlt) Hk.
  unfold Double.timesNat, Double.floor.
  pose proof (round53_upper (Double.mantissa d * k) ltac:(apply Z.mul_nonneg_nonneg; lia)) as (Hs & Hr & Hup & Hsmax).
  destruct (Double.round53 (Double.mantissa d * k)) as [m s]. cbn [fst snd] in *.
  cbn [Double.mantissa Double.exponent].
  set (e := Double.exponent d) in *. set (m0 := Double.mantissa d) in *.
  assert (HP : 0 < 2 ^ (- e)) by (apply Z.pow_pos_nonneg; lia).
  assert (Hs11 : s <= 11).
  { destruct Hsmax as [Hz|Hz]; [lia|].
    assert (Z.log2 (m0 * k) < 63); [|lia].
    destruct (Z.eq_dec (m0 * k) 0) as [H0|H0]; [rewrite H0; reflexivity|].
    apply Z.log2_lt_pow2; [nia|].
    change (2 ^ 63) with (2 ^ 53 * 2 ^ 10). nia. }
  assert (H2s : 0 < 2 ^ s <= 2 ^ 11).
  { split; [apply Z.pow_pos_nonneg; lia | apply Z.pow_le_mono_r; lia]. }
  assert (Hval : m * 2 ^ s < k * 2 ^ (- e)).
  { destruct (Z.eq_dec s 0) as [->|Hs0].
    - rewrite Z.pow_0_r in *. nia.
    - assert (Hs1 : s = Z.log2 (m0 * k) - 52) by (destruct Hsmax; [contradiction | assumption]).
      assert (Hbig : 2 ^ (s + 52) <= m0 * k).
      { rewrite Hs1. replace (Z.log2 (m0 * k) - 52 + 52) with (Z.log2 (m0 * k)) by lia.
        apply Z.log2_spec.
        destruct (Z.le_gt_cases (m0 * k) 0) as [Hle|Hgt]; [|lia].
        rewrite (Z.log2_nonpos _ Hle) in Hs1. lia. }
      assert (Hsk : 2 ^ s < 2 * k).
      { rewrite Z.pow_add_r in Hbig by lia.
        change (2 ^ 53) with (2 * 2 ^ 52) in Hm. nia. }
      nia. }
  split.
  - apply Z.shiftl_nonneg. exact Hr.
  - destruct (Z.le_gt_cases 0 (e + s)) as [Hpos|Hneg].
    + rewrite Z.shiftl_mul_pow2 by lia.
      assert (Hsplit : 2 ^ s = 2 ^ (e + s) * 2 ^ (- e)).
      { rewrite <- Z.pow_add_r by lia. f_equal. lia. }
      rewrite Hsplit in Hval.
      assert (0 <= 2 ^ (e + s)) by (apply Z.pow_nonneg; lia).
      nia.
    + rewrite Z.shiftl_div_pow2 by lia.
      assert (Hp2 : 0 < 2 ^ (- (e + s))) by (apply Z.pow_pos_nonneg; lia).
      apply Z.div_lt_upper_bound; [exact Hp2|].
      assert (Hsplit : 2 ^ (- e) = 2 ^ (- (e + s)) * 2 ^ s).
      { rewrite <- Z.pow_add_r by lia. f_equal. lia. }
      rewrite Hsplit in Hval. nia.
Qed.

End DoubleFacts.

(** The product is the rounded one: at this draw the exact product lies
    just below 17 and its floor would be 16. *)
Example product_is_rounded :
  randomIndex {| Double.mantissa := 2320036171675710; Double.exponent := -53 |} = 17%Z
  /\ (2320036171675710 * 66 / 2 ^ 53 = 16)%Z.
Proof. split; vm_compute; reflexivity. Qed.

Lemma random_index (r : Double.double) :
  Double.inUnit r -> (0 <= randomIndex r < 66)%Z.
Proof.
  intros Hr. unfold randomIndex.
  change (Z.of_nat (String.length chars)) with 66%Z.
  apply floor_times_bound; [exact Hr | split; [lia | reflexivity]].
Qed.

Lemma charAt_chars (i : Z) :
  (0 <= i < 66)%Z ->
  exists c, charAt i chars = String c EmptyString /\ inAlphabet c = true.
Proof.
  intros Hi.
  assert (H : forall n, (n < 66)%nat ->
            exists c, charAt (Z.of_nat n) chars = String c EmptyString
                      /\ inAlphabet c = true).
  { intros n Hn.
    do 66 (destruct n as [|n]; [eexists; split; vm_compute; reflexivity|]).
    lia. }
  destruct (H (Z.to_nat i)) as (c & Hc & Ha); [lia|].
  rewrite Z2Nat.id in Hc by lia. eauto.
Qed.

Lemma generateLoop_spec (random : source) (n k : nat) (acc : string) :
  (forall i, Double.inUnit (random i)) ->
  String.length (fst (generateLoop random n k acc)) = (String.length acc + n)%nat
  /\ allChars inAlphabet (fst (generateLoop random n k acc)) = allChars inAlphabet acc
  /\ snd (generateLoop random n k acc) = (k + n)%nat.
Proof.
  intros Hr. revert k acc.
  induction n as [|n IH]; intros k acc; cbn [generateLoop fst snd].
  - repeat split; lia.
  - destruct (charAt_chars _ (random_index _ (Hr k))) as (c & Hc & Ha).
    rewrite Hc.
    destruct (IH (S k) (acc ++ String c EmptyString)%string) as (IH1 & IH2 & IH3).
    rewrite IH1, IH2, IH3, length_append, allChars_append.
    cbn [String.length allChars]. rewrite Ha.
    repeat split; try lia.
    cbn [andb]. rewrite ?andb_true_r. reflexivity.
Qed.

Lemma urlSafe_clean (b64 : string) :
  includesChar "=" (urlSafe b64) = false
  /\ includesChar "+" (urlSafe b64) = false
  /\ includesChar "/" (urlSafe b64) = false.
Proof.
  unfold urlSafe. repeat split.
  - apply includes_removeAll_same.
  - apply includes_removeAll_other, includes_replaceAll_other; [discriminate|].
    apply includes_replaceAll_same. discriminate.
  - apply includes_removeAll_other, includes_replaceAll_same. discriminate.
Qed.

(** *** The digest has 32 bytes, the challenge 43 characters *)

Lemma round_length (st : list Z) (kw : Z * Z) :
  List.length st = 8%nat -> List.length (Sha256.round st kw) = 8%nat.
Proof.
  intros H. do 8 (destruct st as [|? st]; [discriminate H|]).
  destruct st; [reflexivity | discriminate H].
Qed.

Lemma rounds_length (kws : list (Z * Z)) (st : list Z) :
  List.length st = 8%nat -> List.length (fold_left Sha256.round kws st) = 8%nat.
Proof.
  revert st. induction kws as [|kw kws IH]; intros st H; [exact H|].
  cbn [fold_left]. apply IH, round_length, H.
Qed.

Lemma compress_length (h block : list Z) :
  List.length h = 8%nat -> List.length (Sha256.compress h block) = 8%nat.
Proof.
  intros H. unfold Sha256.compress.
  rewrite List.length_map, List.length_combine, rounds_length, H by exact H.
  reflexivity.
Qed.

Lemma blocks_length (fuel : nat) (h words : list Z) :
  List.length h = 8%nat -> List.length (Sha256.blocks fuel h words) = 8%nat.
Proof.
  revert h words. induction fuel as [|fuel IH]; intros h words H; [exact H|].
  cbn [Sha256.blocks]. destruct words; [exact H|].
  apply IH, compress_length, H.
Qed.

Lemma sha256_length (msg : list Z) : List.length (Sha256.sha256 msg) = 32%nat.
Proof.
  unfold Sha256.sha256.
  assert (H : List.length (Sha256.blocks
                (List.length (Sha256.wordsBE (List.length (Sha256.pad msg)) (Sha256.pad msg)))
                Sha256.H0
                (Sha256.wordsBE (List.length (Sha256.pad msg)) (Sha256.pad msg))) = 8%nat).
  { apply blocks_length. unfold Sha256.H0. rewrite List.length_map. reflexivity. }
  revert H. generalize (Sha256.blocks
                (List.length (Sha256.wordsBE (List.length (Sha256.pad msg)) (Sha256.pad msg)))
                Sha256.H0
                (Sha256.wordsBE (List.length (Sha256.pad msg)) (Sha256.pad msg))).
  intros l H. do 8 (destruct l as [|? l]; [discriminate H|]).
  destruct l; [reflexivity | discriminate H].
Qed.

Lemma digit_char (n : Z) :
  exists c, Base64.digit n = String c EmptyString
            /\ (URI.isAlnum c || includesChar c "+/") = true.
Proof.
  unfold Base64.digit.
  assert (Hr : (0 <= Z.land n 63 < 64)%Z).
  { change 63%Z with (Z.ones 6). rewrite Z.land_ones by lia.
    apply Z.mod_pos_bound. reflexivity. }
  assert (H : forall i, (i < 64)%nat ->
            exists c, charAt (Z.of_nat i) Base64.alphabet = String c EmptyString
                      /\ (URI.isAlnum c || includesChar c "+/") = true).
  { intros i Hi.
    do 64 (destruct i as [|i]; [eexists; split; vm_compute; reflexivity|]).
    lia. }
  destruct (H (Z.to_nat (Z.land n 63))) as (c & Hc & Ha); [lia|].
  rewrite Z2Nat.id in Hc by lia. eauto.
Qed.

Lemma urlSafe_char (c : ascii) (s : string) :
  (URI.isAlnum c || includesChar c "+/") = true ->
  exists d, urlSafe (String c s) = String d (urlSafe s)
            /\ (URI.isAlnum d || includesChar d "-_") = true.
Proof.
  unfold urlSafe. cbn [replaceAll removeAll].
  destruct c as [[] [] [] [] [] [] [] []]; cbn; intros H;
    try discriminate H; eexists; split; reflexivity.
Qed.

Lemma urlSafe_digit (n : Z) (s : string) :
  exists d, urlSafe (Base64.digit n ++ s) = String d (urlSafe s)
            /\ (URI.isAlnum d || includesChar d "-_") = true.
Proof.
  destruct (digit_char n) as (c & -> & Hc).
  rewrite append_cons, append_nil. apply urlSafe_char, Hc.
Qed.

Lemma challenge_shape (bytes : list Z) :
  let ok s := String.length (urlSafe (Base64.encode s))
              = ((4 * List.length s + 2) / 3)%nat
              /\ allChars (fun c => URI.isAlnum c || includesChar c "-_")
                   (urlSafe (Base64.encode s)) = true in
  ok bytes /\ (forall a, ok (a :: bytes)) /\ (forall a b, ok (a :: b :: bytes)).
Proof.
  cbv zeta.
  assert (H1 : forall a,
            String.length (urlSafe (Base64.encode [a])) = 2%nat
            /\ allChars (fun c => URI.isAlnum c || includesChar c "-_")
                 (urlSafe (Base64.encode [a])) = true).
  { intros a. cbn [Base64.encode].
    destruct (urlSafe_digit (Z.shiftr (Z.shiftl a 16) 18)
                (Base64.digit (Z.shiftr (Z.shiftl a 16) 12) ++ "==")) as (d1 & -> & Hd1).
    destruct (urlSafe_digit (Z.shiftr (Z.shiftl a 16) 12) "==") as (d2 & -> & Hd2).
    cbn [allChars String.length]. rewrite Hd1, Hd2. split; reflexivity. }
  assert (H2 : forall a b,
            String.length (urlSafe (Base64.encode [a; b])) = 3%nat
            /\ allChars (fun c => URI.isAlnum c || includesChar c "-_")
                 (urlSafe (Base64.encode [a; b])) = true).
  { intros a b. cbn [Base64.encode].
    set (n := (Z.shiftl a 16 + Z.shiftl b 8)%Z).
    destruct (urlSafe_digit (Z.shiftr n 18)
                (Base64.digit (Z.shiftr n 12) ++ Base64.digit (Z.shiftr n 6) ++ "="))
      as (d1 & -> & Hd1).
    destruct (urlSafe_digit (Z.shiftr n 12) (Base64.digit (Z.shiftr n 6) ++ "="))
      as (d2 & -> & Hd2).
    destruct (urlSafe_digit (Z.shiftr n 6) "=") as (d3 & -> & Hd3).
    cbn [allChars String.length]. rewrite Hd1, Hd2, Hd3. split; reflexivity. }
  induction bytes as [|c bytes (I0 & I1 & I2)].
  - split; [split; reflexivity|]. split; [exact H1 | exact H2].
  - split; [exact (I1 c)|]. split; [intros a; exact (I2 a c)|].
    intros a b. destruct I0 as [L A].
    change (Base64.encode (a :: b :: c :: bytes))
      with (let n := (Z.shiftl a 16 + Z.shiftl b 8 + c)%Z in
            (Base64.digit (Z.shiftr n 18) ++ Base64.digit (Z.shiftr n 12)
             ++ Base64.digit (Z.shiftr n 6) ++ Base64.digit n
             ++ Base64.encode bytes)%string).
    cbv zeta. set (n := (Z.shiftl a 16 + Z.shiftl b 8 + c)%Z).
    destruct (urlSafe_digit (Z.shiftr n 18)
                (Base64.digit (Z.shiftr n 12) ++ Base64.digit (Z.shiftr n 6)
                 ++ Base64.digit n ++ Base64.encode bytes)) as (d1 & -> & Hd1).
    destruct (urlSafe_digit (Z.shiftr n 12)
                (Base64.digit (Z.shiftr n 6) ++ Base64.digit n ++ Base64.encode bytes))
      as (d2 & -> & Hd2).
    destruct (urlSafe_digit (Z.shiftr n 6) (Base64.digit n ++ Base64.encode bytes))
      as (d3 & -> & Hd3).
    destruct (urlSafe_digit n (Base64.encode bytes)) as (d4 & -> & Hd4).
    cbn [allChars String.length]. rewrite Hd1, Hd2, Hd3, Hd4, A, L.
    split; [|reflexivity].
    cbn [List.length].
    replace (4 * S (S (S (List.length bytes))) + 2)%nat
      with (4 * List.length bytes + 2 + 4 * 3)%nat by lia.
    rewrite Nat.div_add by discriminate. lia.
Qed.

(** C7: whatever doubles below one [Math.random()] returns, with the
    product by the length of the alphabet rounded as the runtime rounds
    it, the verifier has 128 characters, all of [[A-Za-z0-9-._~]].  The
    challenge is the base64 text of the SHA-256 digest of the verifier
    with [+] turned into [-], [/] into [_] and every [=] removed: the
    digest has 32 bytes, so the challenge has 43 characters, and none of
    them is [=], [+] or [/].  The digest is the one of FIPS 180-4: the
    challenge function gives the value of RFC 7636, Appendix B, for the
    verifier of that example, and the value of an independent
    implementation for a verifier of 128 characters. *)
Theorem pkce_generate_wellformed (random : source) (k : nat) :
  (forall i, Double.inUnit (random i)) ->
  let p := fst (generate random k) in
  String.length (codeVerifier p) = 128%nat
  /\ allChars inAlphabet (codeVerifier p) = true
  /\ codeChallenge p
     = removeAll "=" (replaceAll "/" "_" (replaceAll "+" "-"
         (Base64.encode (Sha256.sha256 (bytesOf (codeVerifier p))))))
  /\ List.length (Sha256.sha256 (bytesOf (codeVerifier p))) = 32%nat
  /\ String.length (codeChallenge p) = 43%nat
  /\ includesChar "=" (codeChallenge p) = false
  /\ includesChar "+" (codeChallenge p) = false
  /\ includesChar "/" (codeChallenge p) = false
  /\ generateCodeChallenge "dBjftJeZ4CVP-mB92K27uhbUJU1p1r_wW1gFWFOEjXk"
     = "E9Melhoa2OwvFrEMTJguCHaoeK1t8URWbuGJSstw-cM"
  /\ generateCodeChallenge
       ("ABCDEFGHIJKLMNOPQRSTUVWXYZabcdefghijklmnopqrstuvwxyz0123456789-._~"
        ++ "ABCDEFGHIJKLMNOPQRSTUVWXYZabcdefghijklmnopqrstuvwxyz0123456789")
     = "Gn88msbRKQ0wmy6Kms0RzrR4ZXFo3OGDewwvI9C7qZg".
Proof.
  intros Hr. cbv zeta. unfold generate, generateRandomString.
  destruct (generateLoop_spec random 128 k EmptyString Hr) as (Hlen & Hall & _).
  destruct (generateLoop random 128 k EmptyString) as [verifier k1].
  destruct (generateLoop random 32 k1 EmptyString) as [st k2].
  cbn [fst snd codeVerifier codeChallenge] in *.
  destruct (urlSafe_clean (sha256Base64 verifier)) as (H1 & H2 & H3).
  destruct (challenge_shape (Sha256.sha256 (bytesOf verifier))) as [[L _] _].
  rewrite sha256_length in L.
  split; [exact Hlen|]. split; [exact Hall|]. split; [reflexivity|].
  split; [apply sha256_length|]. split; [exact L|].
  split; [exact H1|]. split; [exact H2|]. split; [exact H3|].
  split; vm_compute; reflexivity.
Qed.

Lemma pkce_generate_wellformed_witness :
  let random := fun i : nat =>
    {| Double.mantissa := ((2 * Z.of_nat (i mod 66) + 1) * 2 ^ 52 / 66)%Z;
       Double.exponent := (-53)%Z |} in
  let p := fst (generate random 0) in
  String.length (codeVerifier p) = 128%nat
  /\ codeVerifier p
     = ("ABCDEFGHIJKLMNOPQRSTUVWXYZabcdefghijklmnopqrstuvwxyz0123456789-._~"
        ++ "ABCDEFGHIJKLMNOPQRSTUVWXYZabcdefghijklmnopqrstuvwxyz0123456789")%string
  /\ codeChallenge p = "Gn88msbRKQ0wmy6Kms0RzrR4ZXFo3OGDewwvI9C7qZg".
Proof.
  cbv zeta.
  assert (Hr : forall i : nat,
            Double.inUnit
              {| Double.mantissa := ((2 * Z.of_nat (i mod 66) + 1) * 2 ^ 52 / 66)%Z;
                 Double.exponent := (-53)%Z |}).
  { intros i. unfold Double.inUnit. cbn [Double.mantissa Double.exponent].
    pose proof (Nat.mod_upper_bound i 66 ltac:(discriminate)) as Hi.
    assert (Hb : (0 <= (2 * Z.of_nat (i mod 66) + 1) * 2 ^ 52 / 66 < 2 ^ 53)%Z).
    { split.
      - apply Z.div_pos; lia.
      - apply Z.div_lt_upper_bound; [lia|].
        change (2 ^ 53)%Z with (2 * 2 ^ 52)%Z. lia. }
    split; [exact Hb|]. split; [lia|]. exact (proj2 Hb). }
  pose proof (pkce_generate_wellformed
                (fun i : nat =>
                   {| Double.mantissa := ((2 * Z.of_nat (i mod 66) + 1) * 2 ^ 52 / 66)%Z;
                      Double.exponent := (-53)%Z |}) 0 Hr) as H.
  cbv zeta in H. destruct H as (H1 & _).
  split; [exact H1|]. split; vm_compute; reflexivity.
Defined.

(** ** The login window and the login attempt *)

Import LoginWindow.

Lemma resolve_settled (r r' : resolution) (s : session) :
  settled s = Some r -> resolve r' s = s.
Proof. intros H. unfold resolve. rewrite H. reflexivity. Qed.

Lemma settled_resolve (r : resolution) (s : session) :
  settled (resolve r s) = match settled s with Some r0 => Some r0 | None => Some r end.
Proof. unfold resolve. destruct (settled s) eqn:E; [exact E | reflexivity]. Qed.

Lemma close_settled (r : resolution) (s : session) :
  settled s = Some r -> settled (close s) = Some r.
Proof.
  intros H. unfold close, onClose.
  destruct (destroyed s); [exact H|].
  destruct (codeExchanged s); cbn [settled]; [exact H|].
  rewrite settled_resolve, H. reflexivity.
Qed.

Lemma close_resolve_settled (r r' : resolution) (s : session) :
  settled s = Some r -> settled (close (resolve r' s)) = Some r.
Proof. intros H. rewrite (resolve_settled r r' s H). apply close_settled, H. Qed.

(** The promise of a window keeps the first value it was resolved with,
    whatever happens next. *)
Lemma step_settled (r : resolution) (s : session) (e : event) :
  settled s = Some r -> settled (step s e) = Some r.
Proof.
  intros H. destruct e as [url|url|tokenData|pg|]; cbn [step].
  - unfold willRedirect. destruct (startsWith url "nc://login"); [|exact H].
    destruct (parseLoginRedirectUrl url); [|apply close_resolve_settled, H].
    destruct (codeForSession url s); [|apply close_resolve_settled, H].
    destruct (codeExchanged s); exact H.
  - unfold willNavigate. destruct (startsWith url "nc://login"); [|exact H].
    destruct (parseLoginRedirectUrl url); [|apply close_resolve_settled, H].
    destruct (_ && _); [exact H | apply close_resolve_settled, H].
  - unfold exchangeDone. destruct (exchanging s); [|exact H].
    destruct (truthyV tokenData); apply close_resolve_settled; exact H.
  - unfold fallbackDone. destruct (handleGrantPageCompletionFallback pg s);
      [apply close_resolve_settled, H | exact H].
  - apply close_settled, H.
Qed.

Lemma run_settled (r : resolution) (es : list event) (s : session) :
  settled s = Some r -> settled (run s es) = Some r.
Proof.
  revert s. induction es as [|e es IH]; intros s H; [exact H|].
  cbn [run fold_left]. apply IH, step_settled, H.
Qed.

Lemma destroyed_close (s : session) : destroyed (close s) = true.
Proof. unfold close. destruct (destroyed s) eqn:E; [exact E | reflexivity]. Qed.

(** Every resolution a window produces comes with the window closed. *)
Lemma step_closed (s : session) (e : event) :
  (settled s <> None -> destroyed s = true) ->
  settled (step s e) <> None -> destroyed (step s e) = true.
Proof.
  intros Inv. destruct e as [url|url|tokenData|pg|]; cbn [step].
  - unfold willRedirect. destruct (startsWith url "nc://login"); [|exact Inv].
    destruct (parseLoginRedirectUrl url); [|intros _; apply destroyed_close].
    destruct (codeForSession url s); [|intros _; apply destroyed_close].
    destruct (codeExchanged s); [exact Inv|]. cbn [startExchange settled destroyed].
    exact Inv.
  - unfold willNavigate. destruct (startsWith url "nc://login"); [|exact Inv].
    destruct (parseLoginRedirectUrl url); [|intros _; apply destroyed_close].
    destruct (_ && _); [exact Inv | intros _; apply destroyed_close].
  - unfold exchangeDone. destruct (exchanging s); [|exact Inv].
    destruct (truthyV tokenData); intros _; apply destroyed_close.
  - unfold fallbackDone. destruct (handleGrantPageCompletionFallback pg s);
      [intros _; apply destroyed_close | exact Inv].
  - intros _. apply destroyed_close.
Qed.

Lemma run_closed (es : list event) (s : session) :
  (settled s <> None -> destroyed s = true) ->
  settled (run s es) <> None -> destroyed (run s es) = true.
Proof.
  revert s. induction es as [|e es IH]; intros s Inv; [exact Inv|].
  cbn [run fold_left]. apply IH, step_closed, Inv.
Qed.

Lemma window_closed_after_resolution (serverUrl state : string) (es : list event) :
  settled (run (open serverUrl state) es) <> None ->
  destroyed (run (open serverUrl state) es) = true.
Proof. apply run_closed. intros H. exfalso. apply H. reflexivity. Qed.

Import LoginAttempt.

(** The promise handed to the renderer is resolved at most once. *)
Lemma attempt_step_outcome (r : resolution) (a : attempt) (e : LoginAttempt.event) :
  outcome a = Some r -> outcome (LoginAttempt.step a e) = Some r.
Proof.
  assert (Hres : forall r' b, outcome b = Some r -> outcome (resolveOuter r' b) = Some r).
  { intros r' b H. unfold resolveOuter. rewrite H. exact H. }
  assert (Hprop : forall b, outcome b = Some r -> outcome (propagate b) = Some r).
  { intros b H. unfold propagate. destruct (following b); [|exact H].
    destruct (settled (window b)); [apply Hres, H | exact H]. }
  intros H. destruct e as [url| | |we]; cbn [LoginAttempt.step].
  - unfold deepLinkArrived. destruct (deepLinkWaitOver a); [exact H|].
    destruct (truthy url).
    + destruct (parseLoginRedirectUrl url); apply Hres; exact H.
    + apply Hprop. exact H.
  - unfold deepLinkTimer. destruct (deepLinkWaitOver a); [exact H|].
    apply Hprop. exact H.
  - unfold flowTimeout. destruct (deepLinkWaitOver a); [exact H|].
    apply Hprop. exact H.
  - apply Hprop. exact H.
Qed.

(** A deep link that arrives while the login window is open resolves the
    attempt in [main.js] with the credentials it carries and leaves the
    login window open, its own promise still pending. *)
Lemma deep_link_leaves_window_open :
  let a := LoginAttempt.run (start "https://cloud.example.com" "st8")
      [DeepLinkArrived "nc://login/server:https://cloud.example.com&user:alice&password:pw"] in
  outcome a = Some (Parsed {| server := "https://cloud.example.com"; user := "alice";
                              password := "pw"; code := None;
                              LoginService.state := None |})
  /\ destroyed (window a) = false
  /\ settled (window a) = None.
Proof. cbv zeta. repeat split; vm_compute; reflexivity. Qed.

(** Window events before and after the handler starts to follow the
    window's promise. *)
Lemma windows_before_follow (a : LoginAttempt.attempt) (ws : list LoginWindow.event) :
  LoginAttempt.following a = false ->
  LoginAttempt.run a (map LoginAttempt.Window ws)
  = {| LoginAttempt.window := LoginWindow.run (LoginAttempt.window a) ws; LoginAttempt.outcome := LoginAttempt.outcome a;
       LoginAttempt.deepLinkWaitOver := LoginAttempt.deepLinkWaitOver a; LoginAttempt.following := false |}.
Proof.
  revert a. induction ws as [|w ws IH]; intros a Hf.
  - destruct a as [wd o d f]. cbn in Hf. subst f. reflexivity.
  - cbn [map LoginAttempt.run fold_left LoginAttempt.step].
    unfold LoginAttempt.propagate at 1. cbn [LoginAttempt.following]. rewrite Hf.
    change (fold_left LoginAttempt.step (map LoginAttempt.Window ws) ?x)
      with (LoginAttempt.run x (map LoginAttempt.Window ws)).
    rewrite IH by reflexivity. reflexivity.
Qed.

Lemma windows_while_following (a : LoginAttempt.attempt) (ws : list LoginWindow.event) :
  LoginAttempt.following a = true ->
  LoginAttempt.outcome a = LoginWindow.settled (LoginAttempt.window a) ->
  LoginAttempt.outcome (LoginAttempt.run a (map LoginAttempt.Window ws))
  = LoginWindow.settled (LoginWindow.run (LoginAttempt.window a) ws).
Proof.
  revert a. induction ws as [|w ws IH]; intros a Hf Ho; [exact Ho|].
  cbn [map LoginAttempt.run fold_left LoginAttempt.step LoginWindow.run].
  change (fold_left LoginAttempt.step (map LoginAttempt.Window ws) ?x)
    with (LoginAttempt.run x (map LoginAttempt.Window ws)).
  change (fold_left LoginWindow.step ws ?x) with (LoginWindow.run x ws).
  assert (Hp : exists o,
             LoginAttempt.propagate {| LoginAttempt.window := LoginWindow.step (LoginAttempt.window a) w; LoginAttempt.outcome := LoginAttempt.outcome a;
                          LoginAttempt.deepLinkWaitOver := LoginAttempt.deepLinkWaitOver a;
                          LoginAttempt.following := LoginAttempt.following a |}
             = {| LoginAttempt.window := LoginWindow.step (LoginAttempt.window a) w; LoginAttempt.outcome := o;
                  LoginAttempt.deepLinkWaitOver := LoginAttempt.deepLinkWaitOver a; LoginAttempt.following := true |}
             /\ o = LoginWindow.settled (LoginWindow.step (LoginAttempt.window a) w)).
  { unfold LoginAttempt.propagate. cbn [LoginAttempt.following LoginAttempt.window]. rewrite Hf.
    destruct (LoginWindow.settled (LoginWindow.step (LoginAttempt.window a) w)) as [r|] eqn:E.
    - unfold LoginAttempt.resolveOuter. cbn [LoginAttempt.outcome LoginAttempt.window LoginAttempt.deepLinkWaitOver LoginAttempt.following].
      destruct (LoginAttempt.outcome a) as [r0|] eqn:Eo.
      + exists (Some r0). split; [reflexivity|].
        symmetry in Ho. rewrite (step_settled r0 _ w Ho) in E. exact E.
      + exists (Some r). split; reflexivity.
    - exists (LoginAttempt.outcome a). split; [reflexivity|].
      destruct (LoginAttempt.outcome a) as [r0|] eqn:Eo; [|reflexivity].
      symmetry in Ho. rewrite (step_settled r0 _ w Ho) in E. discriminate. }
  destruct Hp as (o & -> & ->).
  rewrite IH; reflexivity.
Qed.

(** C8, as stated: the user closes the login window while nothing has
    been delivered, and the attempt still ends with credentials.  In the
    first run the close does cancel the window's promise, but the handler
    is waiting for a deep link and takes the credentials of the link that
    arrives next.  In the second run the close falls into a token exchange
    in flight, delivers nothing, and the attempt ends with the
    credentials of the token. *)
Lemma close_can_end_with_credentials :
  let opened := start "https://cloud.example.com" "st8" in
  let link := "nc://login/server:https://cloud.example.com&user:alice&password:pw" in
  let callback :=
    "nc://login/server:https://cloud.example.com&user:alice&password:x&code:abc&state:st8" in
  let tokenData := VObj [("access_token", VStr "tok123"); ("user_id", VStr "alice")] in
  let closed := LoginAttempt.step opened (Window UserClose) in
  let exchanging := LoginAttempt.step opened (Window (WillRedirect callback)) in
  settled (window closed) = Some (Failed Cancelled)
  /\ outcome closed = None
  /\ outcome (LoginAttempt.step closed (DeepLinkArrived link))
     = Some (Parsed {| server := "https://cloud.example.com"; user := "alice";
                       password := "pw"; code := None; LoginService.state := None |})
  /\ outcome exchanging = None
  /\ settled (window exchanging) = None
  /\ outcome (LoginAttempt.run exchanging
                [Window UserClose; Window (ExchangeDone tokenData); DeepLinkTimer])
     = Some (FromToken "https://cloud.example.com" (VStr "alice") (VStr "tok123") tokenData).
Proof. cbv zeta. repeat split; vm_compute; reflexivity. Qed.

(** C8, amended: the user closes the login window while its promise and
    the attempt are pending.  If no authorization code has been taken up
    for exchange, the window's promise resolves with the cancellation
    error.  The attempt, which is the handler's result, takes that error
    when the handler follows the window: at once if it does so already,
    otherwise when the timer of the deep-link wait fires, whatever
    happens in the window in between; a deep link that arrives before the
    timer decides the attempt in its place, with its credentials or with
    its parsing error.  If the exchange is in flight, the close delivers
    nothing. *)
Theorem close_before_resolution (a : attempt) (es : list LoginWindow.event) :
  outcome a = None ->
  settled (window a) = None ->
  destroyed (window a) = false ->
  let closed := LoginAttempt.step a (Window UserClose) in
  (codeExchanged (window a) = false ->
     settled (window closed) = Some (Failed Cancelled)
     /\ (following a = true -> outcome closed = Some (Failed Cancelled))
     /\ (following a = false -> deepLinkWaitOver a = false ->
         let waiting := LoginAttempt.run closed (map Window es) in
         outcome waiting = None
         /\ outcome (LoginAttempt.step waiting DeepLinkTimer) = Some (Failed Cancelled)
         /\ (forall url c,
               parseLoginRedirectUrl url = Ok c ->
               outcome (LoginAttempt.step waiting (DeepLinkArrived url))
               = Some (Parsed c))
         /\ (forall url e,
               truthy url = true -> parseLoginRedirectUrl url = Throw e ->
               outcome (LoginAttempt.step waiting (DeepLinkArrived url))
               = Some (Failed (DeepLinkFailed e)))))
  /\ (codeExchanged (window a) = true ->
      settled (window closed) = None /\ outcome closed = None).
Proof.
  intros Ho Hs Hd. cbv zeta.
  cbn [LoginAttempt.step LoginWindow.step].
  split; intros Hc.
  - assert (Hclose : settled (close (window a)) = Some (Failed Cancelled)).
    { unfold close, onClose. rewrite Hd, Hc. cbn [settled].
      rewrite settled_resolve, Hs. reflexivity. }
    split; [|split].
    + unfold propagate. cbn [following window].
      destruct (following a); [|exact Hclose].
      rewrite Hclose. unfold resolveOuter. cbn [outcome window]. rewrite Ho.
      exact Hclose.
    + intros Hf. unfold propagate. cbn [following window]. rewrite Hf, Hclose.
      unfold resolveOuter. cbn [outcome]. rewrite Ho. reflexivity.
    + intros Hf Hw. cbv zeta.
      unfold propagate at 1 2 3 4. cbn [following]. rewrite Hf.
      rewrite windows_before_follow by reflexivity.
      cbn [window outcome deepLinkWaitOver]. rewrite Ho, Hw.
      assert (Hrun : settled (LoginWindow.run (close (window a)) es)
                     = Some (Failed Cancelled))
        by (apply run_settled, Hclose).
      split; [reflexivity|]. split; [|split].
      * cbn [LoginAttempt.step]. unfold deepLinkTimer, follow, propagate.
        cbn [deepLinkWaitOver following window outcome]. rewrite Hrun.
        reflexivity.
      * intros url c Hp. cbn [LoginAttempt.step]. unfold deepLinkArrived.
        cbn [deepLinkWaitOver].
        assert (Ht : truthy url = true).
        { destruct url; [vm_compute in Hp; discriminate Hp | reflexivity]. }
        rewrite Ht, Hp. reflexivity.
      * intros url e Ht Hp. cbn [LoginAttempt.step]. unfold deepLinkArrived.
        cbn [deepLinkWaitOver]. rewrite Ht, Hp. reflexivity.
  - assert (Hclose : settled (close (window a)) = None).
    { unfold close, onClose. rewrite Hd, Hc. exact Hs. }
    unfold propagate. cbn [following window].
    destruct (following a); rewrite ?Hclose; cbn [window outcome]; auto.
Qed.

Lemma close_before_resolution_witness :
  outcome (LoginAttempt.run (start "https://cloud.example.com" "st8")
             [Window UserClose;
              Window (WillRedirect
                        "nc://login/server:https://cloud.example.com&user:alice&password:x");
              DeepLinkTimer])
  = Some (Failed Cancelled).
Proof.
  exact (proj1 (proj2 (proj2 (proj2
           (proj1 (close_before_resolution
                     (start "https://cloud.example.com" "st8")
                     [WillRedirect
                        "nc://login/server:https://cloud.example.com&user:alice&password:x"]
                     eq_refl eq_refl eq_refl) eq_refl)) eq_refl eq_refl))).
Defined.

(** C5: the callback redirect fires first, carries the authorization code
    with the session's state and takes the latch; the same callback seen
    by the [will-navigate] handler afterwards is not a no-op: it resolves
    the attempt with the raw callback credentials, and the token that the
    first signal's exchange brings back is dropped.  The [will-redirect]
    handler, given the same callback again, does nothing. *)
Theorem later_navigation_wins_over_exchange :
  let callback :=
    "nc://login/server:https://cloud.example.com&user:alice&password:x&code:abc&state:st8" in
  let tokenData := VObj [("access_token", VStr "tok123"); ("user_id", VStr "alice")] in
  let raw := Parsed {| server := "https://cloud.example.com"; user := "alice";
                       password := "x"; code := Some "abc";
                       LoginService.state := Some "st8" |} in
  let s1 := LoginWindow.step (open "https://cloud.example.com" "st8")
              (WillRedirect callback) in
  codeExchanged s1 = true /\ exchanging s1 = true /\ settled s1 = None
  /\ LoginWindow.step s1 (WillRedirect callback) = s1
  /\ settled (LoginWindow.step s1 (WillNavigate callback)) = Some raw
  /\ settled (LoginWindow.run s1 [WillNavigate callback; ExchangeDone tokenData])
     = Some raw
  /\ settled (LoginWindow.run s1 [ExchangeDone tokenData])
     = Some (FromToken "https://cloud.example.com" (VStr "alice") (VStr "tok123")
               tokenData).
Proof. cbv zeta. repeat split; vm_compute; reflexivity. Qed.

(* ===================================================================== *)
(** * Further properties of the code                                      *)
(* ===================================================================== *)

(** ** The field codec of the callback URL *)

Import OAuthCredentials.

(** What one character of the input contributes to the encoded value. *)
Lemma encodeURIComponent_cons (c : ascii) (r : string) :
  encodeURIComponent (String c r)
  = (if unreserved c then String c (encodeURIComponent r)
     else String "%" (String (hexDigit (N_of_ascii c / 16))
            (String (hexDigit (N_of_ascii c mod 16)) (encodeURIComponent r)))).
Proof. cbn [encodeURIComponent]. destruct (unreserved c); reflexivity. Qed.

(** The escapes of [+]-for-space decoding, one input character at a time. *)
Lemma tokens_form_char (c : ascii) (E : string) :
  isAscii c = true ->
  exists t,
    tokens (replaceAll "+" " " (replacePct20
      (if unreserved c then String c E
       else String "%" (String (hexDigit (N_of_ascii c / 16))
              (String (hexDigit (N_of_ascii c mod 16)) E)))))
    = match tokens (replaceAll "+" " " (replacePct20 E)) with
      | Some ts => Some (t :: ts)
      | None => None
      end
    /\ forall ts, decodeTokens 0 128 191 (t :: ts)
                  = match decodeTokens 0 128 191 ts with
                    | Some s => Some (String c s)
                    | None => None
                    end.
Proof.
  destruct c as [b0 b1 b2 b3 b4 b5 b6 b7].
  destruct b7; [destruct b0, b1, b2, b3, b4, b5, b6; discriminate|]. intros _.
  destruct b0, b1, b2, b3, b4, b5, b6;
    (eexists; split; [reflexivity | intros ts; reflexivity]).
Qed.

Lemma decode_form_encoded (v : string) :
  allChars isAscii v = true ->
  decodeURIComponent (replaceAll "+" " " (encodeValue v)) = Some v.
Proof.
  unfold decodeURIComponent, encodeValue.
  induction v as [|c v IH]; [reflexivity|].
  cbn [allChars]. intros H. apply andb_true_iff in H as [Hc Hv].
  specialize (IH Hv). rewrite encodeURIComponent_cons.
  destruct (tokens_form_char c (encodeURIComponent v) Hc) as (t & Ht & Hd).
  rewrite Ht.
  destruct (tokens (replaceAll "+" " " (replacePct20 (encodeURIComponent v))))
    as [ts|]; [|discriminate].
  rewrite Hd, IH. reflexivity.
Qed.

Lemma user_password_roundtrip_helper (v : string) :
  allChars isAscii v = true ->
  decodeOrRaw (replaceAll "+" " " (encodeValue v)) = v.
Proof. intros H. unfold decodeOrRaw. rewrite (decode_form_encoded v H). reflexivity. Qed.

(** X1: a [user] or [password] value made of seven-bit characters comes
    back unchanged from the parser's decoding of the builder's encoding:
    spaces travel as [+], a literal [+] as [%2B]. *)
Theorem user_password_value_roundtrip (v : string) :
  allChars isAscii v = true ->
  decodeOrRaw (replaceAll "+" " " (encodeValue v)) = v.
Proof. intros H. unfold decodeOrRaw. rewrite (decode_form_encoded v H). reflexivity. Qed.

Lemma user_password_value_roundtrip_witness :
  decodeOrRaw (replaceAll "+" " " (encodeValue "p+w d%20&:")) = "p+w d%20&:".
Proof. exact (user_password_value_roundtrip "p+w d%20&:" eq_refl). Defined.

(** The escapes of plain decoding, one input character at a time. *)
Lemma tokens_plain_char (c : ascii) (E : string) :
  isAscii c = true ->
  exists t,
    tokens (replacePct20
      (if unreserved c then String c E
       else String "%" (String (hexDigit (N_of_ascii c / 16))
              (String (hexDigit (N_of_ascii c mod 16)) E))))
    = match tokens (replacePct20 E) with
      | Some ts => Some (t :: ts)
      | None => None
      end
    /\ forall ts, decodeTokens 0 128 191 (t :: ts)
                  = match decodeTokens 0 128 191 ts with
                    | Some s => Some (String (if Ascii.eqb c " " then "+"%char else c) s)
                    | None => None
                    end.
Proof.
  destruct c as [b0 b1 b2 b3 b4 b5 b6 b7].
  destruct b7; [destruct b0, b1, b2, b3, b4, b5, b6; discriminate|]. intros _.
  destruct b0, b1, b2, b3, b4, b5, b6;
    (eexists; split; [reflexivity | intros ts; reflexivity]).
Qed.

(** X2: the [code] and [state] values do not make the same round trip:
    the builder writes a space as [+], and the parser, which leaves [+]
    alone for these two keys, gives the value back with every space
    turned into [+]. *)
Theorem code_state_value_spaces (v : string) :
  allChars isAscii v = true ->
  decodeOrRaw (encodeValue v) = replaceAll " " "+" v.
Proof.
  intros H. unfold decodeOrRaw.
  assert (Hd : decodeURIComponent (encodeValue v) = Some (replaceAll " " "+" v)).
  { unfold decodeURIComponent, encodeValue.
    induction v as [|c v IH]; [reflexivity|].
    cbn [allChars] in H. apply andb_true_iff in H as [Hc Hv].
    specialize (IH Hv). rewrite encodeURIComponent_cons.
    destruct (tokens_plain_char c (encodeURIComponent v) Hc) as (t & Ht & Hdec).
    rewrite Ht.
    destruct (tokens (replacePct20 (encodeURIComponent v))) as [ts|]; [|discriminate].
    rewrite Hdec, IH. reflexivity. }
  rewrite Hd. reflexivity.
Qed.

Lemma code_state_value_spaces_witness :
  decodeOrRaw (encodeValue "a b+c") = "a+b+c".
Proof. exact (code_state_value_spaces "a b+c" eq_refl). Defined.

(** ** The callback URL parser and builder together *)

Lemma startsWith_split (p s : string) :
  startsWith s p = true -> s = (p ++ substringFrom (String.length p) s)%string.
Proof.
  unfold startsWith. revert s. induction p as [|a p IH]; intros s H; [reflexivity|].
  destruct s as [|b s]; [cbn in H; discriminate|]. cbn in H.
  destruct (ascii_dec a b) as [->|]; [|discriminate].
  cbn [String.length substringFrom]. rewrite append_cons. f_equal. apply IH, H.
Qed.

Lemma startsWith_append (p q s : string) :
  startsWith s p = true -> startsWith (substringFrom (String.length p) s) q = true ->
  startsWith s (p ++ q) = true.
Proof.
  unfold startsWith. revert s. induction p as [|a p IH]; intros s H1 H2; [exact H2|].
  destruct s as [|b s]; [cbn in H1; discriminate|]. cbn in H1.
  rewrite append_cons. cbn.
  destruct (ascii_dec a b) as [->|]; [|discriminate].
  apply IH; assumption.
Qed.

Lemma substringFrom_add (n m : nat) (s : string) :
  substringFrom n (substringFrom m s) = substringFrom (m + n) s.
Proof.
  revert s. induction m as [|m IH]; intros s; [reflexivity|].
  destruct s as [|c s]; [destruct n; reflexivity|]. cbn [substringFrom Nat.add]. apply IH.
Qed.

Lemma param_truthy (m : gmap string string) (k v : string) :
  param m k = Some v -> truthy v = true.
Proof.
  unfold param. destruct (m !! k) as [x|]; [|discriminate].
  destruct (truthy x) eqn:E; [|discriminate]. intros [= <-]. exact E.
Qed.

(** What a successful parse tells about the URL. *)
Lemma parse_ok_inv (url : string) (c : Credentials) :
  parseLoginRedirectUrl url = Ok c ->
  startsWith url "nc://login/" = true
  /\ param (parseParams (substringFrom 11 url)) "server" = Some (server c)
  /\ param (parseParams (substringFrom 11 url)) "user" = Some (user c)
  /\ param (parseParams (substringFrom 11 url)) "password" = Some (password c)
  /\ code c = param (parseParams (substringFrom 11 url)) "code"
  /\ LoginService.state c = param (parseParams (substringFrom 11 url)) "state"
  /\ serverUrlOk (server c) = true.
Proof.
  unfold parseLoginRedirectUrl.
  rewrite (substringFrom_add 6 5 url). cbn [Nat.add].
  destruct (truthy url); cbn [negb]; [|discriminate].
  destruct (startsWith url "nc://") eqn:E1; cbn [negb]; [|discriminate].
  destruct (truthy (substringFrom 5 url)); cbn [negb]; [|discriminate].
  destruct (startsWith (substringFrom 5 url) "login/") eqn:E2; cbn [negb]; [|discriminate].
  destruct (truthy (substringFrom 11 url)); cbn [negb]; [|discriminate].
  destruct (param _ "server") as [s|] eqn:Es; [|discriminate].
  destruct (param _ "user") as [u|] eqn:Eu; [|discriminate].
  destruct (param _ "password") as [p|] eqn:Ep; [|discriminate].
  destruct (serverUrlOk s) eqn:Eok; [|discriminate].
  intros [= <-]. cbn [server user password code LoginService.state].
  repeat split; try assumption.
  exact (startsWith_append "nc://" "login/" url E1 E2).
Qed.

Lemma parsed_record_buildable (url : string) (c : Credentials) :
  parseLoginRedirectUrl url = Ok c -> exists rebuilt, buildLoginRedirectUrl c = Ok rebuilt.
Proof.
  intros H. destruct (parse_ok_inv url c H) as (_ & Hs & Hu & Hw & _ & _ & Hok).
  unfold buildLoginRedirectUrl.
  rewrite (param_truthy _ _ _ Hs), (param_truthy _ _ _ Hu), (param_truthy _ _ _ Hw).
  cbn [negb]. unfold serverUrlOk in Hok.
  destruct (newURL (server c)); [eauto | discriminate].
Qed.

Lemma built_url_invalid (c : Credentials) (u : string) :
  buildLoginRedirectUrl c = Ok u -> isValidLoginFlowUrl u = false.
Proof.
  intros H. destruct (build_output_is_rejected c u H) as [e He].
  unfold isValidLoginFlowUrl. rewrite He. reflexivity.
Qed.

(** X3: a record that the parser returns is well formed: the URL began
    with [nc://login/], the three required fields are non-empty, the
    server passed the URL check, an optional field that is present is
    non-empty, and the builder accepts the record. *)
Theorem parsed_record_wellformed (url : string) (c : Credentials) :
  parseLoginRedirectUrl url = Ok c ->
  startsWith url "nc://login/" = true
  /\ truthy (server c) = true /\ truthy (user c) = true /\ truthy (password c) = true
  /\ serverUrlOk (server c) = true
  /\ code c <> Some EmptyString /\ LoginService.state c <> Some EmptyString
  /\ exists rebuilt, buildLoginRedirectUrl c = Ok rebuilt.
Proof.
  intros H. destruct (parse_ok_inv url c H) as (Hp & Hs & Hu & Hw & Hc & Hst & Hok).
  pose proof (param_truthy _ _ _ Hs) as Ts.
  pose proof (param_truthy _ _ _ Hu) as Tu.
  pose proof (param_truthy _ _ _ Hw) as Tw.
  repeat split; try assumption.
  - rewrite Hc. intros E. apply param_truthy in E. discriminate.
  - rewrite Hst. intros E. apply param_truthy in E. discriminate.
  - exact (parsed_record_buildable url c H).
Qed.

Lemma parsed_record_wellformed_witness :
  startsWith "nc://login/server:https://cloud.example.com&user:alice&password:secret+pw"
    "nc://login/" = true
  /\ exists rebuilt, buildLoginRedirectUrl exampleCredentials = Ok rebuilt.
Proof.
  destruct (parsed_record_wellformed
              "nc://login/server:https://cloud.example.com&user:alice&password:secret+pw"
              exampleCredentials)
    as (H1 & _ & _ & _ & _ & _ & _ & H8); [vm_compute; reflexivity|].
  split; assumption.
Defined.

(** X4: no URL that the builder returns is a valid login-flow URL for the
    module's own validator, and [extractOAuthParams] finds neither code
    nor state in it, whatever the record held. *)
Theorem built_url_is_invalid (c : Credentials) (u : string) :
  buildLoginRedirectUrl c = Ok u ->
  isValidLoginFlowUrl u = false /\ extractOAuthParams u = (None, None).
Proof.
  intros H. destruct (build_output_is_rejected c u H) as [e He].
  unfold isValidLoginFlowUrl, extractOAuthParams. rewrite He. split; reflexivity.
Qed.

Lemma built_url_is_invalid_witness :
  isValidLoginFlowUrl scenarioA = false /\ extractOAuthParams scenarioA = (None, None).
Proof.
  apply (built_url_is_invalid exampleCredentials scenarioA). vm_compute. reflexivity.
Defined.

(** X5: the self-test [testLoginFlowUrl] reports success exactly for the
    URLs the parser accepts, with [isValid] true, and the URL it rebuilds
    is then never valid itself. *)
Theorem self_test_outcome (testUrl : string) :
  (isValidLoginFlowUrl testUrl = false -> testLoginFlowUrl testUrl = None)
  /\ (isValidLoginFlowUrl testUrl = true ->
      exists credentials rebuiltUrl oauthParams,
        testLoginFlowUrl testUrl = Some (credentials, rebuiltUrl, true, oauthParams)
        /\ parseLoginRedirectUrl testUrl = Ok credentials
        /\ isValidLoginFlowUrl rebuiltUrl = false).
Proof.
  assert (Hv : isValidLoginFlowUrl testUrl
               = match parseLoginRedirectUrl testUrl with Ok _ => true | Throw _ => false end)
    by reflexivity.
  unfold testLoginFlowUrl. rewrite Hv.
  destruct (parseLoginRedirectUrl testUrl) as [c|e] eqn:Hp; split; try discriminate.
  - intros _.
    destruct (parsed_record_buildable testUrl c Hp) as (u & Hu).
    rewrite Hu. exists c, u, (extractOAuthParams testUrl).
    split; [reflexivity|]. split; [reflexivity|].
    exact (built_url_invalid c u Hu).
  - reflexivity.
Qed.

Lemma self_test_outcome_witness :
  testLoginFlowUrl "nc://login" = None
  /\ exists credentials rebuiltUrl oauthParams,
       testLoginFlowUrl
         "nc://login/server:https://cloud.example.com&user:alice&password:secret+pw"
       = Some (credentials, rebuiltUrl, true, oauthParams)
       /\ parseLoginRedirectUrl
            "nc://login/server:https://cloud.example.com&user:alice&password:secret+pw"
          = Ok credentials
       /\ isValidLoginFlowUrl rebuiltUrl = false.
Proof.
  split.
  - apply (proj1 (self_test_outcome "nc://login")). vm_compute. reflexivity.
  - apply (proj2 (self_test_outcome
       "nc://login/server:https://cloud.example.com&user:alice&password:secret+pw")).
    vm_compute. reflexivity.
Defined.

Lemma split_nonempty (c : ascii) (a : string) : split c a <> [].
Proof.
  destruct a as [|d a]; [discriminate|]. cbn [split].
  destruct (Ascii.eqb d c); [discriminate|].
  destruct (split c a); discriminate.
Qed.

Lemma split_app (c : ascii) (a b : string) :
  split c (a ++ String c b) = split c a ++ split c b.
Proof.
  induction a as [|d a IH].
  - rewrite append_nil. cbn [split]. rewrite Ascii.eqb_refl. reflexivity.
  - rewrite append_cons. cbn [split]. rewrite IH.
    destruct (Ascii.eqb d c); [reflexivity|].
    pose proof (split_nonempty c a) as Hne.
    destruct (split c a) as [|h t]; [contradiction | reflexivity].
Qed.

Lemma parsePair_user (m : gmap string string) (v : string) :
  truthy v = true ->
  parsePair m ("user:" ++ v) = <["user" := decodeOrRaw (replaceAll "+" " " v)]> m.
Proof.
  intros H. unfold parsePair. push_literal.
  cbn -[lookup insert decodeOrRaw replaceAll]. rewrite H. reflexivity.
Qed.

Lemma parsePair_password (m : gmap string string) (v : string) :
  truthy v = true ->
  parsePair m ("password:" ++ v) = <["password" := decodeOrRaw (replaceAll "+" " " v)]> m.
Proof.
  intros H. unfold parsePair. push_literal.
  cbn -[lookup insert decodeOrRaw replaceAll]. rewrite H. reflexivity.
Qed.

(** X6: the callback in the documented format, with the server written
    raw and the user and password encoded, decodes to exactly the record
    it was written from, for seven-bit user and password values and a
    server without [&] that passes the URL check. *)
Theorem official_callback_decodes (s u p : string) :
  truthy s = true -> includesChar "&" s = false -> serverUrlOk s = true ->
  truthy u = true -> allChars isAscii u = true ->
  truthy p = true -> allChars isAscii p = true ->
  parseLoginRedirectUrl
    ("nc://login/server:" ++ (s ++ ("&user:" ++ (encodeValue u
        ++ ("&password:" ++ encodeValue p)))))
  = Ok {| server := s; user := u; password := p; code := None;
          LoginService.state := None |}.
Proof.
  intros Ts Hs Hok Tu Hu Tp Hp.
  unfold parseLoginRedirectUrl.
  match goal with
  | |- context [truthy ("nc://login/server:" ++ ?Y)] =>
      change (truthy ("nc://login/server:" ++ Y)) with true;
      change (startsWith ("nc://login/server:" ++ Y) "nc://") with true;
      change (substringFrom 5 ("nc://login/server:" ++ Y))
        with ("login/server:" ++ Y)%string;
      change (truthy ("login/server:" ++ Y)) with true;
      change (startsWith ("login/server:" ++ Y) "login/") with true;
      change (substringFrom 6 ("login/server:" ++ Y)) with ("server:" ++ Y)%string;
      change (truthy ("server:" ++ Y)) with true
  end.
  cbn [negb]. unfold parseParams.
  change ("&user:" ++ ?X)%string with (String "&" ("user:" ++ X)).
  rewrite split_field by (reflexivity || exact Hs).
  change ("&password:" ++ ?X)%string with (String "&" ("password:" ++ X)).
  rewrite split_field
    by (reflexivity || apply plain_no_amp, encodeValue_plain).
  rewrite split_last
    by (rewrite includes_append, (plain_no_amp _ (encodeValue_plain p)); reflexivity).
  cbn [fold_left].
  rewrite parsePair_server by exact Ts.
  rewrite parsePair_user by (apply encodeValue_truthy, Tu).
  rewrite parsePair_password by (apply encodeValue_truthy, Tp).
  rewrite (user_password_roundtrip_helper u Hu), (user_password_roundtrip_helper p Hp).
  unfold param.
  rewrite !lookup_insert_ne, lookup_insert_eq by discriminate.
  rewrite !lookup_insert_ne, lookup_insert_eq by discriminate.
  rewrite lookup_insert_eq.
  rewrite !lookup_insert_ne, !lookup_empty by discriminate.
  rewrite Ts, Tu, Tp, Hok. reflexivity.
Qed.

Lemma official_callback_decodes_witness :
  parseLoginRedirectUrl
    ("nc://login/server:" ++ ("https://cloud.example.com/nc" ++ ("&user:"
        ++ (encodeValue "alice@example.com" ++ ("&password:" ++ encodeValue "s3cret pw&:+")))))
  = Ok {| server := "https://cloud.example.com/nc"; user := "alice@example.com";
          password := "s3cret pw&:+"; code := None; LoginService.state := None |}.
Proof.
  apply (official_callback_decodes "https://cloud.example.com/nc"
           "alice@example.com" "s3cret pw&:+"); reflexivity.
Defined.

(** X7: a [server] pair appended to a callback URL decides the server of
    the parsed record, whatever server the URL named before: the last pair
    of a key wins. *)
Theorem appended_server_decides (url v : string) (c : Credentials) :
  startsWith url "nc://login/" = true ->
  truthy v = true -> includesChar "&" v = false ->
  parseLoginRedirectUrl (url ++ ("&server:" ++ v)) = Ok c ->
  server c = v.
Proof.
  intros Hp Tv Hv H.
  destruct (parse_ok_inv _ _ H) as (_ & Hs & _).
  rewrite (startsWith_split _ _ Hp) in Hs.
  rewrite append_assoc in Hs.
  change (substringFrom 11 ("nc://login/" ++ ?X)) with X in Hs.
  cbn [String.length] in Hs.
  change ("&server:" ++ v)%string with (String "&" ("server:" ++ v)) in Hs.
  unfold parseParams in Hs. rewrite split_app, fold_left_app in Hs.
  rewrite split_last in Hs by (rewrite includes_append, Hv; reflexivity).
  cbn [fold_left] in Hs. rewrite parsePair_server in Hs by exact Tv.
  unfold param in Hs. rewrite lookup_insert_eq, Tv in Hs.
  congruence.
Qed.

Lemma appended_server_decides_witness :
  let c := {| server := "https://evil.example.org"; user := "alice"; password := "pw";
              code := None; LoginService.state := None |} in
  parseLoginRedirectUrl
    ("nc://login/server:https://cloud.example.com&user:alice&password:pw"
     ++ ("&server:" ++ "https://evil.example.org")) = Ok c
  /\ server c = "https://evil.example.org".
Proof.
  cbv zeta. split; [vm_compute; reflexivity|].
  apply (appended_server_decides
           "nc://login/server:https://cloud.example.com&user:alice&password:pw"
           "https://evil.example.org"); [reflexivity | reflexivity | reflexivity|].
  vm_compute. reflexivity.
Defined.

(** ** The OAuth credential helpers *)

(** X8: [createOAuthCodeCredentials] throws exactly when the server URL
    or the authorization code is falsy; the record it returns otherwise
    always counts as carrying a code and never as carrying a token. *)
Theorem code_credentials_classified (serverUrl authCode state userId : value) :
  (truthyV serverUrl && truthyV authCode = false ->
     createOAuthCodeCredentials serverUrl authCode state userId
     = Thrown "serverUrl and authCode are required")
  /\ (truthyV serverUrl && truthyV authCode = true ->
      exists v, createOAuthCodeCredentials serverUrl authCode state userId = Returned v
                /\ get v "code" = authCode
                /\ hasOAuthCode v = true /\ hasOAuthToken v = false).
Proof.
  unfold createOAuthCodeCredentials.
  destruct (truthyV serverUrl) eqn:Es, (truthyV authCode) eqn:Ec; cbn [negb orb andb];
    split; try discriminate; try reflexivity.
  intros _. eexists. split; [reflexivity|].
  unfold hasOAuthCode, hasOAuthToken. cbn. rewrite Ec. repeat split.
Qed.

Lemma code_credentials_classified_witness :
  createOAuthCodeCredentials (VStr "https://cloud.example.com") VNull (VStr "st8") VUndefined
  = Thrown "serverUrl and authCode are required"
  /\ exists v,
       createOAuthCodeCredentials (VStr "https://cloud.example.com") (VStr "abc")
         (VStr "st8") VUndefined = Returned v
       /\ get v "code" = VStr "abc"
       /\ hasOAuthCode v = true /\ hasOAuthToken v = false.
Proof.
  split.
  - exact (proj1 (code_credentials_classified (VStr "https://cloud.example.com") VNull
                    (VStr "st8") VUndefined) eq_refl).
  - exact (proj2 (code_credentials_classified (VStr "https://cloud.example.com")
                    (VStr "abc") (VStr "st8") VUndefined) eq_refl).
Defined.




(** ** The credential store across login, logout and restart *)

Import CredentialStore.

(** X10: once [handleAuthenticationLogin] has written the file, a host
    that is not domain-joined resolves to the saved-credentials strategy
    on the next start, whatever the login passed in, even nothing at all;
    once [handleAuthenticationLogout] has removed the file, no host
    resolves to it. *)
Theorem persisted_login_drives_strategy
    (now : Z) (newAppData : value) (a : appData) (f : credsFile) (env : environment) :
  (onDomain env = false ->
   savedFile env = snd (handleAuthenticationLogin true now newAppData a f) ->
   type (determineAuthStrategy env) = file)
  /\ (savedFile env = handleAuthenticationLogout true f ->
      type (determineAuthStrategy env) <> file).
Proof.
  split.
  - intros Hd Hf. rewrite determineAuthStrategy_cases, Hd, Hf. reflexivity.
  - intros Hf. rewrite determineAuthStrategy_cases, Hf.
    destruct (onDomain env); [discriminate|].
    destruct f; discriminate.
Qed.

Lemma persisted_login_drives_strategy_witness :
  type (determineAuthStrategy
          {| onDomain := false;
             savedFile := snd (handleAuthenticationLogin true 1700000000000 VNull
                                 {| appServerUrl := VUndefined;
                                    appCredentials := VUndefined |} NoFile);
             buildDomain := VUndefined |}) = file
  /\ type (determineAuthStrategy
             {| onDomain := false;
                savedFile := handleAuthenticationLogout true (Content manualRecord);
                buildDomain := VUndefined |}) <> file.
Proof.
  split.
  - exact (proj1 (persisted_login_drives_strategy 1700000000000 VNull
                    {| appServerUrl := VUndefined; appCredentials := VUndefined |} NoFile
                    {| onDomain := false;
                       savedFile := snd (handleAuthenticationLogin true 1700000000000 VNull
                                           {| appServerUrl := VUndefined;
                                              appCredentials := VUndefined |} NoFile);
                       buildDomain := VUndefined |}) eq_refl eq_refl).
  - exact (proj2 (persisted_login_drives_strategy 0 VNull
                    {| appServerUrl := VUndefined; appCredentials := VUndefined |}
                    (Content manualRecord)
                    {| onDomain := false;
                       savedFile := handleAuthenticationLogout true (Content manualRecord);
                       buildDomain := VUndefined |}) eq_refl).
Defined.




(** X12: a login that stores the record of the login flow as it is
    ([{server, user, password}], all non-empty) does not read back what
    it wrote: the file is taken for the old format, so the credentials
    come back as [{username, password}] and the timestamp is gone. *)
Theorem login_flow_record_reads_back_migrated
    (now : Z) (newAppData : value) (serverUrl s u p : string)
    (a : appData) (f : credsFile) :
  get newAppData "serverUrl" = VStr serverUrl -> truthy serverUrl = true ->
  get newAppData "credentials"
  = VObj [("server", VStr s); ("user", VStr u); ("password", VStr p)] ->
  truthy s = true -> truthy u = true -> truthy p = true ->
  readSaved (snd (handleAuthenticationLogin true now newAppData a f))
  = VObj [("serverUrl", VStr serverUrl);
          ("credentials", VObj [("username", VStr u); ("password", VStr p)])].
Proof.
  intros Hs Ts Hc T1 T2 T3.
  unfold handleAuthenticationLogin. rewrite Hs, Hc. cbn [truthyV]. rewrite Ts.
  cbn [snd appServerUrl appCredentials writeSaved readSaved].
  unfold fixCredentialsFormat, or. cbn. rewrite Ts, T1, T2, T3. reflexivity.
Qed.

Lemma login_flow_record_reads_back_migrated_witness :
  readSaved (snd (handleAuthenticationLogin true 1700000000000
      (VObj [("serverUrl", VStr "https://cloud.example.com");
             ("credentials", VObj [("server", VStr "https://cloud.example.com");
                                   ("user", VStr "alice"); ("password", VStr "secret")])])
      {| appServerUrl := VUndefined; appCredentials := VUndefined |} NoFile))
  = VObj [("serverUrl", VStr "https://cloud.example.com");
          ("credentials", VObj [("username", VStr "alice"); ("password", VStr "secret")])].
Proof.
  apply (login_flow_record_reads_back_migrated 1700000000000 _
           "https://cloud.example.com" "https://cloud.example.com" "alice" "secret");
    reflexivity.
Defined.

(** ** Validation of saved credentials *)

(** X13: a record that [validateCredentials] accepts has a server URL
    that the [URL] constructor takes, and a user name; it has a password,
    or else it is of type [oauth] and has a token.  No record without a
    user name is valid. *)
Theorem valid_record_content (c : value) :
  validateCredentials c = true ->
  newURL (toStringV (get c "serverUrl")) <> None
  /\ truthyV (get (get c "credentials") "username") = true
  /\ (truthyV (get (get c "credentials") "password") = true
      \/ (get (get c "credentials") "type" = VStr "oauth"
          /\ truthyV (get (get c "credentials") "token") = true)).
Proof.
  unfold validateCredentials.
  destruct (negb (truthyV c) || negb (truthyV (get c "serverUrl"))
            || negb (truthyV (get c "credentials"))); [discriminate|].
  destruct (newURL (toStringV (get c "serverUrl"))); [|discriminate].
  destruct (truthyV (get (get c "credentials") "username")) eqn:Eu; cbn [andb].
  - destruct (truthyV (get (get c "credentials") "password")) eqn:Ep.
    + intros _. repeat split; [discriminate | left; reflexivity].
    + unfold strictEqStr.
      destruct (get (get c "credentials") "type") as [| | | |t| |]; try discriminate.
      destruct (String.eqb_spec t "oauth") as [->|]; [|discriminate].
      rewrite andb_true_r. intros Ht.
      repeat split; [discriminate | right; split; [reflexivity | exact Ht]].
  - unfold strictEqStr.
    destruct (get (get c "credentials") "type") as [| | | |t| |]; try discriminate.
    destruct (String.eqb t "oauth"); [|discriminate].
    rewrite andb_false_r. discriminate.
Qed.

Lemma valid_record_content_witness :
  truthyV (get (get (VObj [("serverUrl", VStr "https://cloud.example.com");
                           ("credentials", VObj [("type", VStr "oauth");
                                                 ("username", VStr "alice");
                                                 ("token", VStr "tok123")])])
                    "credentials") "username") = true.
Proof.
  exact (proj1 (proj2 (valid_record_content
           (VObj [("serverUrl", VStr "https://cloud.example.com");
                  ("credentials", VObj [("type", VStr "oauth");
                                        ("username", VStr "alice");
                                        ("token", VStr "tok123")])]) eq_refl))).
Defined.

(** X14: an old-format file with non-empty [server], [user] and
    [password] strings and no [serverUrl] of its own is valid after
    migration exactly when its [server] is accepted by the [URL]
    constructor. *)
Theorem migrated_record_valid (s u p : string) (extra : list (string * value)) :
  truthy s = true -> truthy u = true -> truthy p = true ->
  validateCredentials
    (readSaved (Content (VObj [("credentials",
        VObj ([("server", VStr s); ("user", VStr u); ("password", VStr p)] ++ extra))])))
  = match newURL s with Some _ => true | None => false end.
Proof.
  intros Ts Tu Tp. cbn [readSaved]. unfold fixCredentialsFormat, or.
  cbn. rewrite Ts, Tu, Tp. cbn.
  unfold validateCredentials. cbn. rewrite Ts, Tu, Tp. cbn.
  destruct (newURL s); reflexivity.
Qed.

Lemma migrated_record_valid_witness :
  validateCredentials
    (readSaved (Content (VObj [("credentials",
        VObj ([("server", VStr "cloud.example.com"); ("user", VStr "alice");
               ("password", VStr "secret")] ++ []))])))
  = false.
Proof.
  exact (migrated_record_valid "cloud.example.com" "alice" "secret" []
           eq_refl eq_refl eq_refl).
Defined.

(** ** Automatic login *)

(** X15: [performAutoLogin] on the resolved strategy succeeds only on a
    host that is not domain-joined and has a credentials file with a
    truthy JSON value, only when the interceptor accepts, and it then
    hands over the [serverUrl] and [credentials] properties of the
    migrated record as they are. *)
Theorem auto_login_success (env : environment)
    (interceptor : value -> value -> option string) (serverUrl credentials : value) :
  performAutoLogin (determineAuthStrategy env) interceptor
  = AutoSuccess serverUrl credentials ->
  onDomain env = false
  /\ exists v, savedFile env = Content v /\ truthyV v = true
               /\ serverUrl = get (fixCredentialsFormat v) "serverUrl"
               /\ credentials = get (fixCredentialsFormat v) "credentials"
               /\ interceptor serverUrl credentials = None.
Proof.
  rewrite determineAuthStrategy_cases. unfold performAutoLogin.
  destruct (onDomain env); [discriminate|].
  destruct (savedFile env) as [| |v]; try discriminate.
  destruct (truthyV v) eqn:Ev; [|discriminate].
  cbn [type strategyCreds]. rewrite fixCredentialsFormat_truthy, Ev.
  destruct (interceptor _ _) eqn:Ei; [discriminate|].
  intros [= <- <-]. split; [reflexivity|]. exists v. repeat split; assumption.
Qed.

Lemma auto_login_success_witness :
  exists v,
    Content (VObj [("serverUrl", VStr "https://cloud.example.com");
                   ("credentials", VObj [("username", VStr "alice");
                                         ("password", VStr "secret")])]) = Content v
    /\ truthyV v = true.
Proof.
  destruct (auto_login_success
              {| onDomain := false;
                 savedFile := Content
                   (VObj [("serverUrl", VStr "https://cloud.example.com");
                          ("credentials", VObj [("username", VStr "alice");
                                                ("password", VStr "secret")])]);
                 buildDomain := VUndefined |}
              (fun _ _ => None)
              (VStr "https://cloud.example.com")
              (VObj [("username", VStr "alice"); ("password", VStr "secret")])
              eq_refl) as (_ & v & Hv & Tv & _).
  exists v. split; assumption.
Defined.

Import OAuthConfig CascadeAuth.

(** X16: [performCascadeAuth] never succeeds through OAuth.  It succeeds
    exactly on a host that is not domain-joined whose saved record passes
    [validateCredentials], always as [file_credentials], with the
    record's [serverUrl] and [credentials]; whatever the OAuth
    configuration is. *)
Theorem cascade_outcome (env : environment) (BUILD_CONFIG : overrides) :
  let saved := readSaved (savedFile env) in
  performCascadeAuth env BUILD_CONFIG
  = if negb (onDomain env) && truthyV saved && validateCredentials saved
    then CascadeSuccess "file_credentials" (get saved "serverUrl") (get saved "credentials")
    else CascadeFailure "no_auto_credentials".
Proof.
  cbv zeta. unfold performCascadeAuth. rewrite determineAuthStrategy_cases.
  destruct (onDomain env); [reflexivity|]. cbn [negb andb].
  destruct (savedFile env) as [| |v]; cbn [readSaved truthyV]; try reflexivity.
  rewrite fixCredentialsFormat_truthy.
  destruct (truthyV v); cbn [type strategyCreds andb]; [|reflexivity].
  destruct (validateCredentials (fixCredentialsFormat v)); [|reflexivity].
  unfold tryOAuthAuto. destruct (negb _); reflexivity.
Qed.

(** ** The OAuth configuration *)

(** X17: a non-empty override of the client id is what [getConfig]
    returns, also when it is too short: an override of ten characters or
    fewer makes [validateConfig] fail, the built-in id is not used in its
    place.  Without overrides the configuration is valid, and every
    configuration [validateConfig] accepts is accepted by
    [AutoOAuthManager]'s own check as well. *)
Theorem config_override_shadows (id : string) (b : overrides) :
  (truthy id = true ->
   oauth_client_id b = Some id ->
   cfg_client_id (getConfig b) = id
   /\ ((jsLength id <= 10)%nat -> validateConfig (getConfig b) = false))
  /\ validateConfig (getConfig {| oauth_client_id := None; oauth_client_secret := None;
                                  oauth_scope := None |}) = true
  /\ (validateConfig (getConfig b) = true -> managerValidateConfig (getConfig b) = true).
Proof.
  split; [|split].
  - intros Tid Hid. unfold getConfig, validateConfig. cbn [cfg_client_id cfg_client_secret].
    rewrite Hid. cbn [orDefault]. rewrite Tid. split; [reflexivity|].
    intros Hlen. apply Nat.ltb_ge in Hlen. rewrite Hlen.
    rewrite andb_false_r. reflexivity.
  - vm_compute. reflexivity.
  - unfold validateConfig, managerValidateConfig. intros H.
    apply andb_true_iff in H as [H _]. apply andb_true_iff in H as [H _]. exact H.
Qed.

Lemma config_override_shadows_witness :
  cfg_client_id (getConfig {| oauth_client_id := Some "short"; oauth_client_secret := None;
                              oauth_scope := None |}) = "short"
  /\ validateConfig (getConfig {| oauth_client_id := Some "short";
                                  oauth_client_secret := None;
                                  oauth_scope := None |}) = false.
Proof.
  destruct (proj1 (config_override_shadows "short"
                     {| oauth_client_id := Some "short"; oauth_client_secret := None;
                        oauth_scope := None |}) eq_refl eq_refl) as [H1 H2].
  split; [exact H1 | apply H2; apply Nat.leb_le; reflexivity].
Defined.

(** ** The domain probe *)

Section ProbeFacts.

Variable trim : string -> string.
Variable toUpperCase : string -> string.

Lemma isOnDomain_decided (m : machine) (expectedDomain : value) :
  isOnDomain trim toUpperCase m expectedDomain = true ->
  platform m = "win32"
  /\ exists out group,
       whoami m = Some out /\ matchAccount (trim out) = Some group
       /\ toUpperCase group
          <> toUpperCase (match computerNameEnv m with
                          | Some n => if truthy n then n else EmptyString
                          | None => EmptyString
                          end)
       /\ (truthyV expectedDomain = true ->
           toUpperCase group = toUpperCase (toStringV expectedDomain)).
Proof.
  unfold isOnDomain.
  destruct (String.eqb_spec (platform m) "win32") as [Hp|]; cbn [negb]; [|discriminate].
  destruct (whoami m) as [out|]; [|discriminate].
  destruct (matchAccount (trim out)) as [group|] eqn:Hm; [|discriminate].
  destruct (truthy (toUpperCase group) && truthy (toUpperCase _)) ; cbn [andb];
    [|discriminate].
  destruct (String.eqb_spec (toUpperCase group)
              (toUpperCase match computerNameEnv m with
                           | Some n => if truthy n then n else EmptyString
                           | None => EmptyString
                           end)) as [|Hne]; cbn [negb]; [discriminate|].
  intros H. split; [exact Hp|]. exists out, group.
  split; [reflexivity|]. split; [exact Hm|]. split; [exact Hne|].
  intros Te. rewrite Te in H. cbn [negb] in H. apply String.eqb_eq. exact H.
Qed.

Lemma matchAccount_local (name account : string) (group : string) :
  matchAccount (name ++ String "\" account) = Some group -> group = name.
Proof.
  unfold matchAccount.
  destruct (includesChar "\" name) eqn:En.
  - (* the first backslash is inside [name]: the rest still has one *)
    assert (H : forall n a, includesChar "\" n = true ->
              match indexOf "\" (n ++ String "\" a) with
              | Some i => includesChar "\" (substringFrom (S i) (n ++ String "\" a)) = true
              | None => False
              end).
    { induction n as [|c n IH]; intros a Hn; [discriminate|].
      rewrite append_cons. cbn [indexOf includesChar] in *.
      destruct (Ascii.eqb c "\") eqn:Ec.
      - cbn [substringFrom]. rewrite includes_append. cbn [includesChar].
        rewrite Ascii.eqb_refl, orb_true_r. reflexivity.
      - cbn [orb] in Hn. specialize (IH a Hn).
        destruct (indexOf "\" (n ++ String "\" a)); [exact IH | contradiction]. }
    specialize (H name account En).
    destruct (indexOf "\" (name ++ String "\" account)); [|contradiction].
    rewrite H, andb_false_r. discriminate.
  - assert (H : forall n a, includesChar "\" n = false ->
              indexOf "\" (n ++ String "\" a) = Some (String.length n)
              /\ substringTo (String.length n) (n ++ String "\" a) = n).
    { induction n as [|c n IH]; intros a Hn.
      - split; reflexivity.
      - rewrite append_cons. cbn [indexOf includesChar String.length substringTo] in *.
        apply orb_false_elim in Hn as [Hc Hn]. rewrite Hc.
        destruct (IH a Hn) as [-> ->]. split; reflexivity. }
    destruct (H name account En) as [-> ->].
    destruct (_ && _); [congruence | discriminate].
Qed.

(** X18: the probe never reports a local account as domain-joined: when
    [whoami] prints [NAME\account] and [COMPUTERNAME] is [NAME] up to
    case, the answer is false, on any platform and for any expected
    domain; and when it answers true with an expected domain given, the
    account's domain equals it up to case. *)
Theorem local_account_not_on_domain
    (m : machine) (expectedDomain : value) (out name account computerName : string) :
  (whoami m = Some out -> trim out = (name ++ String "\" account)%string ->
   computerNameEnv m = Some computerName ->
   toUpperCase computerName = toUpperCase name ->
   isOnDomain trim toUpperCase m expectedDomain = false)
  /\ (isOnDomain trim toUpperCase m expectedDomain = true ->
      truthyV expectedDomain = true ->
      exists o group, whoami m = Some o /\ matchAccount (trim o) = Some group
                      /\ toUpperCase group = toUpperCase (toStringV expectedDomain)).
Proof.
  split.
  - intros Hw Ht Hc Hup.
    destruct (isOnDomain trim toUpperCase m expectedDomain) eqn:E; [|reflexivity].
    exfalso. destruct (isOnDomain_decided m expectedDomain E)
      as (_ & o & group & Ho & Hm & Hne & _).
    rewrite Hw in Ho. injection Ho as <-. rewrite Ht in Hm.
    apply matchAccount_local in Hm. subst group. rewrite Hc in Hne.
    apply Hne. rewrite <- Hup.
    destruct computerName; reflexivity.
  - intros E Te. destruct (isOnDomain_decided m expectedDomain E)
      as (_ & o & group & Ho & Hm & _ & Hx).
    exists o, group. repeat split; try assumption. apply Hx, Te.
Qed.

End ProbeFacts.

Lemma local_account_not_on_domain_witness :
  isOnDomain trimAscii toUpperCaseAscii
    {| platform := "win32"; whoami := Some "desktop-7\alice  ";
       computerNameEnv := Some "DESKTOP-7" |} (VStr "corp") = false.
Proof.
  apply (proj1 (local_account_not_on_domain trimAscii toUpperCaseAscii
                  {| platform := "win32"; whoami := Some "desktop-7\alice  ";
                     computerNameEnv := Some "DESKTOP-7" |} (VStr "corp")
                  "desktop-7\alice  " "desktop-7" "alice" "DESKTOP-7"));
    reflexivity.
Defined.

(** ** The deep-link listener over time *)

Lemma removeFirst_perm (w : waiter) (queue : list waiter) :
  existsb (Nat.eqb w) queue = true ->
  Permutation (w :: removeFirst w queue) queue.
Proof.
  induction queue as [|x queue IH]; cbn [existsb removeFirst]; [discriminate|].
  intros H. rewrite Nat.eqb_sym in H. destruct (Nat.eqb x w) eqn:E.
  - apply Nat.eqb_eq in E. subst x. reflexivity.
  - cbn [orb] in H. rewrite perm_swap. constructor. apply IH, H.
Qed.

Lemma listener_step_apart (s : DeepLink.state) (e : MainProcess.event) :
  match e with
  | MainProcess.Wait w =>
      ~ In w (deeplinkResolvers s) /\ ~ In w (map fst (resolved s))
  | _ => True
  end ->
  List.NoDup (deeplinkResolvers s ++ map fst (resolved s)) ->
  List.NoDup (deeplinkResolvers (MainProcess.step s e)
              ++ map fst (resolved (MainProcess.step s e))).
Proof.
  intros Hfresh Hs.
  assert (Hnew : forall w, ~ In w (deeplinkResolvers s) -> ~ In w (map fst (resolved s)) ->
                 List.NoDup (w :: deeplinkResolvers s ++ map fst (resolved s))).
  { intros w H1 H2. constructor; [|exact Hs].
    rewrite in_app_iff. tauto. }
  destruct e as [url|w|w]; cbn [MainProcess.step].
  - unfold notifyDeepLink. cbn [deeplinkResolvers resolved app].
    rewrite drain_spec, map_app, map_map. cbn [fst]. rewrite map_id.
    eapply Permutation_NoDup; [|exact Hs]. apply Permutation_app_comm.
  - destruct Hfresh as [H1 H2]. specialize (Hnew w H1 H2).
    assert (Hq : List.NoDup ((deeplinkResolvers s ++ [w]) ++ map fst (resolved s))).
    { eapply Permutation_NoDup; [|exact Hnew].
      rewrite <- app_assoc. apply Permutation_cons_app. reflexivity. }
    unfold oauthWaitCode. destruct (deepLinkUrl s) as [url|]; [|exact Hq].
    destruct (truthy url); [|exact Hq].
    cbn [deeplinkResolvers resolved]. rewrite map_app. cbn [map fst].
    eapply Permutation_NoDup; [|exact Hnew].
    rewrite app_assoc. apply Permutation_cons_append.
  - unfold waitTimeout.
    destruct (existsb (Nat.eqb w) (deeplinkResolvers s)) eqn:E; [|exact Hs].
    cbn [deeplinkResolvers resolved]. rewrite map_app. cbn [map fst].
    eapply Permutation_NoDup; [|exact Hs].
    rewrite <- (removeFirst_perm w (deeplinkResolvers s) E) at 1.
    rewrite app_assoc. cbn [app]. apply Permutation_cons_append.
Qed.

Lemma outcome_kept (w : waiter) (v : option string) (s : DeepLink.state)
    (e : MainProcess.event) :
  outcomeOf w s = Some v -> outcomeOf w (MainProcess.step s e) = Some v.
Proof.
  assert (Hfind : forall log more,
            match List.find (fun e => Nat.eqb (fst e) w) log with
            | Some (_, v0) => Some v0 | None => None end = Some v ->
            match List.find (fun e => Nat.eqb (fst e) w) (log ++ more) with
            | Some (_, v0) => Some v0 | None => None end = Some v).
  { intros log more. induction log as [|x log IH]; cbn [List.find app]; [discriminate|].
    destruct (Nat.eqb (fst x) w); [tauto | exact IH]. }
  unfold outcomeOf. intros H.
  destruct e as [url|w'|w']; cbn [MainProcess.step].
  - unfold notifyDeepLink. cbn [resolved]. rewrite drain_spec. apply Hfind, H.
  - unfold oauthWaitCode. destruct (deepLinkUrl s) as [url|]; [|exact H].
    destruct (truthy url); [|exact H]. cbn [resolved]. apply Hfind, H.
  - unfold waitTimeout. destruct (existsb _ _); [|exact H].
    cbn [resolved]. apply Hfind, H.
Qed.

(** X19: as long as every [oauth-wait-code] call brings a promise of its
    own, no promise is ever resolved twice, queued twice, or left in the
    queue once it is resolved, whatever deep links, calls and timeouts
    follow; and the value a promise was resolved with stays. *)
Theorem waiters_settle_once (s : DeepLink.state) (es : list MainProcess.event) :
  List.NoDup (deeplinkResolvers s ++ map fst (resolved s)) ->
  MainProcess.freshWaits s es ->
  List.NoDup (deeplinkResolvers (MainProcess.run s es)
              ++ map fst (resolved (MainProcess.run s es)))
  /\ forall w v, outcomeOf w s = Some v ->
                 outcomeOf w (MainProcess.run s es) = Some v.
Proof.
  revert s. induction es as [|e es IH]; intros s Hs Hf.
  - split; [exact Hs | tauto].
  - destruct Hf as [He Hf]. cbn [MainProcess.run fold_left].
    destruct (IH (MainProcess.step s e)) as [IH1 IH2];
      [apply listener_step_apart; assumption | exact Hf |].
    split; [exact IH1|].
    intros w v H. apply IH2, outcome_kept, H.
Qed.

Lemma waiters_settle_once_witness :
  let s := {| mainWindowReady := true; deepLinkUrl := None;
              deeplinkResolvers := []; resolved := []; sent := [] |} in
  let es := [MainProcess.Wait 1; MainProcess.Wait 2; MainProcess.Timeout 1;
             MainProcess.Notify "nc://login/x"; MainProcess.Wait 3]%nat in
  List.NoDup (deeplinkResolvers (MainProcess.run s es)
              ++ map fst (resolved (MainProcess.run s es))).
Proof.
  cbv zeta.
  refine (proj1 (waiters_settle_once _ _ _ _)).
  - constructor.
  - cbn. lia.
Defined.

(** ** Deep links on the command line *)

Lemma firstDeepLink_found (items : list value) :
  match MainProcess.firstDeepLink items with
  | Some url =>
      startsWith url "nc://" = true
      /\ exists before after,
           items = before ++ VStr url :: after
           /\ forall a, In (VStr a) before -> startsWith a "nc://" = false
  | None => forall a, In (VStr a) items -> startsWith a "nc://" = false
  end.
Proof.
  induction items as [|x items IH]; cbn [MainProcess.firstDeepLink].
  - intros a [].
  - assert (Hskip : (forall a, x <> VStr a) ->
              match MainProcess.firstDeepLink items with
              | Some url =>
                  startsWith url "nc://" = true
                  /\ exists before after,
                       x :: items = before ++ VStr url :: after
                       /\ forall a, In (VStr a) before -> startsWith a "nc://" = false
              | None => forall a, In (VStr a) (x :: items) -> startsWith a "nc://" = false
              end).
    { intros Hx. destruct (MainProcess.firstDeepLink items) as [url|].
      - destruct IH as (Hp & before & after & Hi & Hb). split; [exact Hp|].
        exists (x :: before), after. split; [rewrite Hi; reflexivity|].
        intros a [Ha|Ha]; [exfalso; exact (Hx a Ha) | apply Hb, Ha].
      - intros a [Ha|Ha]; [exfalso; exact (Hx a Ha) | apply IH, Ha]. }
    destruct x as [| |b|n|a0|l|o]; try (apply Hskip; intros a; discriminate).
    destruct (startsWith a0 "nc://") eqn:E.
    + split; [exact E|]. exists [], items. split; [reflexivity|]. intros a [].
    + destruct (MainProcess.firstDeepLink items) as [url|].
      * destruct IH as (Hp & before & after & Hi & Hb). split; [exact Hp|].
        exists (VStr a0 :: before), after. split; [rewrite Hi; reflexivity|].
        intros a [Ha|Ha]; [injection Ha as <-; exact E | apply Hb, Ha].
      * intros a [Ha|Ha]; [injection Ha as <-; exact E | apply IH, Ha].
Qed.

(** X20: a second instance started with [argv] delivers the first string
    of [argv] that starts with [nc://], and only that one: every waiting
    promise is resolved with it, the queue is left empty and the link is
    cached.  With no such string in [argv] the listener is left as it
    was. *)
Theorem second_instance_delivers_first_link (items : list value) (s : DeepLink.state) :
  match MainProcess.findDeepLinkInArgv (VArr items) with
  | Some url =>
      startsWith url "nc://" = true
      /\ (exists before after,
            items = before ++ VStr url :: after
            /\ forall a, In (VStr a) before -> startsWith a "nc://" = false)
      /\ deepLinkUrl (MainProcess.secondInstance (VArr items) s) = Some url
      /\ deeplinkResolvers (MainProcess.secondInstance (VArr items) s) = []
      /\ resolved (MainProcess.secondInstance (VArr items) s)
         = resolved s ++ map (fun w => (w, Some url)) (deeplinkResolvers s)
  | None =>
      (forall a, In (VStr a) items -> startsWith a "nc://" = false)
      /\ MainProcess.secondInstance (VArr items) s = s
  end.
Proof.
  unfold MainProcess.secondInstance. cbn [MainProcess.findDeepLinkInArgv].
  pose proof (firstDeepLink_found items) as H.
  destruct (MainProcess.firstDeepLink items) as [url|].
  - destruct H as [Hp Hex]. split; [exact Hp|]. split; [exact Hex|].
    assert (Ht : truthy url = true).
    { destruct url; [discriminate Hp | reflexivity]. }
    rewrite Ht. unfold notifyDeepLink. cbn [deepLinkUrl deeplinkResolvers resolved].
    rewrite drain_spec. repeat split.
  - split; [exact H | reflexivity].
Qed.

(** ** The IPC registry *)

Lemma firstFor_snoc (ch : string) (calls : list MainProcess.call) (c : MainProcess.call) :
  MainProcess.firstFor ch (calls ++ [c])
  = match MainProcess.firstFor ch calls with
    | Some x => Some x
    | None => if String.eqb (MainProcess.channelOf c) ch then Some c else None
    end.
Proof.
  unfold MainProcess.firstFor.
  induction calls as [|x calls IH]; cbn [List.find app]; [reflexivity|].
  destruct (String.eqb (MainProcess.channelOf x) ch); [reflexivity | exact IH].
Qed.

(** X21: the registrations made through [safeHandle] and [safeOn] never
    throw, although [ipcMain.handle] throws on a channel that has a
    handler; and for each channel the first registration is the one in
    force: a later one for the same channel, of either kind, is dropped
    without a word. *)
Theorem safe_registration_first_wins (calls : list MainProcess.call) :
  exists r,
    MainProcess.registerAll calls = Some r
    /\ forall ch,
         (ch ∈ MainProcess.registeredIpc r <-> MainProcess.firstFor ch calls <> None)
         /\ MainProcess.handlers r !! ch
            = match MainProcess.firstFor ch calls with
              | Some (MainProcess.Handle _ fn) => Some fn
              | _ => None
              end
         /\ forall fn, In (ch, fn) (MainProcess.listeners r)
                       <-> MainProcess.firstFor ch calls = Some (MainProcess.On ch fn).
Proof.
  induction calls as [|c calls IH] using rev_ind.
  - exists MainProcess.noRegistry. split; [reflexivity|]. intros ch.
    cbn [MainProcess.noRegistry MainProcess.registeredIpc MainProcess.handlers
         MainProcess.listeners MainProcess.firstFor List.find].
    split; [|split].
    + split; [intros H; apply not_elem_of_empty in H; contradiction | congruence].
    + apply lookup_empty.
    + intros fn. split; [intros [] | discriminate].
  - destruct IH as (r & Hr & IH).
    unfold MainProcess.registerAll in *. rewrite fold_left_app, Hr.
    cbn [fold_left MainProcess.register].
    assert (Hsame : MainProcess.channelOf c ∈ MainProcess.registeredIpc r ->
              forall ch, MainProcess.firstFor ch (calls ++ [c]) = MainProcess.firstFor ch calls).
    { intros Hc ch. rewrite firstFor_snoc.
      destruct (MainProcess.firstFor ch calls) eqn:E; [reflexivity|].
      destruct (String.eqb (MainProcess.channelOf c) ch) eqn:Ec; [|reflexivity].
      apply String.eqb_eq in Ec. subst ch.
      apply (proj1 (IH _)) in Hc. contradiction. }
    assert (Hnew : MainProcess.channelOf c ∉ MainProcess.registeredIpc r ->
              MainProcess.firstFor (MainProcess.channelOf c) calls = None).
    { intros Hc. destruct (MainProcess.firstFor _ calls) eqn:E; [|reflexivity].
      exfalso. apply Hc, (proj1 (IH _)). congruence. }
    assert (Hold : forall ch, ch <> MainProcess.channelOf c ->
              MainProcess.firstFor ch (calls ++ [c]) = MainProcess.firstFor ch calls).
    { intros ch Hne. rewrite firstFor_snoc.
      destruct (MainProcess.firstFor ch calls); [reflexivity|].
      destruct (String.eqb (MainProcess.channelOf c) ch) eqn:Ec; [|reflexivity].
      apply String.eqb_eq in Ec. congruence. }
    assert (Hhere : MainProcess.channelOf c ∉ MainProcess.registeredIpc r ->
              MainProcess.firstFor (MainProcess.channelOf c) (calls ++ [c]) = Some c).
    { intros Hc. rewrite firstFor_snoc, (Hnew Hc), String.eqb_refl. reflexivity. }
    destruct c as [ch0 fn0|ch0 fn0]; cbn [MainProcess.channelOf] in *.
    + unfold MainProcess.safeHandle.
      destruct (decide (ch0 ∈ MainProcess.registeredIpc r)) as [Hc|Hc].
      * exists r. split; [reflexivity|]. intros ch. rewrite (Hsame Hc ch). apply IH.
      * unfold MainProcess.ipcMainHandle.
        destruct (IH ch0) as (_ & Hh & _). rewrite (Hnew Hc) in Hh. rewrite Hh.
        eexists. split; [reflexivity|]. intros ch.
        cbn [MainProcess.registeredIpc MainProcess.handlers MainProcess.listeners].
        destruct (decide (ch = ch0)) as [->|Hne].
        -- rewrite (Hhere Hc), lookup_insert_eq. split; [|split].
           ++ split; [discriminate | intros _; apply elem_of_union; left; apply elem_of_singleton; reflexivity].
           ++ reflexivity.
           ++ intros fn. split; [|discriminate].
              intros Hl. apply (proj2 (proj2 (IH ch0))) in Hl.
              rewrite (Hnew Hc) in Hl. discriminate.
        -- rewrite (Hold ch Hne), lookup_insert_ne by congruence.
           destruct (IH ch) as (H1 & H2 & H3). split; [|split; assumption].
           rewrite <- H1, elem_of_union, elem_of_singleton. tauto.
    + unfold MainProcess.safeOn.
      destruct (decide (ch0 ∈ MainProcess.registeredIpc r)) as [Hc|Hc].
      * exists r. split; [reflexivity|]. intros ch. rewrite (Hsame Hc ch). apply IH.
      * eexists. split; [reflexivity|]. intros ch.
        cbn [MainProcess.registeredIpc MainProcess.handlers MainProcess.listeners].
        destruct (decide (ch = ch0)) as [->|Hne].
        -- rewrite (Hhere Hc). split; [|split].
           ++ split; [discriminate | intros _; apply elem_of_union; left; apply elem_of_singleton; reflexivity].
           ++ destruct (IH ch0) as (_ & Hh & _). rewrite (Hnew Hc) in Hh. exact Hh.
           ++ intros fn. rewrite in_app_iff. cbn [In]. split.
              ** intros [Hl|[Hl|[]]].
                 --- apply (proj2 (proj2 (IH ch0))) in Hl.
                     rewrite (Hnew Hc) in Hl. discriminate.
                 --- congruence.
              ** intros Hl. right. left. congruence.
        -- rewrite (Hold ch Hne).
           destruct (IH ch) as (H1 & H2 & H3). split; [|split; [exact H2|]].
           ++ rewrite <- H1, elem_of_union, elem_of_singleton. tauto.
           ++ intros fn. rewrite in_app_iff, <- H3. cbn [In].
              split; [intros [Hl|[Hl|[]]]; [exact Hl | congruence] | tauto].
Qed.

(** ** The login attempt without a deep link *)

(** X22: when no deep link arrives, the handler returns what the login
    window resolved with, and it does so only once the 40 second timer of
    the deep-link wait has fired: until then the attempt is pending,
    whatever happened in the window, closed or not. *)
Theorem window_result_waits_for_timer (serverUrl st : string)
    (before after : list LoginWindow.event) :
  LoginAttempt.outcome (LoginAttempt.run (LoginAttempt.start serverUrl st) (map LoginAttempt.Window before)) = None
  /\ LoginAttempt.outcome (LoginAttempt.run (LoginAttempt.start serverUrl st)
                (map LoginAttempt.Window before ++ LoginAttempt.DeepLinkTimer :: map LoginAttempt.Window after))
     = LoginWindow.settled (LoginWindow.run (LoginWindow.open serverUrl st) (before ++ after)).
Proof.
  split.
  - rewrite windows_before_follow by reflexivity. reflexivity.
  - unfold LoginAttempt.run at 1. rewrite fold_left_app.
    change (fold_left LoginAttempt.step (map LoginAttempt.Window before) ?x)
      with (LoginAttempt.run x (map LoginAttempt.Window before)).
    rewrite windows_before_follow by reflexivity.
    cbn [fold_left LoginAttempt.step].
    change (fold_left LoginAttempt.step (map LoginAttempt.Window after) ?x)
      with (LoginAttempt.run x (map LoginAttempt.Window after)).
    unfold LoginWindow.run at 2. rewrite fold_left_app.
    change (fold_left LoginWindow.step before ?x) with (LoginWindow.run x before).
    change (fold_left LoginWindow.step after ?x) with (LoginWindow.run x after).
    unfold LoginAttempt.deepLinkTimer, LoginAttempt.start. cbn [LoginAttempt.deepLinkWaitOver LoginAttempt.window LoginAttempt.outcome].
    unfold LoginAttempt.follow, LoginAttempt.propagate. cbn [LoginAttempt.following LoginAttempt.window LoginAttempt.outcome LoginAttempt.deepLinkWaitOver].
    destruct (LoginWindow.settled (LoginWindow.run (LoginWindow.open serverUrl st) before)) as [r|] eqn:E.
    + unfold LoginAttempt.resolveOuter. cbn [LoginAttempt.outcome LoginAttempt.window LoginAttempt.deepLinkWaitOver LoginAttempt.following].
      rewrite windows_while_following; cbn [LoginAttempt.window LoginAttempt.outcome LoginAttempt.following]; auto.
    + rewrite windows_while_following; cbn [LoginAttempt.window LoginAttempt.outcome LoginAttempt.following]; auto.
Qed.

(** ** The page automation of the login window *)

Lemma times_app (a : PageAutomation.action) (x y : list PageAutomation.action) :
  PageAutomation.times a (x ++ y)
  = (PageAutomation.times a x + PageAutomation.times a y)%nat.
Proof.
  unfold PageAutomation.times. rewrite List.filter_app, List.length_app. reflexivity.
Qed.

Lemma handle_counts (serverUrl : string) (authStrategy : option strategyType)
    (f : PageAutomation.flags) (e : PageAutomation.event) :
  let f' := fst (PageAutomation.handle serverUrl authStrategy f e) in
  let acts := snd (PageAutomation.handle serverUrl authStrategy f e) in
  Nat.b2n (PageAutomation.oauthApprovalAttempted f')
  = (Nat.b2n (PageAutomation.oauthApprovalAttempted f)
     + PageAutomation.times PageAutomation.AutoApprove acts)%nat
  /\ Nat.b2n (PageAutomation.loginMethodSelected f')
     = (Nat.b2n (PageAutomation.loginMethodSelected f)
        + PageAutomation.times PageAutomation.SelectMethod acts)%nat
  /\ Nat.b2n (PageAutomation.grantPageHandled f')
     = (Nat.b2n (PageAutomation.grantPageHandled f)
        + PageAutomation.times PageAutomation.GrantAutomation acts)%nat
  /\ PageAutomation.formFillAttempts f'
     = (PageAutomation.formFillAttempts f
        + PageAutomation.times PageAutomation.FillForm acts)%nat
  /\ (PageAutomation.formFillAttempts f <= 3 -> PageAutomation.formFillAttempts f' <= 3)%nat
  /\ (authStrategy <> Some file -> PageAutomation.times PageAutomation.FillForm acts = 0%nat).
Proof.
  destruct f as [a m l g n]. cbv zeta.
  destruct e as [url fill latch|url latch|url latch]; cbn [PageAutomation.handle].
  - unfold PageAutomation.didFinishLoad.
    cbn [PageAutomation.oauthApprovalAttempted PageAutomation.loginMethodSelected
         PageAutomation.loginFormFilled PageAutomation.grantPageHandled
         PageAutomation.formFillAttempts].
    destruct (_ && negb a) eqn:E1.
    { apply andb_true_iff in E1 as [_ E1]. destruct a; [discriminate|].
      cbn. repeat split; lia. }
    destruct (_ && negb m) eqn:E2.
    { apply andb_true_iff in E2 as [_ E2]. destruct m; [discriminate|].
      cbn. repeat split; lia. }
    destruct (_ && (n <? PageAutomation.MAX_FORM_FILL_ATTEMPTS)%nat) eqn:E3.
    { apply andb_true_iff in E3 as [E3 E4]. apply Nat.ltb_lt in E4.
      apply andb_true_iff in E3 as [_ E3].
      unfold PageAutomation.MAX_FORM_FILL_ATTEMPTS in E4.
      cbn. repeat split; try lia.
      intros Hs. destruct authStrategy as [[| |]|]; try discriminate E3.
      congruence. }
    destruct (_ && negb g) eqn:E4.
    { apply andb_true_iff in E4 as [_ E4]. destruct g; [discriminate|].
      cbn. repeat split; lia. }
    destruct (_ && g && negb latch) eqn:E5.
    { apply andb_true_iff in E5 as [E5 _]. apply andb_true_iff in E5 as [_ E5].
      subst g. cbn. repeat split; lia. }
    cbn. repeat split; lia.
  - unfold PageAutomation.didNavigate.
    cbn [PageAutomation.grantPageHandled].
    destruct (_ && negb g) eqn:E1.
    + apply andb_true_iff in E1 as [_ E1]. destruct g; [discriminate|].
      cbn [PageAutomation.grantPageHandled andb].
      destruct (_ && _); cbn; repeat split; lia.
    + cbn [PageAutomation.grantPageHandled].
      destruct (g && negb latch && _) eqn:E2.
      * apply andb_true_iff in E2 as [E2 _]. apply andb_true_iff in E2 as [E2 _].
        subst g. cbn. repeat split; lia.
      * cbn. repeat split; lia.
  - unfold PageAutomation.grantTimeout.
    cbn [PageAutomation.grantPageHandled].
    destruct (_ && negb g && negb latch) eqn:E1.
    + apply andb_true_iff in E1 as [E1 _]. apply andb_true_iff in E1 as [_ E1].
      destruct g; [discriminate|]. cbn. repeat split; lia.
    + cbn. repeat split; lia.
Qed.

Lemma run_counts (serverUrl : string) (authStrategy : option strategyType)
    (es : list PageAutomation.event) (f : PageAutomation.flags) :
  let f' := fst (PageAutomation.run serverUrl authStrategy f es) in
  let acts := snd (PageAutomation.run serverUrl authStrategy f es) in
  Nat.b2n (PageAutomation.oauthApprovalAttempted f')
  = (Nat.b2n (PageAutomation.oauthApprovalAttempted f)
     + PageAutomation.times PageAutomation.AutoApprove acts)%nat
  /\ Nat.b2n (PageAutomation.loginMethodSelected f')
     = (Nat.b2n (PageAutomation.loginMethodSelected f)
        + PageAutomation.times PageAutomation.SelectMethod acts)%nat
  /\ Nat.b2n (PageAutomation.grantPageHandled f')
     = (Nat.b2n (PageAutomation.grantPageHandled f)
        + PageAutomation.times PageAutomation.GrantAutomation acts)%nat
  /\ PageAutomation.formFillAttempts f'
     = (PageAutomation.formFillAttempts f
        + PageAutomation.times PageAutomation.FillForm acts)%nat
  /\ (PageAutomation.formFillAttempts f <= 3 -> PageAutomation.formFillAttempts f' <= 3)%nat
  /\ (authStrategy <> Some file -> PageAutomation.times PageAutomation.FillForm acts = 0%nat).
Proof.
  revert f. induction es as [|e es IH]; intros f; cbv zeta.
  - cbn. repeat split; lia.
  - cbn [PageAutomation.run].
    pose proof (handle_counts serverUrl authStrategy f e) as H. cbv zeta in H.
    destruct (PageAutomation.handle serverUrl authStrategy f e) as [f1 acts].
    specialize (IH f1). cbv zeta in IH.
    destruct (PageAutomation.run serverUrl authStrategy f1 es) as [f2 more].
    cbn [fst snd] in *.
    destruct H as (H1 & H2 & H3 & H4 & H5 & H6).
    destruct IH as (I1 & I2 & I3 & I4 & I5 & I6).
    rewrite !times_app.
    repeat split; try lia.
    intros Hs. rewrite (H6 Hs), (I6 Hs). reflexivity.
Qed.

(** X23: in one login window, whatever pages load and in whatever order,
    the OAuth approval script, the choice of the login method and the
    grant-page automation are each started at most once, the login form
    is filled at most three times, [formFillAttempts] counts exactly
    these fills, and the form is never filled unless the strategy is the
    one with saved credentials. *)
Theorem automation_runs_bounded (serverUrl : string) (authStrategy : option strategyType)
    (es : list PageAutomation.event) :
  let f := fst (PageAutomation.run serverUrl authStrategy PageAutomation.initial es) in
  let acts := snd (PageAutomation.run serverUrl authStrategy PageAutomation.initial es) in
  (PageAutomation.times PageAutomation.AutoApprove acts <= 1
   /\ PageAutomation.times PageAutomation.SelectMethod acts <= 1
   /\ PageAutomation.times PageAutomation.GrantAutomation acts <= 1
   /\ PageAutomation.times PageAutomation.FillForm acts <= 3
   /\ PageAutomation.formFillAttempts f = PageAutomation.times PageAutomation.FillForm acts)%nat
  /\ (authStrategy <> Some file -> PageAutomation.times PageAutomation.FillForm acts = 0%nat).
Proof.
  cbv zeta.
  destruct (run_counts serverUrl authStrategy es PageAutomation.initial)
    as (H1 & H2 & H3 & H4 & H5 & H6).
  cbn [PageAutomation.initial PageAutomation.oauthApprovalAttempted
       PageAutomation.loginMethodSelected PageAutomation.grantPageHandled
       PageAutomation.formFillAttempts Nat.b2n] in *.
  split; [|exact H6].
  destruct (PageAutomation.oauthApprovalAttempted _), (PageAutomation.loginMethodSelected _),
           (PageAutomation.grantPageHandled _); cbn [Nat.b2n] in *; lia.
Qed.

Lemma prefix_append (p r : string) : String.prefix p (p ++ r) = true.
Proof.
  induction p as [|a p IH]; [destruct r; reflexivity|].
  rewrite append_cons. cbn. destruct (ascii_dec a a); [exact IH | congruence].
Qed.





(** ** The shape of the PKCE values *)

(** X26: the code challenge of any verifier has 43 characters, all of
    them letters, digits, [-] or [_]: the length RFC 7636 gives for the
    S256 method. *)
Theorem challenge_has_43_url_safe_chars (verifier : string) :
  String.length (generateCodeChallenge verifier) = 43%nat
  /\ allChars (fun c => URI.isAlnum c || includesChar c "-_")
       (generateCodeChallenge verifier) = true.
Proof.
  unfold generateCodeChallenge, sha256Base64.
  destruct (challenge_shape (Sha256.sha256 (bytesOf verifier))) as [[L A] _].
  rewrite sha256_length in L. split; [exact L | exact A].
Qed.

(** X27: whatever doubles below one [Math.random()] returns, the [state]
    value has 32 characters of [[A-Za-z0-9-._~]] and is made from the 32
    draws that follow the 128 of the verifier, so that one call consumes
    exactly 160 values of [Math.random()]. *)
Theorem pkce_state_wellformed (random : source) (k : nat) :
  (forall i, Double.inUnit (random i)) ->
  String.length (Pkce.state (fst (generate random k))) = 32%nat
  /\ allChars inAlphabet (Pkce.state (fst (generate random k))) = true
  /\ Pkce.state (fst (generate random k))
     = fst (generateRandomString random 32 (k + 128))
  /\ snd (generate random k) = (k + 160)%nat.
Proof.
  intros Hr. unfold generate, generateRandomString.
  destruct (generateLoop_spec random 128 k EmptyString Hr) as (_ & _ & Hk).
  destruct (generateLoop random 128 k EmptyString) as [verifier k1].
  cbn [snd] in Hk. subst k1.
  destruct (generateLoop_spec random 32 (k + 128) EmptyString Hr) as (Hl & Ha & Hk).
  destruct (generateLoop random 32 (k + 128) EmptyString) as [st k2].
  cbn [fst snd Pkce.state] in *.
  repeat split; [exact Hl | exact Ha | lia].
Qed.

Lemma pkce_state_wellformed_witness :
  let random := fun i : nat =>
    {| Double.mantissa := (Z.of_nat i * 1234567890123457 mod 2 ^ 53)%Z;
       Double.exponent := (-53)%Z |} in
  String.length (Pkce.state (fst (generate random 0))) = 32%nat
  /\ snd (generate random 0) = 160%nat.
Proof.
  cbv zeta.
  assert (Hr : forall i : nat,
            Double.inUnit
              {| Double.mantissa := (Z.of_nat i * 1234567890123457 mod 2 ^ 53)%Z;
                 Double.exponent := (-53)%Z |}).
  { intros i. unfold Double.inUnit. cbn [Double.mantissa Double.exponent].
    pose proof (Z.mod_pos_bound (Z.of_nat i * 1234567890123457) (2 ^ 53) eq_refl) as Hb.
    split; [exact Hb|]. split; [lia|]. exact (proj2 Hb). }
  destruct (pkce_state_wellformed
              (fun i : nat =>
                 {| Double.mantissa := (Z.of_nat i * 1234567890123457 mod 2 ^ 53)%Z;
                    Double.exponent := (-53)%Z |}) 0 Hr) as (H1 & _ & _ & H4).
  split; [exact H1 | exact H4].
Defined.

(** ** The completion fallback of the login window *)

Lemma encoded_server_rejected (sv rest : string) :
  Forall keepsServer (split "&" rest) ->
  exists e,
    parseLoginRedirectUrl ("nc://login/server:" ++ (encodeURIComponent sv ++ String "&" rest))
    = Throw e.
Proof.
  intros Hrest. apply parse_rejects. right. right.
  pose proof (encodeURIComponent_plain sv) as Hplain.
  set (E := encodeURIComponent sv) in *.
  change (substringFrom 11 ("nc://login/server:" ++ (E ++ String "&" rest)))
    with ("server:" ++ (E ++ String "&" rest))%string.
  unfold parseParams.
  rewrite split_field by (reflexivity || apply plain_no_amp, Hplain).
  cbn [fold_left]. unfold param. rewrite (keepsServer_fold _ _ Hrest).
  destruct (truthy E) eqn:Et.
  - right. exists E. rewrite (parsePair_server _ _ Et), lookup_insert_eq, Et.
    split; [reflexivity|]. unfold serverUrlOk.
    rewrite (newURL_no_colon _ (plain_no_colon _ Hplain)). reflexivity.
  - left. exists "server". split; [left; reflexivity|].
    rewrite (keepsServer_fold _ _ Hrest).
    destruct E; [|discriminate Et]. reflexivity.
Qed.

Lemma fallback_pairs_keep_server (u p st : string) :
  includesChar "&" u = false -> includesChar "&" p = false ->
  includesChar "&" st = false ->
  Forall keepsServer
    (split "&" ("user:" ++ (u ++ String "&" ("password:" ++ (p ++ String "&" ("state:" ++ st)))))).
Proof.
  intros Hu Hp Hs.
  rewrite split_field by (reflexivity || exact Hu).
  rewrite split_field by (reflexivity || exact Hp).
  rewrite split_last by (rewrite includes_append, Hs; reflexivity).
  repeat constructor.
  - apply keepsServer_user.
  - apply keepsServer_password.
  - apply keepsServer_state.
Qed.

(** X28: the completion fallback of the login window never yields
    credentials, whatever the page shows: the callback URL it makes up
    carries the server percent-encoded, and the parser of the same module
    rejects that.  The window is left as it was, its promise pending.
    The hypotheses hold for the [state] of the window, which is drawn
    from [[A-Za-z0-9-._~]], and for the decimal of [Date.now()]. *)
Theorem fallback_never_succeeds (pg : page) (s : session) :
  includesChar "&" (LoginWindow.state s) = false ->
  includesChar "&" (now pg) = false ->
  handleGrantPageCompletionFallback pg s = None
  /\ fallbackDone pg s = s.
Proof.
  intros Hs Hn.
  assert (H : handleGrantPageCompletionFallback pg s = None).
  { unfold handleGrantPageCompletionFallback.
    destruct (LoginWindow.destroyed s); [reflexivity|].
    assert (Hmain :
      parsedOrNone ("nc://login/server:" ++ encodeURIComponent (LoginWindow.serverUrl s)
                    ++ "&user:nextcloud_user&password:main_page_token_" ++ now pg
                    ++ "&state:" ++ LoginWindow.state s) = None).
    { unfold parsedOrNone.
      destruct (encoded_server_rejected (LoginWindow.serverUrl s)
                  ("user:" ++ ("nextcloud_user" ++ String "&"
                     ("password:" ++ (("main_page_token_" ++ now pg) ++ String "&"
                        ("state:" ++ LoginWindow.state s))))))
        as [e He].
      - apply fallback_pairs_keep_server;
          [reflexivity | rewrite includes_append, Hn; reflexivity | exact Hs].
      - rewrite (append_assoc "main_page_token_") in He.
        change (parseLoginRedirectUrl
                  ("nc://login/server:" ++ encodeURIComponent (LoginWindow.serverUrl s)
                   ++ "&user:nextcloud_user&password:main_page_token_" ++ now pg
                   ++ "&state:" ++ LoginWindow.state s) = Throw e) in He.
        rewrite He. reflexivity. }
    assert (Hinfo : forall info,
      parsedOrNone ("nc://login/server:" ++ encodeURIComponent (LoginWindow.serverUrl s)
                    ++ "&user:" ++ encodeURIComponent (userName info)
                    ++ "&password:fallback_token_" ++ now pg
                    ++ "&state:" ++ LoginWindow.state s) = None).
    { intros info. unfold parsedOrNone.
      destruct (encoded_server_rejected (LoginWindow.serverUrl s)
                  ("user:" ++ (encodeURIComponent (userName info) ++ String "&"
                     ("password:" ++ (("fallback_token_" ++ now pg) ++ String "&"
                        ("state:" ++ LoginWindow.state s))))))
        as [e He].
      - apply fallback_pairs_keep_server;
          [apply plain_no_amp, encodeURIComponent_plain
          | rewrite includes_append, Hn; reflexivity | exact Hs].
      - rewrite (append_assoc "fallback_token_") in He.
        change (parseLoginRedirectUrl
                  ("nc://login/server:" ++ encodeURIComponent (LoginWindow.serverUrl s)
                   ++ "&user:" ++ encodeURIComponent (userName info)
                   ++ "&password:fallback_token_" ++ now pg
                   ++ "&state:" ++ LoginWindow.state s) = Throw e) in He.
        rewrite He. reflexivity. }
    destruct (scriptResult pg) as [| |info]; cbn [successShown].
    - reflexivity.
    - rewrite Hmain. destruct (_ || _); reflexivity.
    - destruct (hasSuccessIndicator info || hasUserElement info); [apply Hinfo|].
      rewrite Hmain. destruct (_ || _); reflexivity. }
  split; [exact H|]. unfold fallbackDone. rewrite H. reflexivity.
Qed.

Lemma fallback_never_succeeds_witness :
  fallbackDone
    {| scriptResult := ScriptInfo {| userName := "alice"; hasSuccessIndicator := true;
                                     hasUserElement := true |};
       currentUrl := "https://cloud.example.com/";
       now := "1730000000000" |}
    (LoginWindow.open "https://cloud.example.com" "st8")
  = LoginWindow.open "https://cloud.example.com" "st8".
Proof.
  refine (proj2 (fallback_never_succeeds _ _ _ _)); reflexivity.
Defined.

(** X29: the [state] of a callback never makes the login window refuse
    it.  A callback that parses and whose state is not the one of the
    window (or is missing) starts no token exchange: both redirect
    handlers resolve the pending attempt with the credentials read from
    the URL and close the window. *)
Theorem state_mismatch_is_accepted (url : string) (c : Credentials) (s : session) :
  parseLoginRedirectUrl url = Ok c ->
  LoginService.state c <> Some (LoginWindow.state s) ->
  LoginWindow.settled s = None ->
  LoginWindow.settled (willRedirect url s) = Some (Parsed c)
  /\ LoginWindow.settled (willNavigate url s) = Some (Parsed c)
  /\ LoginWindow.codeExchanged (willRedirect url s) = LoginWindow.codeExchanged s
  /\ LoginWindow.codeExchanged (willNavigate url s) = LoginWindow.codeExchanged s.
Proof.
  intros Hp Hst Hs.
  destruct (parse_ok_inv url c Hp) as (Hstart & _).
  assert (Hlogin : startsWith url "nc://login" = true).
  { apply startsWith_split in Hstart. rewrite Hstart.
    change ("nc://login/" ++ substringFrom (String.length "nc://login/") url)%string
      with ("nc://login" ++ ("/" ++ substringFrom (String.length "nc://login/") url))%string.
    apply prefix_append. }
  assert (Hcode : codeForSession url s = false).
  { unfold codeForSession, extractOAuthParams. rewrite Hp.
    destruct (code c); [|reflexivity].
    destruct (LoginService.state c) as [st|]; [|reflexivity].
    apply String.eqb_neq. congruence. }
  assert (Hset : LoginWindow.settled (close (resolve (Parsed c) s)) = Some (Parsed c)).
  { apply close_settled. rewrite settled_resolve, Hs. reflexivity. }
  assert (Hlatch : LoginWindow.codeExchanged (close (resolve (Parsed c) s))
                   = LoginWindow.codeExchanged s).
  { unfold close, onClose, resolve. rewrite Hs.
    cbn [LoginWindow.destroyed LoginWindow.codeExchanged].
    destruct (LoginWindow.destroyed s); [reflexivity|].
    destruct (LoginWindow.codeExchanged s) eqn:E; cbn; rewrite ?E; reflexivity. }
  unfold willRedirect, willNavigate. rewrite Hlogin, Hp, Hcode. cbn [andb].
  repeat split; assumption.
Qed.

Lemma state_mismatch_is_accepted_witness :
  LoginWindow.settled
    (willRedirect "nc://login/server:https://cloud.example.com&user:alice&password:x&code:abc&state:other"
       (LoginWindow.open "https://cloud.example.com" "st8"))
  = Some (Parsed {| server := "https://cloud.example.com"; user := "alice"; password := "x";
                    code := Some "abc"; LoginService.state := Some "other" |}).
Proof.
  refine (proj1 (state_mismatch_is_accepted _ _ _ _ _ _)).
  - vm_compute. reflexivity.
  - discriminate.
  - reflexivity.
Defined.
